(** * Pop the Balloon analytics: comment collection and sentiment analysis

    A shallow embedding of [main.py] (stage 1: the paginated comment
    collector and its CSV export) and of [sentiment_analysis.py] (stage 2:
    scoring, classification, summary and export), followed by the
    properties of the two stages.

    Conventions of the embedding.
    - Python objects are values of [Py.value]; a [dict] with [str] keys is a
      [gmap string value].
    - A Python [float] is modelled by the rational it denotes: literals
      denote their decimal value and comparisons are those of [Q].
      Division and rounding give the exact rational result, which the code
      rounds once more to the nearest double; the properties below that
      involve them either allow for that last rounding or hold of integers
      and of scores of at most four decimals, where nothing is rounded.
      NaN, infinities and overflow are outside the model.
    - An operation that can raise returns a [Py.result]; [except Exception]
      catches every exception of [Py.exn].
    - The remote comment source, the sentiment scorer, [int()] on a [str] and
      the file system are outside the repository: they are parameters. *)

From Stdlib Require Import ZArith QArith Qround Qabs Lqa String Ascii List Lia.
From stdpp Require Import base option list gmap strings fin_maps.

Set Warnings "-register-all".
Open Scope string_scope.
Open Scope list_scope.

(** ** Python values, exceptions and the builtins the two scripts use *)

Module Py.

Inductive value :=
| VNone
| VBool (b : bool)
| VInt (z : Z)
| VFloat (q : Q)
| VStr (s : string)
| VList (l : list value)
| VDict (d : gmap string value).

Inductive exn :=
| KeyError
| TypeError
| AttributeError
| ValueError
| ZeroDivisionError
| FileNotFoundError
| OSError
| HttpError
| StopIteration.

Inductive result (A : Type) :=
| Ok (a : A)
| Raise (e : exn).
Arguments Ok {A} a.
Arguments Raise {A} e.

Definition bind {A B} (r : result A) (k : A -> result B) : result B :=
  match r with
  | Ok a => k a
  | Raise e => Raise e
  end.


(** [bool(v)], as used by [if not v] *)
Definition truthy (v : value) : bool :=
  match v with
  | VNone => false
  | VBool b => b
  | VInt z => negb (z =? 0)%Z
  | VFloat q => negb (Qeq_bool q 0)
  | VStr s => negb (String.eqb s "")
  | VList l => match l with [] => false | _ :: _ => true end
  | VDict d => match map_to_list d with [] => false | _ :: _ => true end
  end.

(** [v.get(k, dflt)]: only a dict has the method *)
Definition get (v : value) (k : string) (dflt : value) : result value :=
  match v with
  | VDict d => Ok (default dflt (d !! k))
  | _ => Raise AttributeError
  end.

(** [v[k]] with a [str] key [k] *)
Definition subscript (v : value) (k : string) : result value :=
  match v with
  | VDict d =>
      match d !! k with
      | Some x => Ok x
      | None => Raise KeyError
      end
  | _ => Raise TypeError
  end.

(** The items [for item in v] goes through.  A [str] yields its
    characters and a dict its keys, each a [str]. *)
Definition iterate (v : value) : result (list value) :=
  match v with
  | VList l => Ok l
  | VStr s => Ok ((fun c => VStr (String c EmptyString)) <$> list_ascii_of_string s)
  | VDict d => Ok (VStr <$> (map_to_list d).*1)
  | _ => Raise TypeError
  end.

(** [int(v)], given [int()] on a [str] *)
Definition int (int_of_str : string -> option Z) (v : value) : result Z :=
  match v with
  | VInt z => Ok z
  | VBool b => Ok (if b then 1 else 0)%Z
  | VFloat q => Ok (Z.quot (Qnum q) (Z.pos (Qden q)))
  | VStr s =>
      match int_of_str s with
      | Some z => Ok z
      | None => Raise ValueError
      end
  | _ => Raise TypeError
  end.

(** A number as an operand of float arithmetic *)
Definition number (v : value) : result Q :=
  match v with
  | VFloat q => Ok q
  | VInt z => Ok (inject_Z z)
  | VBool b => Ok (if b then 1 else 0)%Q
  | _ => Raise TypeError
  end.

(** [x / y]: the exact quotient, of which Python gives the nearest
    double *)
Definition truediv (x y : Q) : result Q :=
  if Qeq_bool y 0 then Raise ZeroDivisionError else Ok (x / y)%Q.

(** Rounding to the nearest integer, ties to even *)
Definition round_half_even (q : Q) : Z :=
  let f := Qfloor q in
  match (q - inject_Z f ?= 1 # 2)%Q with
  | Lt => f
  | Gt => (f + 1)%Z
  | Eq => if Z.even f then f else (f + 1)%Z
  end.

(** [round(q, ndigits)], also the value shown by the format
    [.<ndigits>f]: the decimal of [ndigits] digits nearest to [q], ties to
    even.  Python rounds the double it holds and returns the double nearest
    to that decimal: the two agree on a value that has at most [ndigits]
    decimals, which is returned as it is. *)
Definition round (q : Q) (ndigits : nat) : Q :=
  (inject_Z (round_half_even (q * inject_Z (10 ^ Z.of_nat ndigits)))
   / inject_Z (10 ^ Z.of_nat ndigits))%Q.

End Py.

(** [result] is an error monad; stdpp's [x ← r; k] is its sequencing. *)
#[global] Instance result_ret : MRet Py.result := @Py.Ok.
#[global] Instance result_bind : MBind Py.result := fun A B k r => Py.bind r k.

Import Py.

(** ** Stage 1: [main.py], the comment collector *)

Module Main.

Definition OUTPUT_CSV : string := "pop_the_balloon_comments.csv".

(** What a run does that can be observed from outside: the requests sent
    to the remote source, the files written and the lines logged (a log
    line is kept as its kind and the values it interpolates). *)
Inductive event :=
| LogFetchingComments (video_id : string)
| LogFetchingPage (page_count : nat)
| Request (video_id : string) (page_token : value)
| LogTotalFetched (total_comments page_count : nat)
| LogErrorFetching (e : exn)
| LogNoCommentsToExport
| LogExporting (n : nat) (output_file : string)
| Wrote (output_file : string) (fieldnames : list string)
        (rows : list (gmap string value))
| LogExportSuccessful (output_file : string)
| LogErrorWriting (e : exn).

Definition request_token (ev : event) : option value :=
  match ev with
  | Request _ page_token => Some page_token
  | _ => None
  end.

(** The page tokens of the requests of a trace, in the order sent *)
Definition requests (tr : list event) : list value := omap request_token tr.

(** The body of [for item in ...]: the comment built from one item.
    [item['snippet']] is indexed, the four fields are read with [.get]. *)
Definition comment_of_item (item : value) : result (gmap string value) :=
  thread ← subscript item "snippet";
  top ← subscript thread "topLevelComment";
  snippet ← subscript top "snippet";
  author_name ← get snippet "authorDisplayName" (VStr "");
  likes ← get snippet "likeCount" (VInt 0);
  thread' ← subscript item "snippet";
  reply_count ← get thread' "replyCount" (VInt 0);
  comment_text ← get snippet "textDisplay" (VStr "");
  mret (<["author_name" := author_name]>
        (<["likes" := likes]>
         (<["reply_count" := reply_count]>
          (<["comment_text" := comment_text]> ∅)))).

(** The [for] loop: every comment is appended as soon as it is built, so
    an exception leaves the comments of the items before it in the list. *)
Fixpoint collect_items (items : list value)
    (comments : list (gmap string value)) (total_comments : nat)
  : list (gmap string value) * nat * option exn :=
  match items with
  | [] => (comments, total_comments, None)
  | item :: rest =>
      match comment_of_item item with
      | Raise e => (comments, total_comments, Some e)
      | Ok comment => collect_items rest (comments ++ [comment]) (S total_comments)
      end
  end.

(** What the loop body does with a response: the comments and the
    counter afterwards, and the next page token or the exception. *)
Definition process_response (response : value)
    (comments : list (gmap string value)) (total_comments : nat)
  : list (gmap string value) * nat * result value :=
  match get response "items" (VList []) ≫= iterate with
  | Raise e => (comments, total_comments, Raise e)
  | Ok items =>
      match collect_items items comments total_comments with
      | (comments', total', Some e) => (comments', total', Raise e)
      | (comments', total', None) =>
          (comments', total', get response "nextPageToken" VNone)
      end
  end.

(** What [fetch_comments] hands back: the list it returns, and, for the
    observer, the source afterwards and the trace. *)
Record fetched {St : Type} := {
  returned : list (gmap string value);
  source_after : St;
  trace : list event
}.
Arguments fetched St : clear implicits.

Section Collector.
Context {St : Type}.

(** [self.youtube.commentThreads().list(videoId=..., pageToken=...,
    ...).execute()] against a source in state [St] *)
Variable execute : string -> value -> St -> result value * St.

(** [while True]: one iteration per unit of fuel; [None] when the fuel
    runs out with the loop still going. *)
Fixpoint fetch_loop (fuel : nat) (video_id : string)
    (comments : list (gmap string value)) (page_token : value)
    (page_count total_comments : nat) (src : St) (tr : list event)
  : option (fetched St) :=
  match fuel with
  | O => None
  | S fuel' =>
      let page_count := S page_count in
      let tr := tr ++ [LogFetchingPage page_count; Request video_id page_token] in
      match execute video_id page_token src with
      | (Raise e, src') =>
          Some {| returned := comments; source_after := src';
                  trace := tr ++ [LogErrorFetching e] |}
      | (Ok response, src') =>
          match process_response response comments total_comments with
          | (comments', _, Raise e) =>
              Some {| returned := comments'; source_after := src';
                      trace := tr ++ [LogErrorFetching e] |}
          | (comments', total', Ok page_token') =>
              if truthy page_token'
              then fetch_loop fuel' video_id comments' page_token'
                              page_count total' src' tr
              else Some {| returned := comments'; source_after := src';
                           trace := tr ++ [LogTotalFetched total' page_count] |}
          end
      end
  end.

Definition fetch_comments (fuel : nat) (video_id : string) (src : St)
  : option (fetched St) :=
  fetch_loop fuel video_id [] VNone 0 0 src [LogFetchingComments video_id].

End Collector.

Section Exporter.

(** [open(output_file, 'w')] and the [DictWriter] calls on it: [None]
    when the file is written, the exception otherwise.  The exception may
    come from [open] or from a write after it: then the file may be left
    created, truncated or partly written, which the result does not tell.
    The export logs [LogExporting] right before it opens the file, and
    the trace has [Wrote] for a write that completed. *)
Variable write_csv :
  string -> list string -> list (gmap string value) -> option exn.

Definition fieldnames : list string :=
  ["author_name"; "likes"; "reply_count"; "comment_text"].

Definition export_to_csv (comments : list (gmap string value))
    (output_file : string) : result unit * list event :=
  match comments with
  | [] => (Ok (), [LogNoCommentsToExport])
  | _ :: _ =>
      let tr := [LogExporting (length comments) output_file] in
      match write_csv output_file fieldnames comments with
      | None =>
          (Ok (), tr ++ [Wrote output_file fieldnames comments;
                         LogExportSuccessful output_file])
      | Some e => (Raise e, tr ++ [LogErrorWriting e])
      end
  end.

End Exporter.

End Main.

(** ** Stage 2: [sentiment_analysis.py] *)

Module SentimentAnalysis.

Definition INPUT_CSV : string := "pop_the_balloon_comments.csv".
Definition OUTPUT_CSV : string := "pop_the_balloon_sentiment_analysis.csv".
Definition POSITIVE_THRESHOLD : Q := 0.05.
Definition NEGATIVE_THRESHOLD : Q := -0.05.

(** The dict [polarity_scores] returns, read at its four keys *)
Record scores := {
  pos : Q;
  neg : Q;
  neu : Q;
  compound : Q
}.

Inductive event :=
| LogStarting
| LogLoading (input_file : string)
| LogLoaded (n : nat)
| LogNotFound (input_file : string)
| LogErrorLoading (e : exn)
| LogAnalyzing
| LogProcessed (i n : nat)
| Scored (comment_text : value)
| LogCompleted (n : nat)
| LogNoAnalyzedToExport
| LogExporting (n : nat) (output_file : string)
| Wrote (output_file : string) (fieldnames : list string)
        (rows : list (gmap string value))
| LogExportSuccessful (output_file : string)
| LogErrorWriting (e : exn)
| LogNoCommentsToSummarize
| LogTotals (total_comments : nat) (total_likes total_replies : Z)
            (avg_compound : Q)
| LogDistribution (sentiment : string) (count : Z)
                  (percentage avg_likes avg_replies : Q)
| LogWorkflowCompleted
| LogFatal (e : exn).

(** The analyzer object, with the trace of what it has done so far *)
Record analyzer := {
  comments : list (gmap string value);
  analyzed_comments : list (gmap string value);
  trace : list event
}.

Definition log (ev : event) (self : analyzer) : analyzer :=
  {| comments := comments self;
     analyzed_comments := analyzed_comments self;
     trace := trace self ++ [ev] |}.

Definition set_comments (rows : list (gmap string value)) (self : analyzer)
  : analyzer :=
  {| comments := rows;
     analyzed_comments := analyzed_comments self;
     trace := trace self |}.

Definition append_analyzed (analyzed : gmap string value) (self : analyzer)
  : analyzer :=
  {| comments := comments self;
     analyzed_comments := analyzed_comments self ++ [analyzed];
     trace := trace self |}.

(** The analyzer [SentimentAnalyzer.__init__] leaves when it returns.  The
    scorer it builds is a parameter of the model, and so is outside it
    whether building it succeeds. *)
Definition init : analyzer :=
  {| comments := []; analyzed_comments := []; trace := [] |}.

Definition classify_sentiment (compound_score : Q) : string :=
  if Qlt_le_dec POSITIVE_THRESHOLD compound_score then "Positive"
  else if Qlt_le_dec compound_score NEGATIVE_THRESHOLD then "Negative"
  else "Neutral".

(** [d[k]] on a dict *)
Definition item (d : gmap string value) (k : string) : result value :=
  match d !! k with
  | Some v => Ok v
  | None => Raise KeyError
  end.

(** [d[v]] on one of the three counters, whose keys are [str]: a list or a
    dict is unhashable, any other value is hashable and not a key. *)
Definition counter (d : gmap string Z) (v : value) : result Z :=
  match v with
  | VStr s =>
      match d !! s with
      | Some n => Ok n
      | None => Raise KeyError
      end
  | VList _ | VDict _ => Raise TypeError
  | _ => Raise KeyError
  end.

(** [d[v] = n], after [d[v]] has been read *)
Definition store (d : gmap string Z) (v : value) (n : Z) : gmap string Z :=
  match v with
  | VStr s => <[s := n]> d
  | _ => d
  end.

Definition fieldnames : list string :=
  ["author_name"; "sentiment"; "compound_score"; "positive_score";
   "negative_score"; "neutral_score"; "likes"; "reply_count"; "comment_text"].

Definition sentiments : list string := ["Positive"; "Negative"; "Neutral"].

Definition zeros : gmap string Z :=
  <["Positive" := 0%Z]> (<["Negative" := 0%Z]> (<["Neutral" := 0%Z]> ∅)).

(** The three dicts [print_summary] accumulates into *)
Record tally := {
  sentiment_counts : gmap string Z;
  sentiment_likes : gmap string Z;
  sentiment_replies : gmap string Z
}.

Section Analyzer.

(** [self.sia.polarity_scores(text)] *)
Variable polarity_scores : value -> result scores.
(** [int(s)] on a [str] *)
Variable int_of_str : string -> option Z.
(** [list(csv.DictReader(open(input_file, 'r')))] *)
Variable read_csv : string -> result (list (gmap string value)).
(** [open(output_file, 'w')] and the [DictWriter] calls on it: [None]
    when the file is written, the exception of [open] or of a write
    otherwise, which may leave the file truncated or partly written *)
Variable write_csv :
  string -> list string -> list (gmap string value) -> option exn.

Definition load_comments (input_file : string) (self : analyzer)
  : bool * analyzer :=
  let self := log (LogLoading input_file) self in
  match read_csv input_file with
  | Ok rows =>
      let self := set_comments rows self in
      (true, log (LogLoaded (length (comments self))) self)
  | Raise FileNotFoundError => (false, log (LogNotFound input_file) self)
  | Raise e => (false, log (LogErrorLoading e) self)
  end.

(** The dict built for one comment *)
Definition analyze (comment : gmap string value) : result (gmap string value) :=
  let comment_text := default (VStr "") (comment !! "comment_text") in
  scores ← polarity_scores comment_text;
  mret (<["author_name" := default (VStr "") (comment !! "author_name")]>
        (<["comment_text" := comment_text]>
         (<["likes" := default (VInt 0) (comment !! "likes")]>
          (<["reply_count" := default (VInt 0) (comment !! "reply_count")]>
           (<["positive_score" := VFloat (round (pos scores) 4)]>
            (<["negative_score" := VFloat (round (neg scores) 4)]>
             (<["neutral_score" := VFloat (round (neu scores) 4)]>
              (<["compound_score" := VFloat (round (compound scores) 4)]>
               (<["sentiment" := VStr (classify_sentiment (compound scores))]>
                ∅))))))))).

(** [for i, comment in enumerate(self.comments, 1)], from index [i] on *)
Fixpoint analyze_from (i n : nat) (todo : list (gmap string value))
    (self : analyzer) : result unit * analyzer :=
  match todo with
  | [] => (Ok (), self)
  | comment :: rest =>
      let self :=
        if (i mod 500 =? 0)%nat then log (LogProcessed i n) self else self in
      let self :=
        log (Scored (default (VStr "") (comment !! "comment_text"))) self in
      match analyze comment with
      | Raise e => (Raise e, self)
      | Ok analyzed => analyze_from (S i) n rest (append_analyzed analyzed self)
      end
  end.

Definition analyze_comments (self : analyzer) : result unit * analyzer :=
  let self := log LogAnalyzing self in
  match analyze_from 1 (length (comments self)) (comments self) self with
  | (Ok _, self) =>
      (Ok (), log (LogCompleted (length (analyzed_comments self))) self)
  | (Raise e, self) => (Raise e, self)
  end.

Definition export_to_csv (output_file : string) (self : analyzer)
  : result unit * analyzer :=
  match analyzed_comments self with
  | [] => (Ok (), log LogNoAnalyzedToExport self)
  | _ :: _ =>
      let self :=
        log (LogExporting (length (analyzed_comments self)) output_file) self in
      match write_csv output_file fieldnames (analyzed_comments self) with
      | None =>
          let self :=
            log (Wrote output_file fieldnames (analyzed_comments self)) self in
          (Ok (), log (LogExportSuccessful output_file) self)
      | Some e => (Raise e, log (LogErrorWriting e) self)
      end
  end.

(** One iteration of the counting loop of [print_summary] *)
Definition tally_comment (t : tally) (comment : gmap string value)
  : result tally :=
  sentiment ← item comment "sentiment";
  count ← counter (sentiment_counts t) sentiment;
  let counts := store (sentiment_counts t) sentiment (count + 1)%Z in
  likes ← counter (sentiment_likes t) sentiment;
  n ← item comment "likes" ≫= int int_of_str;
  let likes := store (sentiment_likes t) sentiment (likes + n)%Z in
  replies ← counter (sentiment_replies t) sentiment;
  m ← item comment "reply_count" ≫= int int_of_str;
  let replies := store (sentiment_replies t) sentiment (replies + m)%Z in
  mret {| sentiment_counts := counts;
          sentiment_likes := likes;
          sentiment_replies := replies |}.

Fixpoint tally_comments (t : tally) (cs : list (gmap string value))
  : result tally :=
  match cs with
  | [] => Ok t
  | comment :: rest => t' ← tally_comment t comment; tally_comments t' rest
  end.

(** [sum(int(c[k]) for c in cs)], from the running total [acc] *)
Fixpoint sum_int (k : string) (acc : Z) (cs : list (gmap string value))
  : result Z :=
  match cs with
  | [] => Ok acc
  | c :: rest => n ← item c k ≫= int int_of_str; sum_int k (acc + n)%Z rest
  end.

(** [sum(c[k] for c in cs)], from the running total [acc] *)
Fixpoint sum_number (k : string) (acc : Q) (cs : list (gmap string value))
  : result Q :=
  match cs with
  | [] => Ok acc
  | c :: rest => x ← item c k ≫= number; sum_number k (acc + x)%Q rest
  end.

(** The values of one line of the distribution table *)
Definition distribution (t : tally) (total_comments : nat)
    (sentiment : string) : result event :=
  count ← counter (sentiment_counts t) (VStr sentiment);
  percentage ←
    (if (0 <? total_comments)%nat
     then q ← truediv (inject_Z count) (inject_Z (Z.of_nat total_comments));
          mret (q * 100)%Q
     else mret 0%Q);
  avg_likes ←
    (if (0 <? count)%Z
     then l ← counter (sentiment_likes t) (VStr sentiment);
          truediv (inject_Z l) (inject_Z count)
     else mret 0%Q);
  avg_replies ←
    (if (0 <? count)%Z
     then r ← counter (sentiment_replies t) (VStr sentiment);
          truediv (inject_Z r) (inject_Z count)
     else mret 0%Q);
  mret (LogDistribution sentiment count percentage avg_likes avg_replies).

(** [for sentiment in ['Positive', 'Negative', 'Neutral']] *)
Fixpoint distributions (t : tally) (total_comments : nat)
    (todo : list string) (self : analyzer) : result unit * analyzer :=
  match todo with
  | [] => (Ok (), self)
  | sentiment :: rest =>
      match distribution t total_comments sentiment with
      | Raise e => (Raise e, self)
      | Ok line => distributions t total_comments rest (log line self)
      end
  end.

(** The values [print_summary] computes before it logs anything *)
Definition totals (cs : list (gmap string value)) : result (tally * event) :=
  t ← tally_comments {| sentiment_counts := zeros; sentiment_likes := zeros;
                       sentiment_replies := zeros |} cs;
  let total_comments := length cs in
  total_likes ← sum_int "likes" 0 cs;
  total_replies ← sum_int "reply_count" 0 cs;
  compound_sum ← sum_number "compound_score" 0 cs;
  avg_compound ← truediv compound_sum (inject_Z (Z.of_nat total_comments));
  mret (t, LogTotals total_comments total_likes total_replies avg_compound).

Definition print_summary (self : analyzer) : result unit * analyzer :=
  match analyzed_comments self with
  | [] => (Ok (), log LogNoCommentsToSummarize self)
  | _ :: _ =>
      match totals (analyzed_comments self) with
      | Raise e => (Raise e, self)
      | Ok (t, header) =>
          distributions t (length (analyzed_comments self)) sentiments
                        (log header self)
      end
  end.

Definition run (self : analyzer) : result unit * analyzer :=
  let self := log LogStarting self in
  match load_comments INPUT_CSV self with
  | (false, self) => (Ok (), self)
  | (true, self) =>
      match analyze_comments self with
      | (Raise e, self) => (Raise e, self)
      | (Ok _, self) =>
          match export_to_csv OUTPUT_CSV self with
          | (Raise e, self) => (Raise e, self)
          | (Ok _, self) =>
              match print_summary self with
              | (Raise e, self) => (Raise e, self)
              | (Ok _, self) => (Ok (), log LogWorkflowCompleted self)
              end
          end
      end
  end.

(** [main]: a fatal error is logged and raised again *)
Definition main : result unit * analyzer :=
  match run init with
  | (Raise e, self) => (Raise e, log (LogFatal e) self)
  | (Ok _, self) => (Ok (), self)
  end.

End Analyzer.

End SentimentAnalysis.

(** ** Stage 1, the rest of [main.py]: credentials, channel and video
    lookup, summary and the workflow *)

Module Scraper.

Definition YOUTUBE_API_SERVICE_NAME : string := "youtube".
Definition YOUTUBE_API_VERSION : string := "v3".
Definition API_KEY_FILE : string := "api_key.txt".
Definition CHANNEL_QUERY : string := "Pop the Balloon".

(** What the workflow does that can be observed: the two kinds of search
    request, the events of the collector and of the export, and the lines
    logged. *)
Inductive event :=
| LogAuthenticating
| LogAuthenticated
| LogSearchingChannel (channel_name : string)
| Search (kwargs : gmap string value)
| LogNoChannels (channel_name : string)
| LogFoundChannels
| LogFoundChannel (i : nat) (channel_title channel_id : value)
| LogUsingChannel (channel_title : value)
| LogErrorSearching (e : exn)
| LogFetchingLatest (channel_id : value)
| LogNoVideos
| LogLatestVideo (video_title video_id : value)
| LogErrorLatest (e : exn)
| Collector (ev : Main.event)
| LogNoCommentsToSummarize
| LogSummary (n : nat) (total_likes total_replies : value) (avg_likes : Q)
             (max_likes : value)
| LogMostLiked (author_name : value) (text_preview : string)
| LogSummaryEnd
| LogStarting
| LogFailedChannel
| LogFailedVideo
| LogNoCommentsRetrieved
| LogWorkflowCompleted
| LogFatal (e : exn).

(** [c.isspace()] for a character below 256 *)
Definition is_space (c : ascii) : bool :=
  let n := nat_of_ascii c in
  ((9 <=? n) && (n <=? 13) || (28 <=? n) && (n <=? 32)
   || (n =? 133) || (n =? 160))%nat.

Fixpoint lstrip (l : list ascii) : list ascii :=
  match l with
  | [] => []
  | c :: rest => if is_space c then lstrip rest else l
  end.

(** [s.strip()] *)
Definition strip (s : string) : string :=
  string_of_list_ascii
    (rev (lstrip (rev (lstrip (list_ascii_of_string s))))).

(** [s[:n]] on a [str] *)
Definition prefix (n : nat) (s : string) : string :=
  string_of_list_ascii (take n (list_ascii_of_string s)).

(** [v[:60] + "..."]: a [str] is cut and extended; a list can be cut but
    not extended by a [str]; nothing else can be sliced.  (A dict raises
    [TypeError] before Python 3.12.) *)
Definition preview (v : value) : result string :=
  match v with
  | VStr s => Ok (prefix 60 s ++ "...")%string
  | _ => Raise TypeError
  end.

(** [acc + v] where [acc] is the running total of [sum], an [int] or a
    [float] *)
Definition add (acc v : value) : result value :=
  match acc, v with
  | VInt a, VInt b => Ok (VInt (a + b))
  | VInt a, VBool b => Ok (VInt (a + (if b then 1 else 0)))
  | VInt a, VFloat q => Ok (VFloat (inject_Z a + q))
  | VFloat p, VInt b => Ok (VFloat (p + inject_Z b))
  | VFloat p, VBool b => Ok (VFloat (p + (if b then 1 else 0)))
  | VFloat p, VFloat q => Ok (VFloat (p + q))
  | _, _ => Raise TypeError
  end.

(** [sum(c[k] for c in cs)], from the running total [acc] *)
Fixpoint sum_field (k : string) (acc : value) (cs : list (gmap string value))
  : result value :=
  match cs with
  | [] => Ok acc
  | c :: rest =>
      v ← SentimentAnalysis.item c k;
      acc' ← add acc v;
      sum_field k acc' rest
  end.

(** The rational a number denotes; used on numbers only *)
Definition magnitude (v : value) : Q :=
  match v with
  | VInt z => inject_Z z
  | VBool b => if b then 1 else 0
  | VFloat q => q
  | _ => 0
  end.

(** [max] over numbers, from the maximum so far: a later number replaces
    it only when it is greater. *)
Fixpoint max_from (m : value) (vs : list value) : value :=
  match vs with
  | [] => m
  | v :: rest =>
      if Qlt_le_dec (magnitude m) (magnitude v) then max_from v rest
      else max_from m rest
  end.

(** [next((c for c in cs if c['likes'] == m), None)], on comments whose
    likes are numbers *)
Fixpoint first_with_likes (m : value) (cs : list (gmap string value))
  : option (gmap string value) :=
  match cs with
  | [] => None
  | c :: rest =>
      if Qeq_bool (magnitude (default VNone (c !! "likes"))) (magnitude m)
      then Some c
      else first_with_likes m rest
  end.

(** [print_summary]: what it logs, and the exception if it raises.  The
    two sums come first; they raise on a comment without the key or with a
    value that is no number, so that the maximum is taken over numbers. *)
Definition print_summary (comments : list (gmap string value))
  : result unit * list event :=
  match comments with
  | [] => (Ok (), [LogNoCommentsToSummarize])
  | first :: rest =>
      match
        (total_likes ← sum_field "likes" (VInt 0) comments;
         total_replies ← sum_field "reply_count" (VInt 0) comments;
         avg_likes ← truediv (magnitude total_likes)
                             (inject_Z (Z.of_nat (length comments)));
         mret (total_likes, total_replies, avg_likes))
      with
      | Raise e => (Raise e, [])
      | Ok (total_likes, total_replies, avg_likes) =>
          let max_likes :=
            max_from (default VNone (first !! "likes"))
                     ((fun c => default VNone (c !! "likes")) <$> rest) in
          let header :=
            [LogSummary (length comments) total_likes total_replies avg_likes
                        max_likes] in
          match first_with_likes max_likes comments with
          | None => (Ok (), header ++ [LogSummaryEnd])
          | Some c =>
              if truthy (VDict c)
              then
                match
                  (text_preview ← SentimentAnalysis.item c "comment_text" ≫= preview;
                   author_name ← SentimentAnalysis.item c "author_name";
                   mret (LogMostLiked author_name text_preview))
                with
                | Raise e => (Raise e, header)
                | Ok line => (Ok (), header ++ [line; LogSummaryEnd])
                end
              else (Ok (), header ++ [LogSummaryEnd])
          end
      end
  end.

Section Credentials.

(** [os.path.exists(path)] *)
Variable exists_file : string -> bool.
(** [open(path, 'r').read()] *)
Variable read_file : string -> result string.

Definition load_api_key : result string :=
  if negb (exists_file API_KEY_FILE) then Raise FileNotFoundError
  else
    key ← read_file API_KEY_FILE;
    let key := strip key in
    if String.eqb key "" then Raise ValueError else Ok key.

End Credentials.

Section Workflow.
Context {St : Type}.

(** [self.youtube.search().list(...).execute()], given the keyword
    arguments of [list] *)
Variable search_list : gmap string value -> St -> result value * St.
(** [self.youtube.commentThreads().list(videoId=..., pageToken=...,
    ...).execute()] *)
Variable execute : string -> value -> St -> result value * St.
(** [str(v)] for a value that is no [str] *)
Variable str_of : value -> string.
Variable write_csv :
  string -> list string -> list (gmap string value) -> option exn.

(** The text of a value in an f-string and in a request *)
Definition render (v : value) : string :=
  match v with
  | VStr s => s
  | _ => str_of v
  end.

Definition channel_kwargs (channel_name : string) : gmap string value :=
  <["q" := VStr channel_name]>
  (<["type" := VStr "channel"]>
   (<["part" := VStr "snippet"]>
    (<["maxResults" := VInt 5]> ∅))).

Definition video_kwargs (channel_id : value) : gmap string value :=
  <["channelId" := channel_id]>
  (<["type" := VStr "video"]>
   (<["part" := VStr "snippet"]>
    (<["maxResults" := VInt 1]>
     (<["order" := VStr "date"]> ∅)))).

(** [for i, item in enumerate(response['items'], 1)]: one line per channel
    found; an exception leaves the lines logged before it. *)
Fixpoint log_channels (i : nat) (items : list value) : list event * option exn :=
  match items with
  | [] => ([], None)
  | item :: rest =>
      match
        (channel_title ← subscript item "snippet" ≫= (fun s => subscript s "title");
         channel_id ← subscript item "id" ≫= (fun d => subscript d "channelId");
         mret (LogFoundChannel i channel_title channel_id))
      with
      | Raise e => ([], Some e)
      | Ok line =>
          let '(lines, failure) := log_channels (S i) rest in
          (line :: lines, failure)
      end
  end.

(** [response['items'][0]], where [response['items']] is true: the head of
    a list, the first character of a [str]; a dict has no key [0] and
    nothing else has items. *)
Definition first_item (items : value) : result value :=
  match items with
  | VList (item :: _) => Ok item
  | VStr (String c _) => Ok (VStr (String c EmptyString))
  | VDict _ => Raise KeyError
  | _ => Raise TypeError
  end.

(** What [find_channel] does with the response, inside the [try] *)
Definition channel_of_response (channel_name : string) (response : value)
  : list event * result value :=
  match get response "items" VNone with
  | Raise e => ([], Raise e)
  | Ok items =>
      if negb (truthy items) then ([LogNoChannels channel_name], Ok VNone)
      else
        match iterate items with
        | Raise e => ([LogFoundChannels], Raise e)
        | Ok listed =>
            match log_channels 1 listed with
            | (lines, Some e) => (LogFoundChannels :: lines, Raise e)
            | (lines, None) =>
                match
                  (first ← first_item items;
                   channel_id ← subscript first "id" ≫= (fun d => subscript d "channelId");
                   channel_title ← subscript first "snippet" ≫= (fun s => subscript s "title");
                   mret (channel_id, channel_title))
                with
                | Raise e => (LogFoundChannels :: lines, Raise e)
                | Ok (channel_id, channel_title) =>
                    (LogFoundChannels :: lines ++ [LogUsingChannel channel_title],
                     Ok channel_id)
                end
            end
        end
  end.

(** [find_channel]: the channel id, or [None] *)
Definition find_channel (channel_name : string) (src : St)
  : value * St * list event :=
  let tr := [LogSearchingChannel channel_name; Search (channel_kwargs channel_name)] in
  match search_list (channel_kwargs channel_name) src with
  | (Raise e, src') => (VNone, src', tr ++ [LogErrorSearching e])
  | (Ok response, src') =>
      match channel_of_response channel_name response with
      | (lines, Raise e) => (VNone, src', tr ++ lines ++ [LogErrorSearching e])
      | (lines, Ok channel_id) => (channel_id, src', tr ++ lines)
      end
  end.

(** What [get_latest_video] does with the response, inside the [try] *)
Definition video_of_response (response : value) : list event * result value :=
  match get response "items" VNone with
  | Raise e => ([], Raise e)
  | Ok items =>
      if negb (truthy items) then ([LogNoVideos], Ok VNone)
      else
        match
          (first ← first_item items;
           video_id ← subscript first "id" ≫= (fun d => subscript d "videoId");
           video_title ← subscript first "snippet" ≫= (fun s => subscript s "title");
           mret (video_id, video_title))
        with
        | Raise e => ([], Raise e)
        | Ok (video_id, video_title) =>
            ([LogLatestVideo video_title video_id], Ok video_id)
        end
  end.

(** [get_latest_video]: the video id, or [None] *)
Definition get_latest_video (channel_id : value) (src : St)
  : value * St * list event :=
  let tr := [LogFetchingLatest channel_id; Search (video_kwargs channel_id)] in
  match search_list (video_kwargs channel_id) src with
  | (Raise e, src') => (VNone, src', tr ++ [LogErrorLatest e])
  | (Ok response, src') =>
      match video_of_response response with
      | (lines, Raise e) => (VNone, src', tr ++ lines ++ [LogErrorLatest e])
      | (lines, Ok video_id) => (video_id, src', tr ++ lines)
      end
  end.

(** What a run of the workflow leaves: whether it raised, the source and
    the trace. *)
Record outcome := {
  result_of : result unit;
  source_of : St;
  trace_of : list event
}.

(** [run]; [None] when the fuel runs out inside [fetch_comments] *)
Definition run (fuel : nat) (src : St) : option outcome :=
  let tr := [LogStarting] in
  let '(channel_id, src, tr1) := find_channel CHANNEL_QUERY src in
  let tr := tr ++ tr1 in
  if negb (truthy channel_id)
  then Some {| result_of := Ok (); source_of := src;
               trace_of := tr ++ [LogFailedChannel] |}
  else
    let '(video_id, src, tr2) := get_latest_video channel_id src in
    let tr := tr ++ tr2 in
    if negb (truthy video_id)
    then Some {| result_of := Ok (); source_of := src;
                 trace_of := tr ++ [LogFailedVideo] |}
    else
      match Main.fetch_comments execute fuel (render video_id) src with
      | None => None
      | Some f =>
          let src := Main.source_after f in
          let tr := tr ++ (Collector <$> Main.trace f) in
          match Main.returned f with
          | [] => Some {| result_of := Ok (); source_of := src;
                          trace_of := tr ++ [LogNoCommentsRetrieved] |}
          | comments =>
              match Main.export_to_csv write_csv comments Main.OUTPUT_CSV with
              | (Raise e, tr3) =>
                  Some {| result_of := Raise e; source_of := src;
                          trace_of := tr ++ (Collector <$> tr3) |}
              | (Ok _, tr3) =>
                  let tr := tr ++ (Collector <$> tr3) in
                  match print_summary comments with
                  | (Raise e, tr4) =>
                      Some {| result_of := Raise e; source_of := src;
                              trace_of := tr ++ tr4 |}
                  | (Ok _, tr4) =>
                      Some {| result_of := Ok (); source_of := src;
                              trace_of := tr ++ tr4 ++ [LogWorkflowCompleted] |}
                  end
              end
          end
      end.

End Workflow.

Section Program.
Context {St : Type}.

Variable exists_file : string -> bool.
Variable read_file : string -> result string.
(** [build(name, version, developerKey=key)]: the service, a source *)
Variable build : string -> string -> string -> result St.
Variable search_list : gmap string value -> St -> result value * St.
Variable execute : string -> value -> St -> result value * St.
Variable str_of : value -> string.
Variable write_csv :
  string -> list string -> list (gmap string value) -> option exn.

(** [YouTubeCommentScraper()]: the key is loaded, then the service built *)
Definition init : result St * list event :=
  match load_api_key exists_file read_file with
  | Raise e => (Raise e, [])
  | Ok api_key =>
      match build YOUTUBE_API_SERVICE_NAME YOUTUBE_API_VERSION api_key with
      | Raise e => (Raise e, [LogAuthenticating])
      | Ok youtube => (Ok youtube, [LogAuthenticating; LogAuthenticated])
      end
  end.

(** [main]: the exception it raises, if any, and the trace; [None] when
    the fuel runs out. *)
Definition main (fuel : nat) : option (result unit * list event) :=
  match init with
  | (Raise e, tr) => Some (Raise e, tr ++ [LogFatal e])
  | (Ok youtube, tr) =>
      match run search_list execute str_of write_csv fuel youtube with
      | None => None
      | Some o =>
          match result_of o with
          | Raise e => Some (Raise e, tr ++ trace_of o ++ [LogFatal e])
          | Ok _ => Some (Ok (), tr ++ trace_of o)
          end
      end
  end.

End Program.

End Scraper.

(** ** Notions the properties are stated with *)

(** The comments a well-formed response yields, all at once *)
Definition page_comments (response : value) : result (list (gmap string value)) :=
  items ← get response "items" (VList []) ≫= iterate;
  mapM Main.comment_of_item items.

(** The continuation cursor a response carries, as the collector reads it:
    the value under [nextPageToken] when it is there and true *)
Definition next_cursor (response : value) : option value :=
  match get response "nextPageToken" VNone with
  | Ok page_token => if truthy page_token then Some page_token else None
  | Raise _ => None
  end.

(** The page token the collector sends after an answer *)
Definition token_after (answer : result value) : value :=
  match answer with
  | Ok response => default VNone (next_cursor response)
  | Raise _ => VNone
  end.

(** What a simulated source does: in state [src], asked first with
    [page_token] and then, each time, with the cursor of its last response,
    it gives the answers of [script], one per request, and is left in state
    [src']. *)
Fixpoint plays {St : Type} (execute : string -> value -> St -> result value * St)
    (video_id : string) (page_token : value) (src : St)
    (script : list (result value)) (src' : St) : Prop :=
  match script with
  | [] => src = src'
  | answer :: rest =>
      exists src1,
        execute video_id page_token src = (answer, src1) /\
        plays execute video_id (token_after answer) src1 rest src'
  end.

(** The simplest simulated source: its state is the script still to play;
    it answers a request with the first entry, whatever the page token, and
    fails once the script is used up. *)
Definition scripted (video_id : string) (page_token : value)
    (script : list (result value)) : result value * list (result value) :=
  match script with
  | [] => (Raise StopIteration, [])
  | answer :: rest => (answer, rest)
  end.


(** ** Concrete records and sources *)

Definition item_of (fields : gmap string value) (thread_fields : gmap string value)
  : value :=
  VDict {[ "snippet" :=
    VDict (<["topLevelComment" := VDict {[ "snippet" := VDict fields ]}]>
           thread_fields) ]}.

Definition item_ana : value :=
  item_of (<["authorDisplayName" := VStr "Ana"]>
           (<["likeCount" := VInt 10]>
            (<["textDisplay" := VStr "I love this!"]> ∅)))
          {[ "replyCount" := VInt 0 ]}.

Definition item_ben : value :=
  item_of (<["authorDisplayName" := VStr "Ben"]>
           (<["likeCount" := VInt 2]>
            (<["textDisplay" := VStr "This is terrible."]> ∅)))
          {[ "replyCount" := VInt 1 ]}.

Definition comment_ana : gmap string value :=
  <["author_name" := VStr "Ana"]>
  (<["likes" := VInt 10]>
   (<["reply_count" := VInt 0]>
    (<["comment_text" := VStr "I love this!"]> ∅))).

Definition comment_ben : gmap string value :=
  <["author_name" := VStr "Ben"]>
  (<["likes" := VInt 2]>
   (<["reply_count" := VInt 1]>
    (<["comment_text" := VStr "This is terrible."]> ∅))).

Definition page_ana_more : value :=
  VDict (<["items" := VList [item_ana]]> {[ "nextPageToken" := VStr "CDIQAA" ]}).

Definition page_ana_only : value :=
  VDict {[ "items" := VList [item_ana] ]}.

Definition page_ben_last : value :=
  VDict {[ "items" := VList [item_ben] ]}.

(** A response whose page token is the empty string *)
Definition page_ana_blank : value :=
  VDict (<["items" := VList [item_ana]]> {[ "nextPageToken" := VStr "" ]}).

Definition bare_record : gmap string value :=
  {[ "snippet" := VDict {[ "topLevelComment" := VDict {[ "snippet" := VDict ∅ ]} ]} ]}.

(** ** Notions the properties of stage 2 are stated with *)

Import SentimentAnalysis.

Section StageTwo.
Local Open Scope Q_scope.

Definition text_of (comment : gmap string value) : value :=
  default (VStr "") (comment !! "comment_text").

(** The texts handed to the scorer along a trace *)
Definition scored_texts (tr : list event) : list value :=
  omap (fun ev => match ev with Scored t => Some t | _ => None end) tr.

(** The files written along a trace of stage 2 *)
Definition written (tr : list event) : list string :=
  omap (fun ev => match ev with Wrote f _ _ => Some f | _ => None end) tr.

(** The label stored in an analyzed record *)
Definition label_of (a : gmap string value) : option string :=
  match a !! "sentiment" with
  | Some (VStr s) => Some s
  | _ => None
  end.

(** How many records of [cs] carry the label [s] *)
Definition count_label (s : string) (cs : list (gmap string value)) : nat :=
  length (filter (fun a => label_of a = Some s) cs).

(** A scored comment, as [print_summary] needs it: one of the three labels,
    likes and reply count that [int()] accepts, a numeric compound score. *)
Definition scored (int_of_str : string -> option Z) (a : gmap string value)
  : Prop :=
  (exists s, s ∈ sentiments /\ a !! "sentiment" = Some (VStr s)) /\
  (exists n, item a "likes" ≫= int int_of_str = Ok n) /\
  (exists n, item a "reply_count" ≫= int int_of_str = Ok n) /\
  (exists q, item a "compound_score" ≫= number = Ok q).

(** All three counters have the three labels as keys *)
Definition keyed (t : tally) : Prop :=
  forall s, s ∈ sentiments ->
    is_Some (sentiment_counts t !! s) /\
    is_Some (sentiment_likes t !! s) /\
    is_Some (sentiment_replies t !! s).

(** The share of the label [s] among the records [cs], in percent *)
Definition percentage_of (s : string) (cs : list (gmap string value)) : Q :=
  inject_Z (Z.of_nat (count_label s cs)) / inject_Z (Z.of_nat (length cs)) * 100.

(** A result that is not a [ZeroDivisionError] *)
Definition undivided {A} (r : result A) : Prop := r <> Raise ZeroDivisionError.

(** ** Concrete records, scorers and file systems *)

Definition lexicon_scorer (text : value) : result scores :=
  match text with
  | VStr s =>
      if String.eqb s "I love this!"
      then Ok {| pos := 0.808; neg := 0; neu := 0.192; compound := 0.6696 |}
      else if String.eqb s "This is terrible."
      then Ok {| pos := 0; neg := 0.508; neu := 0.492; compound := -0.4767 |}
      else Ok {| pos := 0; neg := 0; neu := 1; compound := 0 |}
  | _ => Raise AttributeError
  end.

Definition row_ana : gmap string value :=
  <["author_name" := VStr "Ana"]>
  (<["likes" := VStr "10"]>
   (<["reply_count" := VStr "0"]>
    (<["comment_text" := VStr "I love this!"]> ∅))).

Definition row_ben : gmap string value :=
  <["author_name" := VStr "Ben"]>
  (<["likes" := VStr "2"]>
   (<["reply_count" := VStr "1"]>
    (<["comment_text" := VStr "This is terrible."]> ∅))).

Definition loaded (rows : list (gmap string value)) : analyzer :=
  {| comments := rows; analyzed_comments := []; trace := [] |}.

(** [int()] on a plain string of decimal digits *)
Definition digit (c : ascii) : option Z :=
  let n := Z.of_N (N_of_ascii c) in
  if ((48 <=? n) && (n <=? 57))%Z then Some (n - 48)%Z else None.

Fixpoint digits (acc : Z) (l : list ascii) : option Z :=
  match l with
  | [] => Some acc
  | c :: rest => d ← digit c; digits (10 * acc + d)%Z rest
  end.

Definition decimal (s : string) : option Z :=
  match list_ascii_of_string s with
  | [] => None
  | l => digits 0 l
  end.

(** The records the analysis of the two rows builds with [lexicon_scorer] *)
Definition analyzed_ana : gmap string value :=
  <["author_name" := VStr "Ana"]>
  (<["comment_text" := VStr "I love this!"]>
   (<["likes" := VStr "10"]>
    (<["reply_count" := VStr "0"]>
     (<["positive_score" := VFloat (round 0.808 4)]>
      (<["negative_score" := VFloat (round 0 4)]>
       (<["neutral_score" := VFloat (round 0.192 4)]>
        (<["compound_score" := VFloat (round 0.6696 4)]>
         (<["sentiment" := VStr "Positive"]> ∅)))))))).

Definition analyzed_ben : gmap string value :=
  <["author_name" := VStr "Ben"]>
  (<["comment_text" := VStr "This is terrible."]>
   (<["likes" := VStr "2"]>
    (<["reply_count" := VStr "1"]>
     (<["positive_score" := VFloat (round 0 4)]>
      (<["negative_score" := VFloat (round 0.508 4)]>
       (<["neutral_score" := VFloat (round 0.492 4)]>
        (<["compound_score" := VFloat (round (-0.4767) 4)]>
         (<["sentiment" := VStr "Negative"]> ∅)))))))).

Definition analyzed_pair : analyzer :=
  {| comments := [row_ana; row_ben];
     analyzed_comments := [analyzed_ana; analyzed_ben];
     trace := [] |}.

(** A file system without the input file, and one that refuses every write *)
Definition no_input (input_file : string) : result (list (gmap string value)) :=
  Raise FileNotFoundError.

Definition read_only (output_file : string) (fieldnames : list string)
    (rows : list (gmap string value)) : option exn :=
  Some OSError.

Definition writable (output_file : string) (fieldnames : list string)
    (rows : list (gmap string value)) : option exn :=
  None.

Definition input_pair (input_file : string) : result (list (gmap string value)) :=
  Ok [row_ana; row_ben].

End StageTwo.

(** ** Notions the further properties are stated with *)

(** The title and the channel id of a search result, when it has both *)
Definition channel_entry (item : value) : option (value * value) :=
  match
    (channel_title ← subscript item "snippet" ≫= (fun s => subscript s "title");
     channel_id ← subscript item "id" ≫= (fun d => subscript d "channelId");
     mret (channel_title, channel_id))
  with
  | Ok entry => Some entry
  | Raise _ => None
  end.

(** The title and the video id of a search result, when it has both *)
Definition video_entry (item : value) : option (value * value) :=
  match
    (video_id ← subscript item "id" ≫= (fun d => subscript d "videoId");
     video_title ← subscript item "snippet" ≫= (fun s => subscript s "title");
     mret (video_title, video_id))
  with
  | Ok entry => Some entry
  | Raise _ => None
  end.

(** The search requests of a trace of the workflow, in the order sent *)
Definition searches (tr : list Scraper.event) : list (gmap string value) :=
  omap (fun ev => match ev with Scraper.Search kwargs => Some kwargs | _ => None end) tr.

(** The events of the collector and of the export in a trace of the
    workflow *)
Definition collected (tr : list Scraper.event) : list Main.event :=
  omap (fun ev => match ev with Scraper.Collector ev' => Some ev' | _ => None end) tr.

(** The files a trace of stage 1 set out to write: the export logs
    [LogExporting] right before it opens the file, so that each of these
    may have been created, truncated or partly written, whether or not the
    write completed. *)
Definition attempted (tr : list Main.event) : list string :=
  omap (fun ev => match ev with
                  | Main.LogExporting _ f => Some f
                  | _ => None
                  end) tr.

(** The writes that completed along a trace of stage 1, with what was
    written.  A write that failed has no entry here, though it may have
    left a file behind: see [attempted]. *)
Definition exported (tr : list Main.event)
  : list (string * list string * list (gmap string value)) :=
  omap (fun ev => match ev with
                  | Main.Wrote f fields rows => Some (f, fields, rows)
                  | _ => None
                  end) tr.

(** A number, for [sum] and [max] *)
Definition is_number (v : value) : bool :=
  match v with
  | VInt _ | VBool _ | VFloat _ => true
  | _ => false
  end.

(** A source that answers every request with the same page and cursor *)
Definition endless (video_id : string) (page_token : value) (src : unit)
  : result value * unit :=
  (Ok page_ana_more, tt).

(** A running total of [sum]: an [int] or a [float] *)
Definition is_total (v : value) : bool :=
  match v with
  | VInt _ | VFloat _ => true
  | _ => false
  end.





(** An event of the workflow that is neither a request nor an event of the
    collector or the export: a log line *)
Definition silent (ev : Scraper.event) : bool :=
  match ev with
  | Scraper.Search _ | Scraper.Collector _ => false
  | _ => true
  end.


(** ** Concrete services, key files and comments for stage 1 *)

Definition search_result (id_key title id : string) : value :=
  VDict (<["snippet" := VDict {[ "title" := VStr title ]}]>
         {[ "id" := VDict {[ id_key := VStr id ]} ]}).

Definition channel_show : value :=
  search_result "channelId" "Pop the Balloon" "UCshow".

Definition channel_fans : value :=
  search_result "channelId" "Pop the Balloon Fans" "UCfans".

Definition video_latest : value :=
  search_result "videoId" "Episode 42" "ep42".

(** A search result without an id *)
Definition video_untitled : value := VDict {[ "kind" := VStr "youtube#searchResult" ]}.

Definition channels_found : gmap string value :=
  {[ "items" := VList [channel_show; channel_fans] ]}.

Definition videos_found : gmap string value :=
  {[ "items" := VList [video_latest; video_untitled] ]}.

(** A simulated search service: it answers a search for channels with two
    channels and a search for videos with two results, and leaves the
    source of pages as it is. *)
Definition directory (kwargs : gmap string value) (src : list (result value))
  : result value * list (result value) :=
  match kwargs !! "type" with
  | Some (VStr t) =>
      if String.eqb t "channel" then (Ok (VDict channels_found), src)
      else if String.eqb t "video" then (Ok (VDict videos_found), src)
      else (Raise HttpError, src)
  | _ => (Raise HttpError, src)
  end.

(** A comment thread whose like count is a [str] *)
Definition item_odd : value :=
  item_of (<["authorDisplayName" := VStr "Cy"]>
           (<["likeCount" := VStr "many"]>
            (<["textDisplay" := VStr "First!"]> ∅)))
          {[ "replyCount" := VInt 0 ]}.

Definition comment_odd : gmap string value :=
  <["author_name" := VStr "Cy"]>
  (<["likes" := VStr "many"]>
   (<["reply_count" := VInt 0]>
    (<["comment_text" := VStr "First!"]> ∅))).

Definition page_odd_last : value :=
  VDict {[ "items" := VList [item_odd] ]}.

(** [str(v)] is not needed where the ids are [str] *)
Definition no_text (v : value) : string := "".

(** Key files: one that is there, holding a key between white space, one
    that is there and blank, and none. *)
Definition key_file_there (path : string) : bool := true.
Definition key_file_missing (path : string) : bool := false.

Definition key_text : string :=
  ("  AIzaSyExample" ++ String (ascii_of_nat 10) "")%string.

Definition key_file_padded (path : string) : result string := Ok key_text.
Definition key_file_blank (path : string) : result string :=
  Ok (String (ascii_of_nat 32) (String (ascii_of_nat 10) "")).

(** [build] giving a service whose pages are [script] *)
Definition built_with (script : list (result value))
    (name version key : string) : result (list (result value)) :=
  Ok script.

(** ** Notions the further properties of stage 2 are stated with *)

(** The files a trace of stage 2 set out to write: the export logs
    [LogExporting] right before it opens the file, so that each of these
    may have been created, truncated or partly written, whether or not the
    write completed. *)
Definition attempted_tables (tr : list SentimentAnalysis.event) : list string :=
  omap (fun ev => match ev with
                  | SentimentAnalysis.LogExporting _ f => Some f
                  | _ => None
                  end) tr.

(** The writes that completed along a trace of stage 2, with columns and
    rows.  A write that failed has no entry here, though it may have left a
    file behind: see [attempted_tables]. *)
Definition written_tables (tr : list SentimentAnalysis.event)
  : list (string * list string * list (gmap string value)) :=
  omap (fun ev => match ev with
                  | SentimentAnalysis.Wrote f fields rows => Some (f, fields, rows)
                  | _ => None
                  end) tr.

(** The progress lines of a trace: the index and the total of each *)
Definition progress (tr : list SentimentAnalysis.event) : list (nat * nat) :=
  omap (fun ev => match ev with
                  | SentimentAnalysis.LogProcessed i n => Some (i, n)
                  | _ => None
                  end) tr.

(** [int(a[k])], where it is an integer *)
Definition int_at (int_of_str : string -> option Z) (k : string)
    (a : gmap string value) : Z :=
  match item a k ≫= int int_of_str with
  | Ok n => n
  | Raise _ => 0%Z
  end.

(** The sum of [int(a[k])] over the records [cs] *)
Definition sum_at (int_of_str : string -> option Z) (k : string)
    (cs : list (gmap string value)) : Z :=
  foldr (fun a acc => (int_at int_of_str k a + acc)%Z) 0%Z cs.

(** The records of [cs] that carry the label [s] *)
Definition labelled (s : string) (cs : list (gmap string value))
  : list (gmap string value) :=
  filter (fun a => label_of a = Some s) cs.

(** The label of the opposite score, and the order of the labels *)
Definition mirror (label : string) : string :=
  if String.eqb label "Positive" then "Negative"
  else if String.eqb label "Negative" then "Positive"
  else label.

Definition rank (label : string) : Z :=
  if String.eqb label "Positive" then 1%Z
  else if String.eqb label "Negative" then (-1)%Z
  else 0%Z.

(** ** Concrete input files for stage 2 *)

(** A row as [csv.DictReader] gives it for a line with one field: the
    other columns are [None]. *)
Definition row_short : gmap string value :=
  <["author_name" := VStr "Cy"]>
  (<["likes" := VNone]>
   (<["reply_count" := VNone]>
    (<["comment_text" := VNone]> ∅))).

(** A row whose like count is no integer *)
Definition row_odd : gmap string value :=
  <["author_name" := VStr "Cy"]>
  (<["likes" := VStr "many"]>
   (<["reply_count" := VStr "0"]>
    (<["comment_text" := VStr "First!"]> ∅))).

Definition input_short (input_file : string) : result (list (gmap string value)) :=
  Ok [row_ana; row_short; row_ben].

Definition input_odd (input_file : string) : result (list (gmap string value)) :=
  Ok [row_ana; row_odd].

Definition input_empty (input_file : string) : result (list (gmap string value)) :=
  Ok [].
(** * Properties of stage 1 *)

Section CollectorFacts.
Import Main.

Context {St : Type}.
Variable execute : string -> value -> St -> result value * St.

Lemma bind_Ok {A B} (r : result A) (k : A -> result B) (b : B) :
  r ≫= k = Ok b <-> exists a, r = Ok a /\ k a = Ok b.
Proof.
  destruct r as [a|e]; simpl; split.
  - intros H. exists a. auto.
  - intros (a' & [= <-] & H). exact H.
  - discriminate.
  - intros (a' & [=] & _).
Qed.

Lemma collect_items_app items comments total :
  collect_items items comments total =
  (comments ++ (collect_items items [] 0).1.1,
   (total + (collect_items items [] 0).1.2)%nat,
   (collect_items items [] 0).2).
Proof.
  revert comments total.
  induction items as [|item rest IH]; intros comments total; simpl.
  - by rewrite app_nil_r, Nat.add_0_r.
  - destruct (comment_of_item item) as [c|e]; simpl.
    + rewrite (IH [c] 1%nat), (IH (comments ++ [c])).
      rewrite <- app_assoc. simpl. do 2 f_equal. f_equal. lia.
    + by rewrite app_nil_r, Nat.add_0_r.
Qed.

Lemma collect_items_mapM items b :
  mapM comment_of_item items = Ok b ->
  collect_items items [] 0 = (b, length b, None).
Proof.
  revert b. induction items as [|item rest IH]; intros b; simpl.
  - intros [= <-]. reflexivity.
  - intros H. apply bind_Ok in H as (c & Hc & H).
    apply bind_Ok in H as (b' & Hb' & [= <-]).
    rewrite Hc. rewrite collect_items_app, (IH b' Hb'). reflexivity.
Qed.

Lemma process_response_app response comments total :
  process_response response comments total =
  (comments ++ (process_response response [] 0).1.1,
   (total + (process_response response [] 0).1.2)%nat,
   (process_response response [] 0).2).
Proof.
  unfold process_response.
  destruct (get response "items" (VList []) ≫= iterate) as [items|e]; simpl.
  - rewrite (collect_items_app items comments total).
    destruct (collect_items items [] 0) as [[p t] [e|]]; reflexivity.
  - by rewrite app_nil_r, Nat.add_0_r.
Qed.

Lemma page_comments_response response b :
  page_comments response = Ok b ->
  exists page_token,
    get response "nextPageToken" VNone = Ok page_token /\
    process_response response [] 0 = (b, length b, Ok page_token).
Proof.
  unfold page_comments, process_response. intros H.
  apply bind_Ok in H as (items & Hitems & Hb). rewrite Hitems.
  rewrite (collect_items_mapM _ _ Hb).
  destruct response; try discriminate Hitems. simpl. eauto.
Qed.

Lemma requests_app tr tr' : requests (tr ++ tr') = requests tr ++ requests tr'.
Proof. apply omap_app. Qed.

(** One iteration of the loop *)
Lemma fetch_loop_step fuel video_id comments page_token page_count total src tr :
  fetch_loop execute (S fuel) video_id comments page_token page_count total
             src tr =
  let tr := tr ++ [LogFetchingPage (S page_count); Request video_id page_token] in
  match execute video_id page_token src with
  | (Raise e, src') =>
      Some {| returned := comments; source_after := src';
              trace := tr ++ [LogErrorFetching e] |}
  | (Ok response, src') =>
      match process_response response [] 0 with
      | (page, _, Raise e) =>
          Some {| returned := comments ++ page; source_after := src';
                  trace := tr ++ [LogErrorFetching e] |}
      | (page, n, Ok page_token') =>
          if truthy page_token'
          then fetch_loop execute fuel video_id (comments ++ page) page_token'
                          (S page_count) (total + n) src' tr
          else Some {| returned := comments ++ page; source_after := src';
                       trace := tr ++ [LogTotalFetched (total + n) (S page_count)] |}
      end
  end.
Proof.
  simpl. destruct (execute video_id page_token src) as [[response|e] src'];
    [|reflexivity].
  rewrite (process_response_app response comments total).
  by destruct (process_response response [] 0) as [[page n] [tok|e]].
Qed.

(** The loop over pages that carry a cursor: it sends one request per page
    and goes on with the last cursor. *)
Lemma fetch_loop_pages video_id (pages : list (value * value)) batches :
  Forall (fun p => next_cursor p.1 = Some p.2) pages ->
  Forall2 (fun p b => page_comments p.1 = Ok b) pages batches ->
  forall fuel comments page_token page_count total src script src' tr,
  plays execute video_id page_token src ((Ok <$> pages.*1) ++ script) src' ->
  exists tr' src1,
    fetch_loop execute (length pages + fuel) video_id comments page_token
               page_count total src tr =
    fetch_loop execute fuel video_id (comments ++ concat batches)
               (default page_token (last pages.*2)) (page_count + length pages)
               (total + length (concat batches)) src1 tr' /\
    plays execute video_id (default page_token (last pages.*2)) src1 script src' /\
    requests tr' = requests tr ++ take (length pages) (page_token :: pages.*2).
Proof.
  intros Hcur Hpages. induction Hpages as [|[r c] b pages batches Hb _ IH];
    intros fuel comments page_token page_count total src script src' tr Hplays.
  - exists tr, src. simpl. by rewrite !app_nil_r, !Nat.add_0_r.
  - apply Forall_cons in Hcur as [Hc Hcur]. simpl in Hc, Hb.
    rewrite !fmap_cons, <- app_comm_cons in Hplays.
    destruct Hplays as (src1 & Hexec & Hplays). simpl in Hplays.
    rewrite Hc in Hplays. simpl in Hplays.
    destruct (page_comments_response _ _ Hb) as (tok & Htok & Hr).
    unfold next_cursor in Hc. rewrite Htok in Hc.
    destruct (truthy tok) eqn:Htruthy; [|discriminate]. injection Hc as ->.
    destruct (IH Hcur fuel (comments ++ b) c (S page_count)
                (total + length b)%nat src1 script src'
                (tr ++ [LogFetchingPage (S page_count); Request video_id page_token])
                Hplays)
      as (tr' & src2 & Hloop & Hrest & Hreq).
    exists tr', src2. split; [|split].
    + change (length ((r, c) :: pages) + fuel)%nat with (S (length pages + fuel)).
      rewrite fetch_loop_step. cbv zeta. rewrite Hexec. cbv beta iota.
    cbn [fst]. rewrite Hr, Htruthy, Hloop.
      rewrite !fmap_cons, last_cons, concat_cons, length_app, <- app_assoc.
      f_equal.
      * by destruct (last pages.*2).
      * rewrite length_cons. lia.
      * lia.
    + rewrite fmap_cons, last_cons. by destruct (last pages.*2).
    + rewrite Hreq, requests_app. simpl. by rewrite <- app_assoc.
Qed.

(** The requests sent for [pages] and one more *)
Lemma requests_of_pages video_id (pages : list (value * value)) page_token tr' ev :
  requests tr' = take (length pages) (page_token :: pages.*2) ->
  request_token ev = None ->
  requests
    ((tr' ++ [LogFetchingPage (S (length pages));
              Request video_id (default page_token (last pages.*2))]) ++ [ev])
  = page_token :: pages.*2.
Proof.
  intros Hreq Hev. rewrite !requests_app, Hreq. simpl. rewrite Hev.
  destruct (last pages.*2) as [c|] eqn:Hlast; simpl.
  - apply last_Some in Hlast as [l Hl]. rewrite Hl.
    assert (length pages = S (length l)) as ->.
    { rewrite <- (length_fmap snd pages), Hl, length_app. simpl. lia. }
    simpl. by rewrite take_app_length, app_nil_r.
  - apply last_None in Hlast. apply fmap_nil_inv in Hlast as ->.
    reflexivity.
Qed.

(** C1.  Take a simulated source that returns N batches, each but the last
    with a continuation cursor, when it is asked first without a page token
    and then with the cursor of its last response.  Against it
    [fetch_comments] returns; it has sent exactly N requests, the first
    with no page token and each later one with the cursor of the response
    before it; it stops at the response without a cursor; and it returns
    the comments of all the batches, concatenated in order. *)
Theorem fetch_comments_pagination video_id (pages : list (value * value))
    (final : value) (batches : list (list (gmap string value)))
    (final_batch : list (gmap string value)) (src src' : St) (fuel : nat) :
  Forall (fun p => next_cursor p.1 = Some p.2) pages ->
  next_cursor final = None ->
  Forall2 (fun p b => page_comments p.1 = Ok b) pages batches ->
  page_comments final = Ok final_batch ->
  plays execute video_id VNone src (Ok <$> pages.*1 ++ [final]) src' ->
  length pages < fuel ->
  exists f,
    fetch_comments execute fuel video_id src = Some f /\
    returned f = concat (batches ++ [final_batch]) /\
    requests (trace f) = VNone :: pages.*2 /\
    length (requests (trace f)) = S (length pages) /\
    source_after f = src' /\
    last (trace f) =
      Some (LogTotalFetched (length (concat (batches ++ [final_batch])))
                            (S (length pages))).
Proof.
  intros Hcur Hfinal Hpages Hbatch Hplays Hfuel.
  replace fuel with (length pages + S (fuel - S (length pages)))%nat by lia.
  unfold fetch_comments. rewrite fmap_app in Hplays.
  destruct (fetch_loop_pages video_id pages batches Hcur Hpages
              (S (fuel - S (length pages))) [] VNone 0%nat 0%nat src
              (Ok <$> [final]) src' [LogFetchingComments video_id] Hplays)
    as (tr' & src1 & -> & Hlast & Hreq).
  simpl in Hlast. destruct Hlast as (src2 & Hexec & <-).
  destruct (page_comments_response _ _ Hbatch) as (tok & Htok & Hr).
  unfold next_cursor in Hfinal. rewrite Htok in Hfinal.
  destruct (truthy tok) eqn:Htruthy; [discriminate|].
  rewrite fetch_loop_step. cbv zeta. rewrite Hexec. cbv beta iota.
  rewrite Hr, Htruthy.
  eexists. split; [reflexivity|]. simpl.
  pose proof (requests_of_pages video_id pages VNone tr'
                (LogTotalFetched (length (concat batches) + length final_batch)
                                 (S (length pages))) Hreq eq_refl) as Hall.
  repeat split.
  - by rewrite concat_app; simpl; rewrite app_nil_r.
  - exact Hall.
  - rewrite Hall. simpl. by rewrite length_fmap.
  - rewrite last_snoc, concat_app, length_app. simpl. by rewrite app_nil_r.
Qed.


End CollectorFacts.

(** A scripted source plays its script, whatever tokens it is asked with. *)
Lemma scripted_plays video_id (script rest : list (result value)) :
  forall page_token,
    plays scripted video_id page_token (script ++ rest) script rest.
Proof.
  induction script as [|answer script IH]; intros page_token; simpl; [done|].
  exists (script ++ rest). split; [done|]. apply IH.
Qed.

Lemma fetch_comments_pagination_witness :
  exists f,
    Main.fetch_comments scripted 2 "VIDEO" [Ok page_ana_more; Ok page_ben_last]
      = Some f /\
    Main.returned f = concat [[comment_ana]; [comment_ben]] /\
    Main.requests (Main.trace f) = [VNone; VStr "CDIQAA"] /\
    length (Main.requests (Main.trace f)) = 2%nat /\
    Main.source_after f = [] /\
    last (Main.trace f) = Some (Main.LogTotalFetched 2 2).
Proof.
  apply (fetch_comments_pagination scripted "VIDEO"
           [(page_ana_more, VStr "CDIQAA")] page_ben_last
           [[comment_ana]] [comment_ben]
           [Ok page_ana_more; Ok page_ben_last] [] 2).
  - constructor; [vm_compute; reflexivity|constructor].
  - vm_compute. reflexivity.
  - constructor; [vm_compute; reflexivity|constructor].
  - vm_compute. reflexivity.
  - apply (scripted_plays "VIDEO" [Ok page_ana_more; Ok page_ben_last] []).
  - simpl. lia.
Defined.


(** A page token that is there but false, such as the empty string, is no
    cursor for the collector: the collection ends with that response. *)
Example blank_page_token_ends_collection :
  next_cursor page_ana_blank = None /\
  Main.returned <$>
    Main.fetch_comments scripted 2 "VIDEO" [Ok page_ana_blank; Ok page_ben_last]
  = Some [comment_ana] /\
  Main.source_after <$>
    Main.fetch_comments scripted 2 "VIDEO" [Ok page_ana_blank; Ok page_ben_last]
  = Some [Ok page_ben_last].
Proof. repeat split; vm_compute; reflexivity. Qed.


(** C7 as stated fails on totality: a record without the thread snippet
    makes the mapping raise [KeyError], an item that is no record
    [TypeError], and an innermost snippet that is no record
    [AttributeError]. *)
Lemma comment_of_item_not_total :
  Main.comment_of_item (VDict ∅) = Raise KeyError /\
  Main.comment_of_item
    (VDict {[ "snippet" := VDict {[ "replyCount" := VInt 3 ]} ]}) = Raise KeyError /\
  Main.comment_of_item (VStr "item") = Raise TypeError /\
  Main.comment_of_item
    (VDict {[ "snippet" :=
       VDict {[ "topLevelComment" := VDict {[ "snippet" := VNone ]} ]} ]})
  = Raise AttributeError /\
  ~ (forall item, exists comment, Main.comment_of_item item = Ok comment).
Proof.
  repeat split; try (vm_compute; reflexivity).
  intros H. destruct (H (VDict ∅)) as [comment Hc]. vm_compute in Hc. discriminate.
Qed.

(** C7, as the code has it.  On every item that has the thread snippet and,
    inside it, the top-level comment with its snippet, the mapping succeeds:
    the author name is the display name or the empty string, the likes are
    the like count or 0, the reply count is the thread's reply count or 0,
    and the text is the displayed text or the empty string.  On every other
    item it raises [KeyError], [TypeError] or [AttributeError]; the last one
    exactly when the three nested entries are there and the innermost
    snippet is not a record. *)
Theorem comment_of_item_defaults (item : value) :
  (forall record thread top snippet,
      item = VDict record ->
      record !! "snippet" = Some (VDict thread) ->
      thread !! "topLevelComment" = Some (VDict top) ->
      top !! "snippet" = Some (VDict snippet) ->
      Main.comment_of_item item =
      Ok (<["author_name" := default (VStr "") (snippet !! "authorDisplayName")]>
          (<["likes" := default (VInt 0) (snippet !! "likeCount")]>
           (<["reply_count" := default (VInt 0) (thread !! "replyCount")]>
            (<["comment_text" := default (VStr "") (snippet !! "textDisplay")]> ∅))))) /\
  ((exists record thread top snippet,
       item = VDict record /\
       record !! "snippet" = Some (VDict thread) /\
       thread !! "topLevelComment" = Some (VDict top) /\
       top !! "snippet" = Some (VDict snippet)) \/
   Main.comment_of_item item = Raise KeyError \/
   Main.comment_of_item item = Raise TypeError \/
   Main.comment_of_item item = Raise AttributeError) /\
  (Main.comment_of_item item = Raise AttributeError <->
   exists record thread top v,
     item = VDict record /\
     record !! "snippet" = Some (VDict thread) /\
     thread !! "topLevelComment" = Some (VDict top) /\
     top !! "snippet" = Some v /\
     forall snippet, v <> VDict snippet).
Proof.
  split; [|split].
  - intros record thread top snippet -> Hthread Htop Hsnippet.
    unfold Main.comment_of_item. simpl.
    rewrite Hthread. simpl. rewrite Htop. simpl. rewrite Hsnippet. reflexivity.
  - unfold Main.comment_of_item.
    destruct item as [| | | | | |record]; try (right; right; left; reflexivity).
    simpl.
    destruct (record !! "snippet") as [thread|] eqn:Hthread;
      [|right; left; reflexivity].
    destruct thread as [| | | | | |thread]; try (right; right; left; reflexivity).
    simpl.
    destruct (thread !! "topLevelComment") as [top|] eqn:Htop;
      [|right; left; reflexivity].
    destruct top as [| | | | | |top]; try (right; right; left; reflexivity).
    simpl.
    destruct (top !! "snippet") as [snippet|] eqn:Hsnippet;
      [|right; left; reflexivity].
    destruct snippet as [| | | | | |snippet];
      try (right; right; right; reflexivity).
    left. by exists record, thread, top, snippet.
  - unfold Main.comment_of_item. split.
    + destruct item as [| | | | | |record]; try discriminate. simpl.
      destruct (record !! "snippet") as [thread|] eqn:Hthread; [|discriminate].
      destruct thread as [| | | | | |thread]; try discriminate. simpl.
      destruct (thread !! "topLevelComment") as [top|] eqn:Htop; [|discriminate].
      destruct top as [| | | | | |top]; try discriminate. simpl.
      destruct (top !! "snippet") as [snippet|] eqn:Hsnippet; [|discriminate].
      intros H. exists record, thread, top, snippet.
      repeat split; try done. intros snippet' ->. discriminate H.
    + intros (record & thread & top & v & -> & Hthread & Htop & Hsnippet & Hv).
      simpl. rewrite Hthread. simpl. rewrite Htop. simpl. rewrite Hsnippet. simpl.
      destruct v as [| | | | | |snippet]; try reflexivity.
      by destruct (Hv snippet).
Qed.

(** The mapping succeeds on no other item. *)
Lemma comment_of_item_Ok_inv item comment :
  Main.comment_of_item item = Ok comment ->
  exists record thread top snippet,
    item = VDict record /\
    record !! "snippet" = Some (VDict thread) /\
    thread !! "topLevelComment" = Some (VDict top) /\
    top !! "snippet" = Some (VDict snippet).
Proof.
  unfold Main.comment_of_item. intros H.
  destruct item as [| | | | | |record]; try discriminate H. simpl in H.
  destruct (record !! "snippet") as [[| | | | | |thread]|] eqn:Hthread;
    try discriminate H. simpl in H.
  destruct (thread !! "topLevelComment") as [[| | | | | |top]|] eqn:Htop;
    try discriminate H. simpl in H.
  destruct (top !! "snippet") as [[| | | | | |snippet]|] eqn:Hsnippet;
    try discriminate H.
  by exists record, thread, top, snippet.
Qed.

Lemma comment_of_item_defaults_witness :
  Main.comment_of_item (VDict bare_record) =
  Ok (<["author_name" := VStr ""]>
      (<["likes" := VInt 0]>
       (<["reply_count" := VInt 0]>
        (<["comment_text" := VStr ""]> ∅)))).
Proof.
  etrans.
  - apply (proj1 (comment_of_item_defaults (VDict bare_record)) bare_record
             {[ "topLevelComment" := VDict {[ "snippet" := VDict ∅ ]} ]}
             {[ "snippet" := VDict ∅ ]} ∅); reflexivity.
  - reflexivity.
Defined.

(** * Properties of stage 2 *)

Open Scope Q_scope.

Lemma classify_sentiment_cases (c : Q) :
  (POSITIVE_THRESHOLD < c /\ classify_sentiment c = "Positive") \/
  (c < NEGATIVE_THRESHOLD /\ classify_sentiment c = "Negative") \/
  (NEGATIVE_THRESHOLD <= c <= POSITIVE_THRESHOLD /\ classify_sentiment c = "Neutral").
Proof.
  unfold classify_sentiment, POSITIVE_THRESHOLD, NEGATIVE_THRESHOLD.
  destruct (Qlt_le_dec 0.05 c) as [Hp|Hp]; [by left|].
  destruct (Qlt_le_dec c (-0.05)) as [Hn|Hn]; [right; by left|].
  right; right. auto.
Qed.

(** C2.  [classify_sentiment] depends on the compound score alone (equal
    scores get equal labels) and is decided by the two thresholds: Positive
    exactly above 0.05, Negative exactly below -0.05, Neutral exactly in
    between, the two boundaries included; and the nine listed scores get the
    listed labels. *)
Theorem classify_sentiment_thresholds :
  (forall c : Q,
      (classify_sentiment c = "Positive" <-> 0.05 < c) /\
      (classify_sentiment c = "Negative" <-> c < -0.05) /\
      (classify_sentiment c = "Neutral" <-> -0.05 <= c <= 0.05)) /\
  (forall c c' : Q, c == c' -> classify_sentiment c = classify_sentiment c') /\
  classify_sentiment <$> [-1; -0.06; -0.05; -0.04; 0; 0.04; 0.05; 0.06; 1] =
  ["Negative"; "Negative"; "Neutral"; "Neutral"; "Neutral"; "Neutral";
   "Neutral"; "Positive"; "Positive"].
Proof.
  assert (Hiff : forall c : Q,
      (classify_sentiment c = "Positive" <-> 0.05 < c) /\
      (classify_sentiment c = "Negative" <-> c < -0.05) /\
      (classify_sentiment c = "Neutral" <-> -0.05 <= c <= 0.05)).
  { intros c.
    destruct (classify_sentiment_cases c) as [[H ->]|[[H ->]|[H ->]]];
      unfold POSITIVE_THRESHOLD, NEGATIVE_THRESHOLD in H;
      repeat split; intros; try discriminate; try lra. }
  split; [exact Hiff|]. split; [|reflexivity].
  intros c c' Heq.
  destruct (classify_sentiment_cases c) as [[H ->]|[[H ->]|[H ->]]];
    unfold POSITIVE_THRESHOLD, NEGATIVE_THRESHOLD in H; symmetry;
    apply Hiff; lra.
Qed.

Section AnalysisFacts.

Variable polarity_scores : value -> result scores.

(** What [analyze] builds, field by field *)
Lemma analyze_fields comment analyzed :
  analyze polarity_scores comment = Ok analyzed ->
  exists s,
    polarity_scores (text_of comment) = Ok s /\
    analyzed !! "author_name" = Some (default (VStr "") (comment !! "author_name")) /\
    analyzed !! "comment_text" = Some (text_of comment) /\
    analyzed !! "likes" = Some (default (VInt 0) (comment !! "likes")) /\
    analyzed !! "reply_count" = Some (default (VInt 0) (comment !! "reply_count")) /\
    analyzed !! "compound_score" = Some (VFloat (round (compound s) 4)) /\
    analyzed !! "sentiment" = Some (VStr (classify_sentiment (compound s))).
Proof.
  unfold analyze, text_of. intros H.
  apply bind_Ok in H as (s & Hs & [= <-]).
  exists s. split; [exact Hs|]. repeat split; by simplify_map_eq.
Qed.

Lemma mapM_cons_Ok {A B} (f : A -> result B) x xs l :
  mapM f (x :: xs) = Ok l <->
  exists y ys, f x = Ok y /\ mapM f xs = Ok ys /\ l = y :: ys.
Proof.
  change (mapM f (x :: xs)) with (y ← f x; k ← mapM f xs; mret (y :: k)).
  split.
  - intros H. apply bind_Ok in H as (y & Hy & H).
    apply bind_Ok in H as (ys & Hys & [= <-]). eauto.
  - intros (y & ys & Hy & Hys & ->). rewrite Hy. simpl. by rewrite Hys.
Qed.

Lemma mapM_Ok_Forall2 {A B} (f : A -> result B) xs l :
  mapM f xs = Ok l <-> Forall2 (fun x y => f x = Ok y) xs l.
Proof.
  revert l. induction xs as [|x xs IH]; intros l.
  - split; [intros [= <-]; constructor|]. by inversion 1.
  - rewrite mapM_cons_Ok. split.
    + intros (y & ys & Hy & Hys & ->). constructor; [done|]. by apply IH.
    + inversion 1 as [|? y ? ys Hy Hys]; subst. exists y, ys.
      split; [done|]. split; [by apply IH|done].
Qed.

Lemma written_log ev self :
  written (trace (log ev self)) =
  written (trace self) ++
  match ev with Wrote f _ _ => [f] | _ => [] end.
Proof. unfold written, log. simpl. rewrite omap_app. by destruct ev. Qed.

Lemma analyze_from_Ok todo l :
  mapM (analyze polarity_scores) todo = Ok l ->
  forall i n self,
  exists self',
    analyze_from polarity_scores i n todo self = (Ok (), self') /\
    comments self' = comments self /\
    analyzed_comments self' = analyzed_comments self ++ l /\
    written (trace self') = written (trace self).
Proof.
  revert l. induction todo as [|comment rest IH]; intros l Hl i n self.
  - injection Hl as <-. exists self. by rewrite app_nil_r.
  - apply mapM_cons_Ok in Hl as (a & l' & Ha & Hl' & ->).
    cbn [analyze_from]. rewrite Ha.
    edestruct (IH l' Hl' (S i) n) as (self' & -> & Hc & Han & Hw).
    exists self'. split; [done|]. rewrite Hc, Han, Hw.
    change (trace (append_analyzed a ?s)) with (trace s).
    rewrite written_log, app_nil_r.
    destruct (i mod 500 =? 0)%nat; rewrite ?written_log, ?app_nil_r;
      simpl; by rewrite <- app_assoc.
Qed.

Lemma analyze_from_Ok_inv todo :
  forall i n self u self',
  analyze_from polarity_scores i n todo self = (Ok u, self') ->
  exists l, mapM (analyze polarity_scores) todo = Ok l.
Proof.
  induction todo as [|comment rest IH]; intros i n self u self' H.
  - by exists [].
  - cbn [analyze_from] in H.
    destruct (analyze polarity_scores comment) as [a|e] eqn:Ha;
      [|discriminate].
    apply IH in H as [l Hl]. exists (a :: l).
    apply mapM_cons_Ok. eauto.
Qed.

Lemma analyze_comments_Ok self l :
  mapM (analyze polarity_scores) (comments self) = Ok l ->
  exists self',
    analyze_comments polarity_scores self = (Ok (), self') /\
    comments self' = comments self /\
    analyzed_comments self' = analyzed_comments self ++ l /\
    written (trace self') = written (trace self).
Proof.
  intros Hl. unfold analyze_comments. cbv zeta.
  destruct (analyze_from_Ok (comments (log LogAnalyzing self)) l Hl 1%nat
              (length (comments (log LogAnalyzing self)))
              (log LogAnalyzing self)) as (self' & -> & Hc & Han & Hw).
  eexists. split; [reflexivity|].
  rewrite written_log, Hw, written_log, !app_nil_r. simpl. auto.
Qed.

Lemma analyze_comments_Ok_inv self u self' :
  analyze_comments polarity_scores self = (Ok u, self') ->
  exists l,
    mapM (analyze polarity_scores) (comments self) = Ok l /\
    analyzed_comments self' = analyzed_comments self ++ l.
Proof.
  unfold analyze_comments. cbv zeta. intros H.
  destruct (analyze_from _ _ _ _ _) as [[u'|e] self''] eqn:Hfrom;
    [|discriminate].
  destruct (analyze_from_Ok_inv _ _ _ _ _ _ Hfrom) as [l Hl]. exists l.
  split; [done|].
  destruct (analyze_from_Ok _ _ Hl 1%nat
              (length (comments (log LogAnalyzing self)))
              (log LogAnalyzing self)) as (self1 & H1 & _ & Han & _).
  rewrite Hfrom in H1. destruct u'. injection H1 as ->.
  destruct u. injection H as <-. exact Han.
Qed.

(** C10.  When the scorer returns on the text of every loaded comment,
    [analyze_comments] returns and appends one analyzed record per
    comment, in the order of the comments; the record of a comment
    carries its author_name, comment_text, likes and reply_count
    unchanged (and the default of [.get] for a field the comment lacks). *)
Theorem analyze_comments_frame (self : analyzer) :
  Forall (fun c => exists s, polarity_scores (text_of c) = Ok s) (comments self) ->
  exists self' l,
    analyze_comments polarity_scores self = (Ok (), self') /\
    comments self' = comments self /\
    analyzed_comments self' = analyzed_comments self ++ l /\
    length l = length (comments self) /\
    forall i c, comments self !! i = Some c ->
      exists a, l !! i = Some a /\
        (forall k v, k ∈ ["author_name"; "comment_text"; "likes"; "reply_count"] ->
                     c !! k = Some v -> a !! k = Some v) /\
        a !! "author_name" = Some (default (VStr "") (c !! "author_name")) /\
        a !! "comment_text" = Some (default (VStr "") (c !! "comment_text")) /\
        a !! "likes" = Some (default (VInt 0) (c !! "likes")) /\
        a !! "reply_count" = Some (default (VInt 0) (c !! "reply_count")).
Proof.
  intros Hscore.
  assert (exists l, mapM (analyze polarity_scores) (comments self) = Ok l)
    as [l Hl].
  { induction Hscore as [|c cs [s Hs] _ [l IH]]; [by exists []|].
    eexists. apply mapM_cons_Ok. do 2 eexists. split; [|split; [exact IH|done]].
    unfold analyze. fold (text_of c). rewrite Hs. reflexivity. }
  destruct (analyze_comments_Ok self l Hl) as (self' & Hrun & Hc & Han & _).
  exists self', l. repeat split; try done.
  - apply mapM_Ok_Forall2 in Hl. symmetry. by eapply Forall2_length.
  - intros i c Hi. apply mapM_Ok_Forall2 in Hl.
    destruct (Forall2_lookup_l _ _ _ _ _ Hl Hi) as (a & Ha & Hca).
    exists a. split; [done|].
    apply analyze_fields in Hca as (s & _ & Hauthor & Htext & Hlikes & Hreplies & _).
    unfold text_of in Htext.
    split; [|done].
    intros k v Hk Hv. rewrite !elem_of_cons in Hk.
    destruct Hk as [->|[->|[->|[->|Hk]]]];
      [rewrite Hauthor|rewrite Htext|rewrite Hlikes|rewrite Hreplies|
       by apply elem_of_nil in Hk]; by rewrite Hv.
Qed.

End AnalysisFacts.

(** ** Rounding *)

Lemma round_half_even_cases (x : Q) :
  let f := Qfloor x in
  inject_Z f <= x /\ x < inject_Z f + 1 /\
  ((x - inject_Z f < 1 # 2 /\ round_half_even x = f) \/
   (1 # 2 < x - inject_Z f /\ round_half_even x = (f + 1)%Z) \/
   (x - inject_Z f == 1 # 2 /\
    round_half_even x = if Z.even f then f else (f + 1)%Z)).
Proof.
  intros f. pose proof (Qfloor_le x) as Hle. pose proof (Qlt_floor x) as Hlt.
  fold f in Hle, Hlt. rewrite inject_Z_plus in Hlt.
  change (inject_Z 1) with 1 in Hlt.
  split; [exact Hle|]. split; [exact Hlt|].
  unfold round_half_even. fold f.
  destruct (Qcompare_spec (x - inject_Z f) (1 # 2)) as [H|H|H]; auto.
Qed.

(** The nearest integer is within a half *)
Lemma round_half_even_near (x : Q) :
  Qabs (inject_Z (round_half_even x) - x) <= 1 # 2.
Proof.
  destruct (round_half_even_cases x) as (Hle & Hlt & [[H ->]|[[H ->]|[H ->]]]);
    try destruct (Z.even _); rewrite ?inject_Z_plus;
    change (inject_Z 1) with 1; apply Qabs_case; intros; lra.
Qed.

Lemma Z_lt_Q (a b : Z) : (a < b)%Z <-> inject_Z a < inject_Z b.
Proof. by rewrite Zlt_Qlt. Qed.

Lemma Z_le_Q (a b : Z) : (a <= b)%Z <-> inject_Z a <= inject_Z b.
Proof. by rewrite Zle_Qle. Qed.

Lemma inject_Z_lt_succ (a b : Z) : inject_Z a < inject_Z b + 1 -> inject_Z a <= inject_Z b.
Proof.
  intros H. rewrite <- Zle_Qle. change 1 with (inject_Z 1) in H.
  rewrite <- (inject_Z_plus b 1), <- Zlt_Qlt in H. lia.
Qed.

Lemma inject_Z_succ_le (a b : Z) : inject_Z a < inject_Z b -> inject_Z a + 1 <= inject_Z b.
Proof.
  intros H. change 1 with (inject_Z 1).
  rewrite <- (inject_Z_plus a 1), <- Zle_Qle. rewrite <- Zlt_Qlt in H. lia.
Qed.

(** Above an even integer [k]: the tie [k + 1/2] goes down to [k]. *)
Lemma round_half_even_above (k : Z) (x : Q) :
  Z.even k = true ->
  (k < round_half_even x)%Z <-> inject_Z k + (1 # 2) < x.
Proof.
  intros Hk.
  destruct (round_half_even_cases x) as (Hle & Hlt & Hcases).
  set (f := Qfloor x) in *.
  split.
  - intros Hlt'.
    destruct Hcases as [[H Hr]|[[H Hr]|[H Hr]]]; rewrite Hr in Hlt'.
    + apply Z_lt_Q, inject_Z_succ_le in Hlt'. lra.
    + assert (k <= f)%Z as Hkf%Z_le_Q by lia. lra.
    + assert (k < f)%Z as Hkf%Z_lt_Q%inject_Z_succ_le; [|lra].
      destruct (Z.even f) eqn:Hf; [done|].
      assert (k <> f) by (intros ->; congruence). lia.
  - intros Hx.
    assert (inject_Z k < inject_Z f + 1) as Hkf%inject_Z_lt_succ by lra.
    apply Z_le_Q in Hkf.
    destruct Hcases as [[H Hr]|[[H Hr]|[H Hr]]]; rewrite Hr.
    + assert (inject_Z k < inject_Z f) as ?%Z_lt_Q by lra. done.
    + lia.
    + assert (inject_Z k < inject_Z f) as ?%Z_lt_Q by lra.
      destruct (Z.even f); lia.
Qed.

(** Below an even integer [k]: the tie [k - 1/2] goes up to [k]. *)
Lemma round_half_even_below (k : Z) (x : Q) :
  Z.even k = true ->
  (round_half_even x < k)%Z <-> x < inject_Z k - (1 # 2).
Proof.
  intros Hk.
  destruct (round_half_even_cases x) as (Hle & Hlt & Hcases).
  set (f := Qfloor x) in *.
  split.
  - intros Hlt'.
    destruct Hcases as [[H Hr]|[[H Hr]|[H Hr]]]; rewrite Hr in Hlt'.
    + apply Z_lt_Q, inject_Z_succ_le in Hlt'. lra.
    + assert (f + 1 < k)%Z as Hkf%Z_lt_Q%inject_Z_succ_le by lia.
      rewrite inject_Z_plus in Hkf. change (inject_Z 1) with 1 in Hkf. lra.
    + assert (f + 1 < k)%Z as Hkf%Z_lt_Q.
      { destruct (Z.even f) eqn:Hf; [|done].
        assert (f + 1 <> k)%Z; [|lia].
        intros <-. rewrite Z.even_add in Hk. rewrite Hf in Hk. done. }
      rewrite inject_Z_plus in Hkf. change (inject_Z 1) with 1 in Hkf. lra.
  - intros Hx.
    assert (inject_Z f < inject_Z k) as Hfk by lra.
    destruct Hcases as [[H Hr]|[[H Hr]|[H Hr]]]; rewrite Hr.
    + by apply Z_lt_Q.
    + apply inject_Z_succ_le in Hfk.
      assert (inject_Z (f + 1) < inject_Z k) as ?%Z_lt_Q; [|done].
      rewrite inject_Z_plus. change (inject_Z 1) with 1. lra.
    + apply inject_Z_succ_le in Hfk.
      assert (inject_Z (f + 1) < inject_Z k) as ?%Z_lt_Q.
      { rewrite inject_Z_plus. change (inject_Z 1) with 1. lra. }
      destruct (Z.even f); lia.
Qed.

Lemma round4_unfold (q : Q) :
  round q 4 == inject_Z (round_half_even (q * 10000)) * (1 # 10000).
Proof. reflexivity. Qed.

(** The score stored with 4 decimals is above 0.05 exactly when the score
    is above 0.05005, and below -0.05 exactly when it is below -0.05005. *)
Lemma round4_above_threshold (q : Q) :
  POSITIVE_THRESHOLD < round q 4 <-> 0.05005 < q.
Proof.
  unfold POSITIVE_THRESHOLD. rewrite round4_unfold.
  pose proof (round_half_even_above 500 (q * 10000) eq_refl) as H.
  rewrite Z_lt_Q in H. change (inject_Z 500) with 500 in H.
  split; intros Hq.
  - assert (500 < inject_Z (round_half_even (q * 10000))) as Hr%H by lra. lra.
  - assert (500 + (1 # 2) < q * 10000) as Hr%H by lra. lra.
Qed.

Lemma round4_below_threshold (q : Q) :
  round q 4 < NEGATIVE_THRESHOLD <-> q < -0.05005.
Proof.
  unfold NEGATIVE_THRESHOLD. rewrite round4_unfold.
  pose proof (round_half_even_below (-500) (q * 10000) eq_refl) as H.
  rewrite Z_lt_Q in H. change (inject_Z (-500)) with (-500) in H.
  split; intros Hq.
  - assert (inject_Z (round_half_even (q * 10000)) < -500) as Hr%H by lra. lra.
  - assert (q * 10000 < -500 - (1 # 2)) as Hr%H by lra. lra.
Qed.

(** The label of the stored score is the label of the score, unless the
    score lies within 0.00005 outside a threshold. *)
Lemma classify_sentiment_round4 (q : Q) :
  classify_sentiment (round q 4) = classify_sentiment q <->
  ~ (0.05 < q <= 0.05005) /\ ~ (-0.05005 <= q < -0.05).
Proof.
  pose proof (round4_above_threshold q) as Ha.
  pose proof (round4_below_threshold q) as Hb.
  destruct (classify_sentiment_cases q) as [[H ->]|[[H ->]|[H ->]]];
    destruct (classify_sentiment_cases (round q 4)) as [[H' ->]|[[H' ->]|[H' ->]]];
    unfold POSITIVE_THRESHOLD, NEGATIVE_THRESHOLD in *;
    (split; [intros ?; try discriminate|intros [? ?]; try reflexivity; exfalso]).
  all: try (split; lra).
  all: try (apply Ha in H'; lra).
  all: try (apply Hb in H'; lra).
  all: try (destruct (Qlt_le_dec 0.05005 q) as [Hq%Ha|Hq]; lra).
  all: try (destruct (Qlt_le_dec q (-0.05005)) as [Hq%Hb|Hq]; lra).
Qed.

(** A score that already has 4 decimals, such as the compound score NLTK's
    VADER reports, is never that close to a threshold: its label is the
    label of the stored score. *)
Lemma classify_sentiment_four_decimals (k : Z) :
  classify_sentiment (round (inject_Z k / 10000) 4)
  = classify_sentiment (inject_Z k / 10000).
Proof.
  apply classify_sentiment_round4.
  assert (inject_Z k / 10000 == inject_Z k * (1 # 10000)) as -> by reflexivity.
  split; intros [H1 H2].
  - assert (500 < inject_Z k) as Hk by lra.
    change 500 with (inject_Z 500) in Hk. apply inject_Z_succ_le in Hk.
    change (inject_Z 500) with 500 in Hk. lra.
  - assert (inject_Z k < -500) as Hk by lra.
    change (-500) with (inject_Z (-500)) in Hk. apply inject_Z_succ_le in Hk.
    change (inject_Z (-500)) with (-500) in Hk. lra.
Qed.

Lemma classify_sentiment_Qeq (x y : Q) :
  x == y -> classify_sentiment x = classify_sentiment y.
Proof.
  intros Hxy.
  destruct (classify_sentiment_cases x) as [[H ->]|[[H ->]|[H ->]]];
    destruct (classify_sentiment_cases y) as [[H' ->]|[[H' ->]|[H' ->]]];
    unfold POSITIVE_THRESHOLD, NEGATIVE_THRESHOLD in *;
    try reflexivity; exfalso; lra.
Qed.

(** The labels tell the three cases apart *)
Lemma classify_sentiment_label (x : Q) :
  (classify_sentiment x = "Positive" <-> 0.05 < x) /\
  (classify_sentiment x = "Negative" <-> x < -0.05) /\
  (classify_sentiment x = "Neutral" <-> -0.05 <= x <= 0.05).
Proof.
  destruct (classify_sentiment_cases x) as [[H ->]|[[H ->]|[H ->]]];
    unfold POSITIVE_THRESHOLD, NEGATIVE_THRESHOLD in *;
    repeat split; try done; try lra; intros ?; exfalso; lra.
Qed.

(** A score of at most four decimals is stored as it is, and the stored
    score has its label. *)
Lemma round4_of_four_decimals (q : Q) (k : Z) :
  q == inject_Z k / 10000 ->
  round q 4 == q /\ classify_sentiment (round q 4) = classify_sentiment q.
Proof.
  intros Hq.
  assert (Hk : q * 10000 == inject_Z k) by (rewrite Hq; field).
  split.
  - rewrite round4_unfold.
    pose proof (round_half_even_near (q * 10000)) as Hnear.
    apply Qabs_Qle_condition in Hnear.
    assert (round_half_even (q * 10000) = k) as ->.
    { apply Z.le_antisymm.
      - apply Z_le_Q, inject_Z_lt_succ. lra.
      - apply Z_le_Q, inject_Z_lt_succ. lra. }
    lra.
  - apply classify_sentiment_round4.
    split; intros [H1 H2].
    + assert (500 < inject_Z k) as Hlt by lra.
      change 500 with (inject_Z 500) in Hlt. apply inject_Z_succ_le in Hlt.
      change (inject_Z 500) with 500 in Hlt. lra.
    + assert (inject_Z k < -500) as Hlt by lra.
      change (-500) with (inject_Z (-500)) in Hlt. apply inject_Z_succ_le in Hlt.
      change (inject_Z (-500)) with (-500) in Hlt. lra.
Qed.

Section LabelFacts.

Variable polarity_scores : value -> result scores.

(** C4.  With a scorer that reports the compound score to four decimals,
    as the scorer of the code (NLTK's VADER) does, every analyzed record
    carries the label of the compound_score stored in it: Positive exactly
    when the stored score is above 0.05, Negative exactly when it is below
    -0.05, Neutral exactly in between.  No other field has a say: two
    records with equal stored scores carry the same label, whatever the
    comments they were built from. *)
Theorem analyzed_sentiment_of_compound (self self' : analyzer) :
  (forall text s, polarity_scores text = Ok s ->
     exists k : Z, compound s == inject_Z k / 10000) ->
  analyze_comments polarity_scores self = (Ok (), self') ->
  (exists l,
      analyzed_comments self' = analyzed_comments self ++ l /\
      length l = length (comments self) /\
      Forall (fun a => exists x,
          a !! "compound_score" = Some (VFloat x) /\
          a !! "sentiment" = Some (VStr (classify_sentiment x)) /\
          (a !! "sentiment" = Some (VStr "Positive") <-> 0.05 < x) /\
          (a !! "sentiment" = Some (VStr "Negative") <-> x < -0.05) /\
          (a !! "sentiment" = Some (VStr "Neutral") <-> -0.05 <= x <= 0.05)) l) /\
  (forall c c' a a' x x',
      analyze polarity_scores c = Ok a ->
      analyze polarity_scores c' = Ok a' ->
      a !! "compound_score" = Some (VFloat x) ->
      a' !! "compound_score" = Some (VFloat x') ->
      x == x' ->
      a !! "sentiment" = a' !! "sentiment").
Proof.
  intros Hfour Hrun.
  assert (Hstored : forall c a, analyze polarity_scores c = Ok a ->
    exists x, a !! "compound_score" = Some (VFloat x) /\
              a !! "sentiment" = Some (VStr (classify_sentiment x))).
  { intros c a Hca.
    apply analyze_fields in Hca as (s & Hs & _ & _ & _ & _ & Hcompound & Hlabel).
    destruct (Hfour _ _ Hs) as [k Hk].
    exists (round (compound s) 4). split; [done|].
    by rewrite (proj2 (round4_of_four_decimals _ _ Hk)). }
  split.
  - apply analyze_comments_Ok_inv in Hrun as (l & Hl & Han).
    exists l. split; [exact Han|].
    apply mapM_Ok_Forall2 in Hl.
    split; [symmetry; by eapply Forall2_length|].
    clear Han. induction Hl as [|c a cs l Hca _ IH]; [constructor|].
    constructor; [|exact IH].
    destruct (Hstored c a Hca) as (x & Hx & Hlabel).
    exists x. split; [done|]. split; [done|]. rewrite Hlabel.
    destruct (classify_sentiment_label x) as (Hp & Hn & Hz).
    split; [|split]; (etrans; [|eassumption]); split;
      first [by intros [= ->] | by intros ->].
  - intros c c' a a' x x' Ha Ha' Hx Hx' Heq.
    destruct (Hstored c a Ha) as (y & Hy & ->).
    destruct (Hstored c' a' Ha') as (y' & Hy' & ->).
    rewrite Hx in Hy. rewrite Hx' in Hy'.
    injection Hy as <-. injection Hy' as <-.
    by rewrite (classify_sentiment_Qeq x x' Heq).
Qed.

End LabelFacts.

(** The scorer of the examples reports four decimals *)
Lemma lexicon_scorer_four_decimals text s :
  lexicon_scorer text = Ok s -> exists k : Z, compound s == inject_Z k / 10000.
Proof.
  unfold lexicon_scorer. destruct text as [| | | |str| |]; try discriminate.
  destruct (String.eqb str "I love this!");
    [intros [= <-]; by exists 6696%Z|].
  destruct (String.eqb str "This is terrible.");
    [intros [= <-]; by exists (-4767)%Z|].
  intros [= <-]. by exists 0%Z.
Qed.

Lemma analyzed_sentiment_of_compound_witness :
  exists self',
    analyze_comments lexicon_scorer (loaded [row_ana; row_ben]) = (Ok (), self') /\
    exists l,
      analyzed_comments self' = [] ++ l /\
      length l = 2%nat /\
      Forall (fun a => exists x,
          a !! "compound_score" = Some (VFloat x) /\
          a !! "sentiment" = Some (VStr (classify_sentiment x)) /\
          (a !! "sentiment" = Some (VStr "Positive") <-> 0.05 < x) /\
          (a !! "sentiment" = Some (VStr "Negative") <-> x < -0.05) /\
          (a !! "sentiment" = Some (VStr "Neutral") <-> -0.05 <= x <= 0.05)) l.
Proof.
  eexists. split; [vm_compute; reflexivity|].
  eapply (analyzed_sentiment_of_compound lexicon_scorer (loaded [row_ana; row_ben])).
  - exact lexicon_scorer_four_decimals.
  - vm_compute. reflexivity.
Defined.

Section SummaryFacts.

Variable int_of_str : string -> option Z.

Lemma count_label_cons s a cs :
  count_label s (a :: cs) =
  ((if decide (label_of a = Some s) then 1 else 0) + count_label s cs)%nat.
Proof.
  unfold count_label. rewrite filter_cons.
  by destruct (decide (label_of a = Some s)).
Qed.

Lemma tally_comment_scored t a :
  keyed t -> scored int_of_str a ->
  exists t',
    tally_comment int_of_str t a = Ok t' /\ keyed t' /\
    forall s, s ∈ sentiments ->
      sentiment_counts t' !! s =
      (fun n => (n + Z.of_nat (count_label s [a]))%Z) <$> sentiment_counts t !! s.
Proof.
  intros Hkeys ([s0 [Hs0 Hlabel]] & [n Hn] & [m Hm] & _).
  destruct (Hkeys s0 Hs0) as ([c Hc] & [l Hl] & [r Hr]).
  unfold tally_comment, item. rewrite Hlabel. simpl.
  rewrite Hc, Hl, Hr. simpl. unfold item in Hn, Hm. rewrite Hn, Hm. simpl.
  eexists. split; [reflexivity|]. split.
  - intros s Hs. destruct (Hkeys s Hs) as (Hc' & Hl' & Hr'). simpl.
    destruct (decide (s0 = s)) as [->|Hne].
    + rewrite !lookup_insert_eq. eauto.
    + by rewrite !lookup_insert_ne.
  - intros s Hs. simpl. rewrite count_label_cons.
    assert (Hlab : label_of a = Some s0) by (unfold label_of; by rewrite Hlabel).
    change (count_label s []) with 0%nat.
    destruct (decide (s0 = s)) as [->|Hne].
    + rewrite lookup_insert_eq, Hc. simpl. by rewrite decide_True.
    + rewrite lookup_insert_ne by done.
      rewrite decide_False by congruence.
      destruct (Hkeys s Hs) as ([c' ->] & _). simpl. do 2 f_equal. lia.
Qed.

Lemma tally_comments_scored cs :
  forall t, keyed t -> Forall (scored int_of_str) cs ->
  exists t',
    tally_comments int_of_str t cs = Ok t' /\ keyed t' /\
    forall s, s ∈ sentiments ->
      sentiment_counts t' !! s =
      (fun n => (n + Z.of_nat (count_label s cs))%Z) <$> sentiment_counts t !! s.
Proof.
  induction cs as [|a cs IH]; intros t Hkeys Hscored.
  - exists t. split; [done|]. split; [done|]. intros s Hs.
    destruct (Hkeys s Hs) as ([c ->] & _). simpl. do 2 f_equal. unfold count_label. simpl. lia.
  - apply Forall_cons in Hscored as [Ha Hcs].
    destruct (tally_comment_scored t a Hkeys Ha) as (t1 & Ht1 & Hkeys1 & Hcount1).
    destruct (IH t1 Hkeys1 Hcs) as (t' & Ht' & Hkeys' & Hcount').
    exists t'. simpl. rewrite Ht1. simpl. split; [done|]. split; [done|].
    intros s Hs. rewrite (Hcount' s Hs), (Hcount1 s Hs).
    destruct (Hkeys s Hs) as ([c ->] & _). simpl. f_equal.
    rewrite (count_label_cons s a cs), (count_label_cons s a []).
    change (count_label s []) with 0%nat. lia.
Qed.

(** Every scored comment carries exactly one of the three labels *)
Lemma count_label_partition cs :
  Forall (scored int_of_str) cs ->
  (count_label "Positive" cs + count_label "Negative" cs
   + count_label "Neutral" cs = length cs)%nat.
Proof.
  induction 1 as [|a cs ([s [Hs Hl]] & _) _ IH]; [reflexivity|].
  rewrite !count_label_cons.
  assert (label_of a = Some s) as -> by (unfold label_of; by rewrite Hl).
  unfold sentiments in Hs. rewrite !elem_of_cons in Hs.
  destruct Hs as [->|[->|[->|Hs]]]; [| | |by apply elem_of_nil in Hs];
    repeat (first [rewrite decide_True by done | rewrite decide_False by done]);
    simpl; lia.
Qed.

End SummaryFacts.

Section SummaryRun.

Variable int_of_str : string -> option Z.

Lemma keyed_zeros :
  keyed {| sentiment_counts := zeros; sentiment_likes := zeros;
           sentiment_replies := zeros |}.
Proof.
  intros s Hs. unfold sentiments in Hs. rewrite !elem_of_cons in Hs. simpl.
  destruct Hs as [->|[->|[->|Hs]]]; [| | |by apply elem_of_nil in Hs];
    repeat split; by eexists.
Qed.

Lemma zeros_lookup s : s ∈ sentiments -> zeros !! s = Some 0%Z.
Proof.
  unfold sentiments. rewrite !elem_of_cons.
  intros [->|[->|[->|Hs]]]; [| | |by apply elem_of_nil in Hs]; reflexivity.
Qed.

Lemma sum_int_scored k cs :
  Forall (fun a => exists n, item a k ≫= int int_of_str = Ok n) cs ->
  forall acc, exists n, sum_int int_of_str k acc cs = Ok n.
Proof.
  induction 1 as [|a cs [n Hn] _ IH]; intros acc; simpl; [by eexists|].
  rewrite Hn. simpl. apply IH.
Qed.

Lemma sum_number_scored k cs :
  Forall (fun a => exists q, item a k ≫= number = Ok q) cs ->
  forall acc, exists q, sum_number k acc cs = Ok q.
Proof.
  induction 1 as [|a cs [q Hq] _ IH]; intros acc; simpl; [by eexists|].
  rewrite Hq. simpl. apply IH.
Qed.

Lemma truediv_nonzero x y : ~ y == 0 -> truediv x y = Ok (x / y).
Proof.
  intros Hy. unfold truediv.
  destruct (Qeq_bool y 0) eqn:H; [|done]. by apply Qeq_bool_eq in H.
Qed.

Lemma inject_nat_nonzero n : (0 < n)%nat -> ~ inject_Z (Z.of_nat n) == 0.
Proof.
  intros Hn H. unfold Qeq in H. simpl in H. lia.
Qed.

Lemma inject_pos_nonzero z : (0 < z)%Z -> ~ inject_Z z == 0.
Proof.
  intros Hn H. unfold Qeq in H. simpl in H. lia.
Qed.

(** The header values, for a non-empty scored list *)
Lemma totals_scored cs :
  cs <> [] -> Forall (scored int_of_str) cs ->
  exists t total_likes total_replies avg_compound,
    totals int_of_str cs =
      Ok (t, LogTotals (length cs) total_likes total_replies avg_compound) /\
    keyed t /\
    forall s, s ∈ sentiments ->
      sentiment_counts t !! s = Some (Z.of_nat (count_label s cs)).
Proof.
  intros Hne Hscored. unfold totals.
  destruct (tally_comments_scored int_of_str cs _ keyed_zeros Hscored)
    as (t & -> & Hkeys & Hcounts).
  destruct (sum_int_scored "likes" cs) with (acc := 0%Z) as [tl ->].
  { eapply Forall_impl; [exact Hscored|]. by intros a (_ & ? & _). }
  destruct (sum_int_scored "reply_count" cs) with (acc := 0%Z) as [tr ->].
  { eapply Forall_impl; [exact Hscored|]. by intros a (_ & _ & ? & _). }
  destruct (sum_number_scored "compound_score" cs) with (acc := 0) as [sc ->].
  { eapply Forall_impl; [exact Hscored|]. by intros a (_ & _ & _ & ?). }
  simpl. rewrite truediv_nonzero.
  2:{ apply inject_nat_nonzero. destruct cs; [done|simpl; lia]. }
  simpl. exists t, tl, tr. eexists. split; [reflexivity|]. split; [done|].
  intros s Hs. rewrite (Hcounts s Hs). simpl. by rewrite zeros_lookup.
Qed.

(** One line of the table, for a tally with the three keys *)
Lemma distribution_keyed t n s c :
  keyed t -> s ∈ sentiments -> (0 < n)%nat ->
  sentiment_counts t !! s = Some c ->
  exists avg_likes avg_replies,
    distribution t n s =
    Ok (LogDistribution s c (inject_Z c / inject_Z (Z.of_nat n) * 100)
                        avg_likes avg_replies).
Proof.
  intros Hkeys Hs Hn Hc. destruct (Hkeys s Hs) as (_ & [l Hl] & [r Hr]).
  unfold distribution. simpl. rewrite Hc, Hl, Hr. simpl.
  assert ((0 <? n)%nat = true) as -> by (apply Nat.ltb_lt; lia).
  rewrite (truediv_nonzero (inject_Z c) (inject_Z (Z.of_nat n)))
    by (by apply inject_nat_nonzero). simpl.
  destruct (0 <? c)%Z eqn:Hpos; simpl.
  - apply Z.ltb_lt in Hpos.
    rewrite !truediv_nonzero by (by apply inject_pos_nonzero). simpl.
    by do 2 eexists.
  - by do 2 eexists.
Qed.

End SummaryRun.

Lemma round2_near (p : Q) : Qabs (round p 2 - p) <= 1 # 200.
Proof.
  assert (round p 2 == inject_Z (round_half_even (p * 100)) * (1 # 100)) as ->
    by reflexivity.
  pose proof (round_half_even_near (p * 100)) as H.
  apply Qabs_Qle_condition in H. apply Qabs_Qle_condition. lra.
Qed.

Lemma percentage_of_nonneg s cs : 0 <= percentage_of s cs.
Proof.
  unfold percentage_of. apply Qmult_le_0_compat; [|lra].
  apply Qmult_le_0_compat.
  - change 0 with (inject_Z 0). rewrite <- Zle_Qle. lia.
  - apply Qinv_le_0_compat. change 0 with (inject_Z 0). rewrite <- Zle_Qle. lia.
Qed.

Lemma Positive_label : "Positive" ∈ sentiments.
Proof. unfold sentiments. rewrite !elem_of_cons. auto. Qed.

Lemma Negative_label : "Negative" ∈ sentiments.
Proof. unfold sentiments. rewrite !elem_of_cons. auto. Qed.

Lemma Neutral_label : "Neutral" ∈ sentiments.
Proof. unfold sentiments. rewrite !elem_of_cons. auto. Qed.

(** What the analysis builds is a scored comment as soon as [int()] accepts
    the likes and the reply count of the loaded row. *)
Lemma analyze_scored polarity_scores int_of_str comment analyzed :
  analyze polarity_scores comment = Ok analyzed ->
  (exists n, int int_of_str (default (VInt 0) (comment !! "likes")) = Ok n) ->
  (exists n, int int_of_str (default (VInt 0) (comment !! "reply_count")) = Ok n) ->
  scored int_of_str analyzed.
Proof.
  intros Ha Hlikes Hreplies.
  apply analyze_fields in Ha
    as (s & _ & _ & _ & Hl & Hr & Hcompound & Hlabel).
  unfold scored, item. rewrite Hl, Hr, Hcompound, Hlabel. simpl.
  split; [|by eauto].
  eexists. split; [|reflexivity].
  destruct (classify_sentiment_cases (compound s)) as [[_ ->]|[[_ ->]|[_ ->]]];
    [apply Positive_label|apply Negative_label|apply Neutral_label].
Qed.

Section SummaryPartition.

Variable int_of_str : string -> option Z.

Lemma percentage_of_total cs :
  cs <> [] -> Forall (scored int_of_str) cs ->
  percentage_of "Positive" cs + percentage_of "Negative" cs
  + percentage_of "Neutral" cs == 100.
Proof.
  intros Hne Hscored. unfold percentage_of.
  pose proof (count_label_partition int_of_str cs Hscored) as Hsum.
  rewrite <- Hsum at 1 2 3. rewrite !Nat2Z.inj_add, !inject_Z_plus.
  assert (~ inject_Z (Z.of_nat (count_label "Positive" cs))
            + inject_Z (Z.of_nat (count_label "Negative" cs))
            + inject_Z (Z.of_nat (count_label "Neutral" cs)) == 0).
  { rewrite <- !inject_Z_plus, <- !Nat2Z.inj_add, Hsum.
    apply inject_nat_nonzero. destruct cs; [done|simpl; lia]. }
  field. done.
Qed.

Lemma print_summary_nonempty (self : analyzer) :
  analyzed_comments self <> [] ->
  print_summary int_of_str self =
  match totals int_of_str (analyzed_comments self) with
  | Raise e => (Raise e, self)
  | Ok (t, header) =>
      distributions t (length (analyzed_comments self)) sentiments
                    (log header self)
  end.
Proof. unfold print_summary. by destruct (analyzed_comments self). Qed.

(** C5.  On a non-empty list of scored comments [print_summary] returns,
    having logged the totals and then one line per label.  The three
    counts are the numbers of comments with each label and add up to the
    number of comments.  The three percentages, each the count over the
    total times 100, add up to 100; so do, within 0.1, the percentages as
    printed with two decimals, and any three values within a thousandth
    of the three percentages. *)
Theorem print_summary_partition (self : analyzer) :
  analyzed_comments self <> [] ->
  Forall (scored int_of_str) (analyzed_comments self) ->
  let cs := analyzed_comments self in
  let count s := Z.of_nat (count_label s cs) in
  let percentage s := percentage_of s cs in
  (exists total_likes total_replies avg_compound l1 r1 l2 r2 l3 r3,
      print_summary int_of_str self =
      (Ok (),
       {| comments := comments self;
          analyzed_comments := cs;
          trace := trace self ++
            [LogTotals (length cs) total_likes total_replies avg_compound;
             LogDistribution "Positive" (count "Positive") (percentage "Positive") l1 r1;
             LogDistribution "Negative" (count "Negative") (percentage "Negative") l2 r2;
             LogDistribution "Neutral" (count "Neutral") (percentage "Neutral") l3 r3]
       |})) /\
  (count "Positive" + count "Negative" + count "Neutral")%Z
    = Z.of_nat (length cs) /\
  percentage "Positive" + percentage "Negative" + percentage "Neutral" == 100 /\
  Qabs (round (percentage "Positive") 2 + round (percentage "Negative") 2
        + round (percentage "Neutral") 2 - 100) <= 0.1 /\
  (forall q1 q2 q3,
      Qabs (q1 - percentage "Positive") <= 0.001 * percentage "Positive" ->
      Qabs (q2 - percentage "Negative") <= 0.001 * percentage "Negative" ->
      Qabs (q3 - percentage "Neutral") <= 0.001 * percentage "Neutral" ->
      Qabs (q1 + q2 + q3 - 100) <= 0.1).
Proof.
  intros Hne Hscored cs count percentage.
  pose proof (percentage_of_total cs Hne Hscored) as Hsum.
  fold (percentage "Positive") (percentage "Negative") (percentage "Neutral") in Hsum.
  split; [|split; [|split; [exact Hsum|split]]].
  - destruct (totals_scored int_of_str cs Hne Hscored)
      as (t & tl & tr & avg & Htotals & Hkeys & Hcounts).
    assert (Hlen : (0 < length cs)%nat) by (destruct cs; [done|simpl; lia]).
    destruct (distribution_keyed t (length cs) "Positive" _ Hkeys
                Positive_label Hlen (Hcounts _ Positive_label))
      as (l1 & r1 & H1).
    destruct (distribution_keyed t (length cs) "Negative" _ Hkeys
                Negative_label Hlen (Hcounts _ Negative_label))
      as (l2 & r2 & H2).
    destruct (distribution_keyed t (length cs) "Neutral" _ Hkeys
                Neutral_label Hlen (Hcounts _ Neutral_label))
      as (l3 & r3 & H3).
    exists tl, tr, avg, l1, r1, l2, r2, l3, r3.
    rewrite (print_summary_nonempty self Hne). fold cs. rewrite Htotals.
    unfold sentiments, distributions. rewrite H1, H2, H3.
    unfold log. simpl. by rewrite <- !app_assoc.
  - unfold count. pose proof (count_label_partition int_of_str cs Hscored). lia.
  - pose proof (round2_near (percentage "Positive")) as H1%Qabs_Qle_condition.
    pose proof (round2_near (percentage "Negative")) as H2%Qabs_Qle_condition.
    pose proof (round2_near (percentage "Neutral")) as H3%Qabs_Qle_condition.
    apply Qabs_Qle_condition. lra.
  - intros q1 q2 q3 H1%Qabs_Qle_condition H2%Qabs_Qle_condition
      H3%Qabs_Qle_condition.
    apply Qabs_Qle_condition. lra.
Qed.

End SummaryPartition.

Lemma analyzed_pair_scored :
  Forall (scored decimal) (analyzed_comments analyzed_pair).
Proof.
  repeat constructor.
  - exists "Positive". split; [apply Positive_label|reflexivity].
  - by eexists.
  - by eexists.
  - by eexists.
  - exists "Negative". split; [apply Negative_label|reflexivity].
  - by eexists.
  - by eexists.
  - by eexists.
Defined.

Lemma print_summary_partition_witness :
  (exists total_likes total_replies avg_compound l1 r1 l2 r2 l3 r3,
      print_summary decimal analyzed_pair =
      (Ok (),
       {| comments := [row_ana; row_ben];
          analyzed_comments := [analyzed_ana; analyzed_ben];
          trace :=
            [LogTotals 2 total_likes total_replies avg_compound;
             LogDistribution "Positive" 1
               (percentage_of "Positive" [analyzed_ana; analyzed_ben]) l1 r1;
             LogDistribution "Negative" 1
               (percentage_of "Negative" [analyzed_ana; analyzed_ben]) l2 r2;
             LogDistribution "Neutral" 0
               (percentage_of "Neutral" [analyzed_ana; analyzed_ben]) l3 r3] |})) /\
  (Z.of_nat (count_label "Positive" [analyzed_ana; analyzed_ben])
   + Z.of_nat (count_label "Negative" [analyzed_ana; analyzed_ben])
   + Z.of_nat (count_label "Neutral" [analyzed_ana; analyzed_ben]))%Z = 2%Z /\
  percentage_of "Positive" [analyzed_ana; analyzed_ben]
  + percentage_of "Negative" [analyzed_ana; analyzed_ben]
  + percentage_of "Neutral" [analyzed_ana; analyzed_ben] == 100.
Proof.
  destruct (print_summary_partition decimal analyzed_pair)
    as (Hrun & Hcount & Hsum & _).
  - discriminate.
  - exact analyzed_pair_scored.
  - split; [exact Hrun|]. split; [exact Hcount|exact Hsum].
Defined.

Example percentages_of_pair :
  percentage_of "Positive" [analyzed_ana; analyzed_ben] == 50 /\
  percentage_of "Negative" [analyzed_ana; analyzed_ben] == 50 /\
  percentage_of "Neutral" [analyzed_ana; analyzed_ben] == 0.
Proof. repeat split. Qed.

(** ** No division by zero *)

Create HintDb undivided.

Section NoDivisionError.

Variable int_of_str : string -> option Z.

Lemma undivided_Ok {A} (a : A) : undivided (Ok a).
Proof. discriminate. Qed.

Lemma undivided_bind {A B} (r : result A) (k : A -> result B) :
  undivided r -> (forall a, r = Ok a -> undivided (k a)) -> undivided (r ≫= k).
Proof.
  intros Hr Hk. destruct r as [a|e]; simpl; [by apply Hk|].
  intros [= ->]. by apply Hr.
Qed.

Lemma undivided_item d k : undivided (item d k).
Proof. unfold item. by destruct (d !! k). Qed.

Lemma undivided_counter d v : undivided (counter d v).
Proof. unfold counter. destruct v; try done. by destruct (d !! s). Qed.

Lemma undivided_int v : undivided (int int_of_str v).
Proof. unfold int. destruct v; try done. by destruct (int_of_str s). Qed.

Lemma undivided_number v : undivided (number v).
Proof. by destruct v. Qed.

Lemma undivided_truediv x y : ~ y == 0 -> undivided (truediv x y).
Proof. intros Hy. by rewrite truediv_nonzero. Qed.

#[local] Hint Resolve undivided_Ok undivided_item undivided_counter undivided_int
  undivided_number : undivided.

Ltac solve_undivided :=
  repeat first
    [ apply undivided_bind; [|intros ? _]
    | solve [auto with undivided] ].

Lemma undivided_tally_comment t a : undivided (tally_comment int_of_str t a).
Proof. unfold tally_comment. solve_undivided. Qed.

Lemma undivided_tally_comments cs : forall t, undivided (tally_comments int_of_str t cs).
Proof.
  induction cs as [|a cs IH]; intros t; simpl; [done|].
  apply undivided_bind; [apply undivided_tally_comment|auto].
Qed.

Lemma undivided_sum_int k cs : forall acc, undivided (sum_int int_of_str k acc cs).
Proof.
  induction cs as [|a cs IH]; intros acc; simpl; [done|]. solve_undivided.
Qed.

Lemma undivided_sum_number k cs : forall acc, undivided (sum_number k acc cs).
Proof.
  induction cs as [|a cs IH]; intros acc; simpl; [done|]. solve_undivided.
Qed.

Lemma undivided_totals cs : cs <> [] -> undivided (totals int_of_str cs).
Proof.
  intros Hne. unfold totals.
  apply undivided_bind; [apply undivided_tally_comments|intros t _].
  apply undivided_bind; [apply undivided_sum_int|intros tl _].
  apply undivided_bind; [apply undivided_sum_int|intros tr _].
  apply undivided_bind; [apply undivided_sum_number|intros sc _].
  apply undivided_bind; [|done].
  apply undivided_truediv, inject_nat_nonzero. destruct cs; [done|simpl; lia].
Qed.

Lemma undivided_distribution t n s : undivided (distribution t n s).
Proof.
  unfold distribution.
  apply undivided_bind; [apply undivided_counter|intros c _].
  apply undivided_bind; [|intros p _].
  { destruct (0 <? n)%nat eqn:Hn; [|done]. apply Nat.ltb_lt in Hn.
    apply undivided_bind; [|done].
    by apply undivided_truediv, inject_nat_nonzero. }
  destruct (0 <? c)%Z eqn:Hc; [apply Z.ltb_lt in Hc|].
  - apply undivided_bind; [|intros al _; apply undivided_bind; [|done]];
      (apply undivided_bind; [apply undivided_counter|intros ? _]);
      by apply undivided_truediv, inject_pos_nonzero.
  - done.
Qed.

Lemma undivided_distributions t n todo :
  forall self, undivided (distributions t n todo self).1.
Proof.
  induction todo as [|s todo IH]; intros self; simpl; [done|].
  pose proof (undivided_distribution t n s) as Hs.
  destruct (distribution t n s) as [line|e]; [apply IH|].
  simpl. intros [= ->]. by apply Hs.
Qed.

(** [print_summary] raises no [ZeroDivisionError], whatever the records *)
Lemma undivided_print_summary self : undivided (print_summary int_of_str self).1.
Proof.
  destruct (analyzed_comments self) as [|a cs] eqn:Hcs.
  - unfold print_summary. rewrite Hcs. done.
  - rewrite print_summary_nonempty by (rewrite Hcs; done).
    pose proof (undivided_totals (analyzed_comments self)) as Ht.
    destruct (totals int_of_str (analyzed_comments self)) as [[t header]|e].
    + apply undivided_distributions.
    + simpl. intros [= ->]. apply Ht; [by rewrite Hcs|done].
Qed.

(** C6, as the code has it.  On an empty list [print_summary] logs that
    there are no comments to summarize and returns: nothing else is
    logged, no count and no average is computed.  It raises nothing on an
    empty list, and no division error on any list. *)
Theorem print_summary_empty (self : analyzer) :
  analyzed_comments self = [] ->
  print_summary int_of_str self = (Ok (), log LogNoCommentsToSummarize self) /\
  trace (print_summary int_of_str self).2 = trace self ++ [LogNoCommentsToSummarize] /\
  forall other : analyzer,
    (print_summary int_of_str other).1 <> Raise ZeroDivisionError.
Proof.
  intros Hempty. unfold print_summary. rewrite Hempty. simpl.
  split; [done|]. split; [done|]. apply undivided_print_summary.
Qed.

End NoDivisionError.

Lemma print_summary_empty_witness :
  print_summary decimal init = (Ok (), log LogNoCommentsToSummarize init) /\
  trace (print_summary decimal init).2 = [] ++ [LogNoCommentsToSummarize] /\
  forall other : analyzer,
    (print_summary decimal other).1 <> Raise ZeroDivisionError.
Proof. apply (print_summary_empty decimal init). reflexivity. Defined.

(** C6 as stated fails on the summary: for an empty list nothing but the
    notice is produced, neither totals nor a line for any label, so there
    are no zero counts and no averages marked as undefined. *)
Lemma print_summary_empty_no_summary :
  print_summary decimal init = (Ok (), log LogNoCommentsToSummarize init) /\
  trace (print_summary decimal init).2 = [LogNoCommentsToSummarize] /\
  ~ (exists n likes replies avg,
        LogTotals n likes replies avg ∈ trace (print_summary decimal init).2) /\
  ~ (exists s count percentage avg_likes avg_replies,
        LogDistribution s count percentage avg_likes avg_replies
          ∈ trace (print_summary decimal init).2).
Proof.
  split; [reflexivity|]. split; [reflexivity|].
  split; intros H; repeat destruct H as [? H]; simpl in H;
    apply list_elem_of_singleton in H; discriminate.
Qed.

Section RunFacts.

Variable polarity_scores : value -> result scores.
Variable int_of_str : string -> option Z.
Variable read_csv : string -> result (list (gmap string value)).
Variable write_csv :
  string -> list string -> list (gmap string value) -> option exn.

(** C8.  When the input file cannot be read, [run] returns after the
    load: it logs the start, the load and the reason, leaves the analyzer
    as it was, calls the scorer on nothing and writes no file; [main]
    returns likewise. *)
Theorem run_input_missing (self : analyzer) (e : exn) :
  read_csv INPUT_CSV = Raise e ->
  let notice :=
    match e with
    | FileNotFoundError => LogNotFound INPUT_CSV
    | _ => LogErrorLoading e
    end in
  let after (a : analyzer) :=
    {| comments := comments a;
       analyzed_comments := analyzed_comments a;
       trace := trace a ++ [LogStarting; LogLoading INPUT_CSV; notice] |} in
  run polarity_scores int_of_str read_csv write_csv self = (Ok (), after self) /\
  main polarity_scores int_of_str read_csv write_csv = (Ok (), after init) /\
  scored_texts (trace (after self)) = scored_texts (trace self) /\
  written (trace (after self)) = written (trace self).
Proof.
  intros Hread notice after.
  assert (Hrun : forall a,
    run polarity_scores int_of_str read_csv write_csv a = (Ok (), after a)).
  { intros a. unfold run, load_comments. rewrite Hread. unfold after, notice, log.
    simpl. rewrite <- !app_assoc. by destruct e. }
  split; [apply Hrun|]. split.
  - unfold main. by rewrite Hrun.
  - unfold scored_texts, written, after. simpl. rewrite !omap_app.
    unfold notice. destruct e; simpl; by rewrite !app_nil_r.
Qed.

(** C9.  When the output file cannot be written, the export of each stage,
    given something to export, raises the exception of the failed write
    after logging it, and records no written file. *)
Theorem export_to_csv_write_failure (collected : list (gmap string value))
    (self : analyzer) (collected_file output_file : string) (e1 e2 : exn) :
  collected <> [] ->
  analyzed_comments self <> [] ->
  (forall fieldnames rows, write_csv collected_file fieldnames rows = Some e1) ->
  (forall fieldnames rows, write_csv output_file fieldnames rows = Some e2) ->
  Main.export_to_csv write_csv collected collected_file =
    (Raise e1, [Main.LogExporting (length collected) collected_file;
                Main.LogErrorWriting e1]) /\
  export_to_csv write_csv output_file self =
    (Raise e2,
     {| comments := comments self;
        analyzed_comments := analyzed_comments self;
        trace := trace self ++
          [LogExporting (length (analyzed_comments self)) output_file;
           LogErrorWriting e2] |}).
Proof.
  intros Hcollected Hanalyzed Hwrite1 Hwrite2. split.
  - unfold Main.export_to_csv. destruct collected; [done|].
    by rewrite Hwrite1.
  - unfold export_to_csv. destruct (analyzed_comments self) eqn:Hcs; [done|].
    unfold log. simpl. rewrite Hcs, Hwrite2. simpl. by rewrite <- app_assoc.
Qed.

End RunFacts.

Lemma analyze_comments_frame_witness :
  exists self' l,
    analyze_comments lexicon_scorer (loaded [row_ana; row_ben]) = (Ok (), self') /\
    comments self' = [row_ana; row_ben] /\
    analyzed_comments self' = [] ++ l /\
    length l = 2%nat /\
    forall i c, [row_ana; row_ben] !! i = Some c ->
      exists a, l !! i = Some a /\
        (forall k v, k ∈ ["author_name"; "comment_text"; "likes"; "reply_count"] ->
                     c !! k = Some v -> a !! k = Some v) /\
        a !! "author_name" = Some (default (VStr "") (c !! "author_name")) /\
        a !! "comment_text" = Some (default (VStr "") (c !! "comment_text")) /\
        a !! "likes" = Some (default (VInt 0) (c !! "likes")) /\
        a !! "reply_count" = Some (default (VInt 0) (c !! "reply_count")).
Proof.
  apply (analyze_comments_frame lexicon_scorer (loaded [row_ana; row_ben])).
  repeat constructor; by eexists.
Defined.

Example analyze_pair :
  (analyze_comments lexicon_scorer (loaded [row_ana; row_ben])).1 = Ok () /\
  analyzed_comments (analyze_comments lexicon_scorer (loaded [row_ana; row_ben])).2
  = [analyzed_ana; analyzed_ben].
Proof. split; vm_compute; reflexivity. Qed.

Lemma run_input_missing_witness :
  run lexicon_scorer decimal no_input writable init =
    (Ok (), {| comments := []; analyzed_comments := [];
               trace := [LogStarting; LogLoading INPUT_CSV; LogNotFound INPUT_CSV] |}) /\
  main lexicon_scorer decimal no_input writable =
    (Ok (), {| comments := []; analyzed_comments := [];
               trace := [LogStarting; LogLoading INPUT_CSV; LogNotFound INPUT_CSV] |}) /\
  scored_texts [LogStarting; LogLoading INPUT_CSV; LogNotFound INPUT_CSV] = [] /\
  written [LogStarting; LogLoading INPUT_CSV; LogNotFound INPUT_CSV] = [].
Proof.
  apply (run_input_missing lexicon_scorer decimal no_input writable init
           FileNotFoundError).
  reflexivity.
Defined.

Lemma export_to_csv_write_failure_witness :
  Main.export_to_csv read_only [comment_ana; comment_ben] Main.OUTPUT_CSV =
    (Raise OSError, [Main.LogExporting 2 Main.OUTPUT_CSV; Main.LogErrorWriting OSError]) /\
  export_to_csv read_only OUTPUT_CSV analyzed_pair =
    (Raise OSError,
     {| comments := [row_ana; row_ben];
        analyzed_comments := [analyzed_ana; analyzed_ben];
        trace := [LogExporting 2 OUTPUT_CSV; LogErrorWriting OSError] |}).
Proof.
  apply (export_to_csv_write_failure read_only [comment_ana; comment_ben]
           analyzed_pair Main.OUTPUT_CSV OUTPUT_CSV OSError OSError);
    [discriminate|discriminate|reflexivity|reflexivity].
Defined.

Section WriteFailureInRun.

Variable polarity_scores : value -> result scores.
Variable int_of_str : string -> option Z.
Variable read_csv : string -> result (list (gmap string value)).
Variable write_csv :
  string -> list string -> list (gmap string value) -> option exn.

Lemma export_to_csv_fails output_file self e :
  analyzed_comments self <> [] ->
  write_csv output_file fieldnames (analyzed_comments self) = Some e ->
  export_to_csv write_csv output_file self =
  (Raise e,
   log (LogErrorWriting e)
       (log (LogExporting (length (analyzed_comments self)) output_file) self)).
Proof.
  intros Hne Hwrite. unfold export_to_csv.
  destruct (analyzed_comments self) eqn:Hcs; [done|].
  simpl. rewrite Hcs, Hwrite. reflexivity.
Qed.

(** The failure goes through [run] and [main] of stage 2: after a
    successful load and analysis, a failed write makes [main] raise the
    exception of the write, logged as fatal, with no file written. *)
Lemma main_write_failure rows l e :
  read_csv INPUT_CSV = Ok rows ->
  mapM (analyze polarity_scores) rows = Ok l ->
  l <> [] ->
  write_csv OUTPUT_CSV fieldnames l = Some e ->
  exists self,
    main polarity_scores int_of_str read_csv write_csv = (Raise e, self) /\
    last (trace self) = Some (LogFatal e) /\
    written (trace self) = [].
Proof.
  intros Hread Hl Hne Hwrite. unfold main, run, load_comments.
  rewrite Hread. cbv zeta.
  set (loaded_self := log (LogLoaded _) _).
  destruct (analyze_comments_Ok polarity_scores loaded_self l Hl)
    as (self1 & -> & Hc1 & Han1 & Hw1).
  change (analyzed_comments loaded_self ++ l) with l in Han1.
  rewrite (export_to_csv_fails OUTPUT_CSV self1 e)
    by (rewrite Han1; done).
  eexists. split; [reflexivity|]. split.
  - unfold log. simpl. by rewrite last_snoc.
  - rewrite !written_log, Hw1. reflexivity.
Qed.

End WriteFailureInRun.

(** The two comments of the end-to-end example, through stage 2 *)
Example run_pair :
  exists avg_compound,
    main lexicon_scorer decimal input_pair writable =
    (Ok (),
     {| comments := [row_ana; row_ben];
        analyzed_comments := [analyzed_ana; analyzed_ben];
        trace :=
          [LogStarting; LogLoading INPUT_CSV; LogLoaded 2; LogAnalyzing;
           Scored (VStr "I love this!"); Scored (VStr "This is terrible.");
           LogCompleted 2; LogExporting 2 OUTPUT_CSV;
           Wrote OUTPUT_CSV fieldnames [analyzed_ana; analyzed_ben];
           LogExportSuccessful OUTPUT_CSV;
           LogTotals 2 12 1 avg_compound;
           LogDistribution "Positive" 1 (1 / 2 * 100) (10 / 1) (0 / 1);
           LogDistribution "Negative" 1 (1 / 2 * 100) (2 / 1) (1 / 1);
           LogDistribution "Neutral" 0 (0 / 2 * 100) 0 0;
           LogWorkflowCompleted] |}) /\
    avg_compound == 0.09645.
Proof. eexists. split; [vm_compute; reflexivity|reflexivity]. Qed.

Example main_read_only :
  (main lexicon_scorer decimal input_pair read_only).1 = Raise OSError.
Proof. vm_compute. reflexivity. Qed.

(** * Further properties of stage 1 *)

Close Scope Q_scope.

(** ** What the collector returns, whatever the source does *)

Lemma comment_of_item_columns item comment :
  Main.comment_of_item item = Ok comment ->
  dom comment = list_to_set Main.fieldnames.
Proof.
  intros H.
  destruct (comment_of_item_Ok_inv _ _ H)
    as (record & thread & top & snippet & -> & Hthread & Htop & Hsnippet).
  unfold Main.comment_of_item in H. simpl in H.
  rewrite Hthread in H. simpl in H. rewrite Htop in H. simpl in H.
  rewrite Hsnippet in H. simpl in H.
  injection H as <-. rewrite !dom_insert_L, dom_empty_L.
  unfold Main.fieldnames. simpl. set_solver.
Qed.

Lemma collect_items_built items :
  forall comments total comments' total' failure,
  Main.collect_items items comments total = (comments', total', failure) ->
  exists more,
    comments' = comments ++ more /\
    total' = total + length more /\
    Forall (fun c => exists item, Main.comment_of_item item = Ok c) more.
Proof.
  induction items as [|item rest IH]; intros comments total comments' total' failure;
    simpl.
  - intros [= <- <- <-]. exists []. by rewrite app_nil_r, Nat.add_0_r.
  - destruct (Main.comment_of_item item) as [c|e] eqn:Hc.
    + intros H. apply IH in H as (more & -> & -> & Hmore).
      exists (c :: more). rewrite <- app_assoc. simpl.
      split; [done|]. split; [lia|]. constructor; eauto.
    + intros [= <- <- <-]. exists []. by rewrite app_nil_r, Nat.add_0_r.
Qed.

Lemma process_response_built response page n r :
  Main.process_response response [] 0 = (page, n, r) ->
  n = length page /\
  Forall (fun c => exists item, Main.comment_of_item item = Ok c) page.
Proof.
  unfold Main.process_response.
  destruct (get response "items" (VList []) ≫= iterate) as [items|e].
  - destruct (Main.collect_items items [] 0) as [[p t] failure] eqn:Hitems.
    apply collect_items_built in Hitems as (more & -> & -> & Hmore).
    destruct failure; intros [= <- <- <-]; auto.
  - intros [= <- <- <-]. auto.
Qed.

Section CollectorInvariant.
Context {St : Type}.
Variable execute : string -> value -> St -> result value * St.

(** What the loop adds to the comments and to the trace *)
Lemma fetch_loop_inv fuel :
  forall video_id comments page_token page_count total src tr f,
  Main.fetch_loop execute fuel video_id comments page_token page_count total
                  src tr = Some f ->
  exists more sent,
    Main.returned f = comments ++ more /\
    Forall (fun c => exists item, Main.comment_of_item item = Ok c) more /\
    Main.requests (Main.trace f) = Main.requests tr ++ sent /\
    1 <= length sent <= fuel /\
    exported (Main.trace f) = exported tr /\
    (last (Main.trace f)
       = Some (Main.LogTotalFetched (total + length more)
                                    (page_count + length sent)) \/
     exists e, last (Main.trace f) = Some (Main.LogErrorFetching e)).
Proof.
  induction fuel as [|fuel IH];
    intros video_id comments page_token page_count total src tr f; [done|].
  rewrite fetch_loop_step. cbv zeta.
  assert (Hreq : forall ev, Main.request_token ev = None ->
    Main.requests ((tr ++ [Main.LogFetchingPage (S page_count);
                           Main.Request video_id page_token]) ++ [ev])
    = Main.requests tr ++ [page_token]).
  { intros ev Hev. unfold Main.requests. rewrite !omap_app. simpl.
    rewrite Hev. simpl. by rewrite app_nil_r. }
  assert (Hexp : forall tail, exported tail = [] ->
    exported ((tr ++ [Main.LogFetchingPage (S page_count);
                      Main.Request video_id page_token]) ++ tail)
    = exported tr).
  { intros tail Htail. unfold exported in *. rewrite !omap_app, Htail. simpl.
    by rewrite !app_nil_r. }
  destruct (execute video_id page_token src) as [[response|e] src'].
  - destruct (Main.process_response response [] 0) as [[page n] [tok|e]] eqn:Hr;
      apply process_response_built in Hr as [-> Hpage].
    + destruct (truthy tok).
      * intros H. apply IH in H as (more & sent & -> & Hmore & Hsent & Hlen & Hexp' & Hlast).
        exists (page ++ more), (page_token :: sent).
        rewrite <- app_assoc. split; [done|]. split; [by apply Forall_app|].
        split.
        { rewrite Hsent. unfold Main.requests. rewrite omap_app. simpl.
          by rewrite <- app_assoc. }
        split; [simpl; lia|]. split.
        { rewrite Hexp'. rewrite <- (app_nil_r (tr ++ _)). by apply Hexp. }
        rewrite length_app. simpl.
        replace (total + (length page + length more))
          with (total + length page + length more) by lia.
        replace (page_count + S (length sent))
          with (S page_count + length sent) by lia.
        exact Hlast.
      * intros [= <-]. simpl. exists page, [page_token].
        split; [done|]. split; [done|]. split; [by apply Hreq|].
        split; [simpl; lia|]. split; [by apply Hexp|].
        left. rewrite last_snoc. simpl. do 3 f_equal. lia.
    + intros [= <-]. simpl. exists page, [page_token].
      split; [done|]. split; [done|]. split; [by apply Hreq|].
      split; [simpl; lia|]. split; [by apply Hexp|].
      right. exists e. by rewrite last_snoc.
  - intros [= <-]. simpl. exists [], [page_token].
    split; [by rewrite app_nil_r|]. split; [done|]. split; [by apply Hreq|].
    split; [simpl; lia|]. split; [by apply Hexp|].
    right. exists e. by rewrite last_snoc.
Qed.

(** X1.  Whatever the source answers, every comment [fetch_comments]
    returns has exactly the four columns of the stage-1 table. *)
Theorem fetch_comments_columns fuel video_id src f :
  Main.fetch_comments execute fuel video_id src = Some f ->
  Forall (fun c => dom c = list_to_set Main.fieldnames) (Main.returned f).
Proof.
  intros H. apply fetch_loop_inv in H as (more & sent & -> & Hmore & _).
  simpl. eapply Forall_impl; [exact Hmore|].
  intros c [item Hc]. by eapply comment_of_item_columns.
Qed.

(** X2.  Whatever the source answers, a collection that returns has sent
    at least one request and at most one per unit of fuel, and its last log
    line tells how it ended: either the error, or the totals, which are
    then the number of comments returned and the number of requests
    sent. *)
Theorem fetch_comments_totals fuel video_id src f :
  Main.fetch_comments execute fuel video_id src = Some f ->
  1 <= length (Main.requests (Main.trace f)) <= fuel /\
  (last (Main.trace f)
     = Some (Main.LogTotalFetched (length (Main.returned f))
                                  (length (Main.requests (Main.trace f)))) \/
   exists e, last (Main.trace f) = Some (Main.LogErrorFetching e)).
Proof.
  intros H. apply fetch_loop_inv in H
    as (more & sent & -> & _ & -> & Hlen & _ & Hlast).
  simpl in *. split; [done|]. exact Hlast.
Qed.

(** X3.  Against a source that answers every request with a well-formed
    page carrying a cursor, [fetch_comments] never returns: the loop has no
    bound of its own. *)
Theorem fetch_comments_endless video_id :
  (forall page_token src, exists response batch cursor src',
      execute video_id page_token src = (Ok response, src') /\
      page_comments response = Ok batch /\
      next_cursor response = Some cursor) ->
  forall fuel src, Main.fetch_comments execute fuel video_id src = None.
Proof.
  intros Hsource fuel src. unfold Main.fetch_comments.
  assert (Hloop : forall fuel src comments tok pc total tr,
    Main.fetch_loop execute fuel video_id comments tok pc total src tr = None);
    [|apply Hloop].
  clear fuel src. induction fuel as [|fuel IH];
    intros src comments tok pc total tr; [done|].
  rewrite fetch_loop_step. cbv zeta.
  destruct (Hsource tok src) as (response & batch & cursor & src' & -> & Hb & Hc).
  destruct (page_comments_response _ _ Hb) as (tok' & Htok & ->).
  unfold next_cursor in Hc. rewrite Htok in Hc.
  destruct (truthy tok'); [|discriminate]. apply IH.
Qed.

End CollectorInvariant.

Lemma fetch_comments_columns_witness :
  exists f,
    Main.fetch_comments scripted 2 "VIDEO" [Ok page_ana_more; Ok page_ben_last]
      = Some f /\
    Forall (fun c => dom c = list_to_set Main.fieldnames) (Main.returned f).
Proof.
  destruct (Main.fetch_comments scripted 2 "VIDEO"
              [Ok page_ana_more; Ok page_ben_last]) as [f|] eqn:Hf;
    [|vm_compute in Hf; discriminate].
  exists f. split; [reflexivity|].
  exact (fetch_comments_columns scripted 2 "VIDEO" _ f Hf).
Defined.

Lemma fetch_comments_totals_witness :
  exists f,
    Main.fetch_comments scripted 2 "VIDEO" [Ok page_ana_more; Raise HttpError]
      = Some f /\
    1 <= length (Main.requests (Main.trace f)) <= 2 /\
    (last (Main.trace f)
       = Some (Main.LogTotalFetched (length (Main.returned f))
                                    (length (Main.requests (Main.trace f)))) \/
     exists e, last (Main.trace f) = Some (Main.LogErrorFetching e)).
Proof.
  destruct (Main.fetch_comments scripted 2 "VIDEO"
              [Ok page_ana_more; Raise HttpError]) as [f|] eqn:Hf;
    [|vm_compute in Hf; discriminate].
  exists f. split; [reflexivity|].
  exact (fetch_comments_totals scripted 2 "VIDEO" _ f Hf).
Defined.

Lemma fetch_comments_endless_witness :
  Main.fetch_comments endless 1000 "VIDEO" tt = None.
Proof.
  apply (fetch_comments_endless endless "VIDEO").
  intros page_token src.
  exists page_ana_more, [comment_ana], (VStr "CDIQAA"), tt.
  split; [reflexivity|]. split; vm_compute; reflexivity.
Defined.

(** ** Channel and video lookup *)

Ltac case_subscript :=
  repeat match goal with
  | |- context [subscript ?v ?k] =>
      let H := fresh "Hsub" in
      destruct (subscript v k) eqn:H; simpl
  end.

(** The line logged for a result, and its entry *)
Lemma channel_line i item :
  match
    (channel_title ← subscript item "snippet" ≫= (fun s => subscript s "title");
     channel_id ← subscript item "id" ≫= (fun d => subscript d "channelId");
     mret (Scraper.LogFoundChannel i channel_title channel_id))
  with
  | Ok line =>
      exists title id,
        line = Scraper.LogFoundChannel i title id /\
        channel_entry item = Some (title, id)
  | Raise _ => channel_entry item = None
  end.
Proof. unfold channel_entry. case_subscript; eauto. Qed.

(** The id and the title read off the first result, and its entry *)
Lemma channel_first item :
  match
    (channel_id ← subscript item "id" ≫= (fun d => subscript d "channelId");
     channel_title ← subscript item "snippet" ≫= (fun s => subscript s "title");
     mret (channel_id, channel_title))
  with
  | Ok (id, title) => channel_entry item = Some (title, id)
  | Raise _ => channel_entry item = None
  end.
Proof. unfold channel_entry. case_subscript; eauto. Qed.

(** The id and the title read off the first video, and its entry *)
Lemma video_first item :
  match
    (video_id ← subscript item "id" ≫= (fun d => subscript d "videoId");
     video_title ← subscript item "snippet" ≫= (fun s => subscript s "title");
     mret (video_id, video_title))
  with
  | Ok (id, title) => video_entry item = Some (title, id)
  | Raise _ => video_entry item = None
  end.
Proof. unfold video_entry. case_subscript; eauto. Qed.

Section LookupFacts.
Context {St : Type}.
Variable search_list : gmap string value -> St -> result value * St.

(** The lines logged for a list of results that all have a title and a
    channel id *)
Lemma log_channels_entries items entries :
  Forall2 (fun item e => channel_entry item = Some e) items entries ->
  forall i,
    Scraper.log_channels i items =
    (imap (fun j e => Scraper.LogFoundChannel (i + j) e.1 e.2) entries, None).
Proof.
  induction 1 as [|item [title id] items entries He _ IH]; intros i; [done|].
  cbn [Scraper.log_channels]. pose proof (channel_line i item) as Hline.
  destruct (_ ≫= _) as [line|e] in Hline |- *; [|congruence].
  destruct Hline as (t & c & -> & Hline). rewrite He in Hline.
  injection Hline as <- <-. rewrite IH. simpl. rewrite Nat.add_0_r.
  do 2 f_equal. apply imap_ext. intros j e _. simpl. do 2 f_equal. lia.
Qed.

Lemma log_channels_None items : forall i lines,
  Scraper.log_channels i items = (lines, None) ->
  exists entries, Forall2 (fun item e => channel_entry item = Some e) items entries.
Proof.
  induction items as [|item items IH]; intros i lines H; [by exists []|].
  cbn [Scraper.log_channels] in H. pose proof (channel_line i item) as Hline.
  destruct (_ ≫= _) as [line|e] in Hline, H; [|discriminate].
  destruct Hline as (t & c & -> & Hline).
  destruct (Scraper.log_channels (S i) items) as [lines' failure] eqn:Hrest.
  injection H as <- ->. apply IH in Hrest as [entries Hentries].
  exists ((t, c) :: entries). by constructor.
Qed.

(** X4.  When the search answers with a non-empty list of results that all
    have a title and a channel id, [find_channel] sends that one request,
    logs every result with its rank, and returns the channel id of the
    first result. *)
Theorem find_channel_first_result (channel_name : string) (src src' : St)
    (response : gmap string value) (items : list value)
    (title id : value) (entries : list (value * value)) :
  search_list (Scraper.channel_kwargs channel_name) src = (Ok (VDict response), src') ->
  response !! "items" = Some (VList items) ->
  Forall2 (fun item e => channel_entry item = Some e) items ((title, id) :: entries) ->
  Scraper.find_channel search_list channel_name src =
  (id, src',
   [Scraper.LogSearchingChannel channel_name;
    Scraper.Search (Scraper.channel_kwargs channel_name);
    Scraper.LogFoundChannels]
   ++ imap (fun j e => Scraper.LogFoundChannel (S j) e.1 e.2) ((title, id) :: entries)
   ++ [Scraper.LogUsingChannel title]).
Proof.
  intros Hsearch Hitems Hentries.
  unfold Scraper.find_channel, Scraper.channel_of_response. rewrite Hsearch.
  cbn [get]. rewrite Hitems.
  inversion Hentries as [|item ? rest ? He Hrest]; subst.
  cbn [default from_option Datatypes.id truthy negb iterate].
  rewrite (log_channels_entries _ _ Hentries 1).
  cbn [Scraper.first_item]. cbn [mbind result_bind Py.bind].
  pose proof (channel_first item) as Hfirst.
  destruct (_ ≫= _) as [[c t]|e] in Hfirst |- *; [|congruence].
  rewrite He in Hfirst. injection Hfirst as <- <-. reflexivity.
Qed.

(** X5.  [find_channel] returns something other than [None] only in that
    case: one result without a title or a channel id anywhere in the list,
    or anything else going wrong, makes it return [None], even when the
    first result is fine. *)
Theorem find_channel_found_inv (channel_name : string) (src src' : St)
    (channel_id : value) (tr : list Scraper.event) :
  Scraper.find_channel search_list channel_name src = (channel_id, src', tr) ->
  channel_id <> VNone ->
  exists response items title entries,
    search_list (Scraper.channel_kwargs channel_name) src = (Ok (VDict response), src') /\
    response !! "items" = Some (VList items) /\
    Forall2 (fun item e => channel_entry item = Some e) items
            ((title, channel_id) :: entries).
Proof.
  unfold Scraper.find_channel, Scraper.channel_of_response. intros H Hid.
  destruct (search_list _ src) as [[response|e] src1]; [|by injection H as <-].
  destruct response as [| | | | | |response]; try (by injection H as <-).
  cbn [get] in H.
  destruct (response !! "items") as [items|] eqn:Hitems;
    [|by injection H as <-].
  cbn [default from_option Datatypes.id] in H.
  destruct (truthy items) eqn:Htruthy; [|by injection H as <-].
  cbn [negb] in H.
  destruct (iterate items) as [listed|e] eqn:Hiter; [|by injection H as <-].
  destruct (Scraper.log_channels 1 listed) as [lines [e|]] eqn:Hlog;
    [by injection H as <-|].
  destruct (log_channels_None _ _ _ Hlog) as [entries Hentries].
  destruct items as [| | | |s|items|d]; try discriminate Hiter.
  - (* a str: its characters are no results *)
    injection Hiter as <-. destruct s as [|c s]; [discriminate|].
    inversion Hentries as [|? ? ? ? He]; subst. discriminate He.
  - (* a list *)
    injection Hiter as <-. destruct items as [|item items]; [discriminate|].
    inversion Hentries as [|? [title id] ? entries' He Hrest]; subst.
    cbn [Scraper.first_item mbind result_bind Py.bind] in H.
    pose proof (channel_first item) as Hfirst.
    destruct (_ ≫= _) as [[c t]|e] in Hfirst, H; [|congruence].
    rewrite He in Hfirst. injection Hfirst as <- <-. injection H as <- <- _.
    exists response, (item :: items), title, entries'.
    split; [done|]. split; [done|]. by constructor.
  - (* a dict: its keys are no results *)
    injection Hiter as <-. simpl in Htruthy.
    destruct (map_to_list d) as [|[k v] kvs]; [discriminate|].
    inversion Hentries as [|? ? ? ? He]; subst. discriminate He.
Qed.

(** X6.  [get_latest_video] looks at the first result only: when the
    search answers with a list whose first result has a video id and a
    title, it returns that id, whatever the other results are.  The request
    asks for one video of the channel, ordered by date. *)
Theorem get_latest_video_first_result (channel_id : value) (src src' : St)
    (response : gmap string value) (item : value) (rest : list value)
    (title id : value) :
  search_list (Scraper.video_kwargs channel_id) src = (Ok (VDict response), src') ->
  response !! "items" = Some (VList (item :: rest)) ->
  video_entry item = Some (title, id) ->
  Scraper.get_latest_video search_list channel_id src =
  (id, src',
   [Scraper.LogFetchingLatest channel_id;
    Scraper.Search (Scraper.video_kwargs channel_id);
    Scraper.LogLatestVideo title id]) /\
  Scraper.video_kwargs channel_id !! "channelId" = Some channel_id /\
  Scraper.video_kwargs channel_id !! "order" = Some (VStr "date") /\
  Scraper.video_kwargs channel_id !! "maxResults" = Some (VInt 1).
Proof.
  intros Hsearch Hitems He. split; [|by repeat split].
  unfold Scraper.get_latest_video, Scraper.video_of_response. rewrite Hsearch.
  cbn [get]. rewrite Hitems.
  cbn [default from_option Datatypes.id truthy negb Scraper.first_item].
  cbn [mbind result_bind Py.bind].
  pose proof (video_first item) as Hfirst.
  destruct (_ ≫= _) as [[c t]|e] in Hfirst |- *; [|congruence].
  rewrite He in Hfirst. by injection Hfirst as <- <-.
Qed.

(** X7.  [get_latest_video] returns something other than [None] only when
    the search answered with a list whose first result has a video id and
    a title. *)
Theorem get_latest_video_found_inv (channel_id : value) (src src' : St)
    (video_id : value) (tr : list Scraper.event) :
  Scraper.get_latest_video search_list channel_id src = (video_id, src', tr) ->
  video_id <> VNone ->
  exists response item rest title,
    search_list (Scraper.video_kwargs channel_id) src = (Ok (VDict response), src') /\
    response !! "items" = Some (VList (item :: rest)) /\
    video_entry item = Some (title, video_id).
Proof.
  unfold Scraper.get_latest_video, Scraper.video_of_response. intros H Hid.
  destruct (search_list _ src) as [[response|e] src1]; [|by injection H as <-].
  destruct response as [| | | | | |response]; try (by injection H as <-).
  cbn [get] in H.
  destruct (response !! "items") as [items|] eqn:Hitems;
    [|by injection H as <-].
  cbn [default from_option Datatypes.id] in H.
  destruct (truthy items) eqn:Htruthy; [|by injection H as <-].
  cbn [negb] in H.
  destruct items as [| | | |s|items|d]; try (by injection H as <-).
  - destruct s as [|c s]; by injection H as <-.
  - destruct items as [|item rest]; [discriminate|].
    cbn [Scraper.first_item mbind result_bind Py.bind] in H.
    pose proof (video_first item) as Hfirst.
    destruct (_ ≫= _) as [[c t]|e] in Hfirst, H; [|by injection H as <-].
    injection H as <- <- _.
    by exists response, item, rest, t.
Qed.

End LookupFacts.

(** ** The API key *)


Lemma lstrip_nonspace c l : Scraper.is_space c = false -> Scraper.lstrip (c :: l) = c :: l.
Proof. intros H. simpl. by rewrite H. Qed.

Lemma lstrip_spaces l : Forall (fun c => Scraper.is_space c = true) l -> Scraper.lstrip l = [].
Proof. induction 1 as [|c l Hc _ IH]; simpl; [done|]. by rewrite Hc. Qed.




Section CredentialFacts.

Variable exists_file : string -> bool.
Variable read_file : string -> result string.


(** X9.  [load_api_key] raises [FileNotFoundError] without reading when
    the key file does not exist, and [ValueError] when the file holds
    nothing but white space. *)
Theorem load_api_key_missing_or_blank :
  (exists_file Scraper.API_KEY_FILE = false ->
   Scraper.load_api_key exists_file read_file = Raise FileNotFoundError) /\
  (forall raw,
      exists_file Scraper.API_KEY_FILE = true ->
      read_file Scraper.API_KEY_FILE = Ok raw ->
      Forall (fun c => Scraper.is_space c = true) (list_ascii_of_string raw) ->
      Scraper.load_api_key exists_file read_file = Raise ValueError).
Proof.
  unfold Scraper.load_api_key. split.
  - by intros ->.
  - intros raw -> -> Hblank. simpl. unfold Scraper.strip.
    by rewrite (lstrip_spaces _ Hblank).
Qed.

End CredentialFacts.

(** ** The preview of the most liked comment *)


(** ** The summary of stage 1 *)

Section ScraperSummary.
Local Open Scope Q_scope.

Lemma add_number acc v :
  is_total acc = true -> is_number v = true ->
  exists acc',
    Scraper.add acc v = Ok acc' /\ is_total acc' = true /\
    Scraper.magnitude acc' == Scraper.magnitude acc + Scraper.magnitude v.
Proof.
  destruct acc; try discriminate; destruct v; try discriminate; intros _ _;
    eexists; (split; [reflexivity|]); (split; [reflexivity|]); simpl;
    rewrite ?inject_Z_plus; try destruct b; simpl; try reflexivity.
Qed.

Lemma add_not_number acc v :
  is_total acc = true -> is_number v = false -> Scraper.add acc v = Raise TypeError.
Proof. destruct acc; try discriminate; destruct v; try discriminate; done. Qed.


Lemma sum_field_not_number k cs :
  Forall (fun c => is_Some (c !! k)) cs ->
  Exists (fun c => exists v, c !! k = Some v /\ is_number v = false) cs ->
  forall acc, is_total acc = true ->
  Scraper.sum_field k acc cs = Raise TypeError.
Proof.
  induction 1 as [|c cs [v Hv] _ IH]; intros Hbad acc Hacc; [by inversion Hbad|].
  simpl. unfold item. rewrite Hv. simpl.
  destruct (is_number v) eqn:Hnum.
  - destruct (add_number acc v Hacc Hnum) as (acc' & -> & Hacc' & _). simpl.
    apply IH; [|done]. inversion Hbad as [? ? (v' & Hv' & Hnum')|]; subst; [|done].
    congruence.
  - by rewrite (add_not_number acc v Hacc Hnum).
Qed.






(** X12.  When every comment has likes but the likes of one of them are no
    number (a [str], say), [print_summary] raises [TypeError] before it
    logs anything. *)
Theorem print_summary_likes_not_a_number (comments : list (gmap string value)) :
  Forall (fun c => is_Some (c !! "likes")) comments ->
  Exists (fun c => exists v, c !! "likes" = Some v /\ is_number v = false) comments ->
  Scraper.print_summary comments = (Raise TypeError, []).
Proof.
  intros Hkeys Hbad. unfold Scraper.print_summary.
  destruct comments as [|first rest]; [by inversion Hbad|].
  by rewrite (sum_field_not_number "likes" _ Hkeys Hbad (VInt 0)).
Qed.

End ScraperSummary.

(** ** The workflow of stage 1 *)

Lemma searches_app tr tr' : searches (tr ++ tr') = searches tr ++ searches tr'.
Proof. apply omap_app. Qed.

Lemma collected_app tr tr' : collected (tr ++ tr') = collected tr ++ collected tr'.
Proof. apply omap_app. Qed.

Lemma exported_app tr tr' : exported (tr ++ tr') = exported tr ++ exported tr'.
Proof. apply omap_app. Qed.

Lemma collected_Collector tr : collected (Scraper.Collector <$> tr) = tr.
Proof.
  induction tr as [|ev tr IH]; [done|].
  change (collected (Scraper.Collector <$> ev :: tr))
    with (ev :: collected (Scraper.Collector <$> tr)).
  by rewrite IH.
Qed.

Lemma searches_Collector tr : searches (Scraper.Collector <$> tr) = [].
Proof.
  induction tr as [|ev tr IH]; [done|].
  change (searches (Scraper.Collector <$> ev :: tr))
    with (searches (Scraper.Collector <$> tr)).
  exact IH.
Qed.

Lemma silent_quiet tr :
  Forall (fun ev => silent ev = true) tr -> searches tr = [] /\ collected tr = [].
Proof.
  induction 1 as [|ev tr Hev _ [IH1 IH2]]; [done|].
  destruct ev; try discriminate Hev; split; first [exact IH1|exact IH2].
Qed.

Lemma log_channels_silent items : forall i,
  Forall (fun ev => silent ev = true) (Scraper.log_channels i items).1.
Proof.
  induction items as [|item items IH]; intros i; cbn [Scraper.log_channels]; [done|].
  pose proof (channel_line i item) as Hline.
  destruct (_ ≫= _) as [line|e] in Hline |- *; [|done].
  destruct Hline as (t & c & -> & _). specialize (IH (S i)).
  destruct (Scraper.log_channels (S i) items) as [lines failure].
  by constructor.
Qed.

Lemma channel_of_response_silent channel_name response :
  Forall (fun ev => silent ev = true)
         (Scraper.channel_of_response channel_name response).1.
Proof.
  unfold Scraper.channel_of_response.
  destruct (get response "items" VNone) as [items|e]; [|done].
  destruct (truthy items); cbn [negb]; [|by repeat constructor].
  destruct (iterate items) as [listed|e]; [|by repeat constructor].
  pose proof (log_channels_silent listed 1) as Hlines.
  destruct (Scraper.log_channels 1 listed) as [lines [e|]]; simpl in Hlines;
    [by constructor|].
  destruct (_ ≫= _) as [[c t]|e]; simpl; [|by constructor].
  constructor; [done|]. apply Forall_app. split; [done|]. by repeat constructor.
Qed.

Lemma video_of_response_silent response :
  Forall (fun ev => silent ev = true) (Scraper.video_of_response response).1.
Proof.
  unfold Scraper.video_of_response.
  destruct (get response "items" VNone) as [items|e]; [|done].
  destruct (truthy items); cbn [negb]; [|by repeat constructor].
  destruct (_ ≫= _) as [[c t]|e]; simpl; by repeat constructor.
Qed.

Lemma print_summary_silent comments :
  Forall (fun ev => silent ev = true) (Scraper.print_summary comments).2.
Proof.
  unfold Scraper.print_summary. destruct comments as [|first rest];
    [by repeat constructor|].
  destruct (_ ≫= _) as [[[tl tr] avg]|e]; [|done].
  destruct (Scraper.first_with_likes _ _) as [c|]; [|by repeat constructor].
  destruct (truthy (VDict c)); [|by repeat constructor].
  destruct (item c "comment_text" ≫= Scraper.preview) as [text|e];
    [|by repeat constructor].
  destruct (item c "author_name") as [author|e]; by repeat constructor.
Qed.

Lemma searches_cons ev tr :
  searches (ev :: tr)
  = match ev with Scraper.Search kwargs => [kwargs] | _ => [] end ++ searches tr.
Proof. by destruct ev. Qed.

Lemma collected_cons ev tr :
  collected (ev :: tr)
  = match ev with Scraper.Collector ev' => [ev'] | _ => [] end ++ collected tr.
Proof. by destruct ev. Qed.

Ltac split_trace :=
  repeat first
    [ rewrite searches_app | rewrite collected_app
    | rewrite searches_Collector | rewrite collected_Collector
    | rewrite searches_cons | rewrite collected_cons ].

Section CollectorAttempts.
Context {St : Type}.
Variable execute : string -> value -> St -> result value * St.

(** The collector opens no file *)
Lemma fetch_loop_attempted fuel :
  forall video_id comments page_token page_count total src tr f,
  Main.fetch_loop execute fuel video_id comments page_token page_count total
                  src tr = Some f ->
  attempted (Main.trace f) = attempted tr.
Proof.
  induction fuel as [|fuel IH];
    intros video_id comments page_token page_count total src tr f; [done|].
  rewrite fetch_loop_step. cbv zeta.
  assert (Hatt : forall tail, attempted tail = [] ->
    attempted ((tr ++ [Main.LogFetchingPage (S page_count);
                       Main.Request video_id page_token]) ++ tail)
    = attempted tr).
  { intros tail Htail. unfold attempted in *. rewrite !omap_app, Htail. simpl.
    by rewrite !app_nil_r. }
  destruct (execute video_id page_token src) as [[response|e] src'].
  - destruct (Main.process_response response [] 0) as [[page n] [tok|e]].
    + destruct (truthy tok).
      * intros H. apply IH in H as ->.
        rewrite <- (app_nil_r (tr ++ _)). by apply Hatt.
      * intros [= <-]. by apply Hatt.
    + intros [= <-]. by apply Hatt.
  - intros [= <-]. by apply Hatt.
Qed.

Lemma fetch_comments_attempted fuel video_id src f :
  Main.fetch_comments execute fuel video_id src = Some f ->
  attempted (Main.trace f) = [].
Proof. intros H. by apply fetch_loop_attempted in H. Qed.

End CollectorAttempts.

Lemma attempted_app tr tr' : attempted (tr ++ tr') = attempted tr ++ attempted tr'.
Proof. apply omap_app. Qed.

Section WorkflowFacts.
Context {St : Type}.
Variable search_list : gmap string value -> St -> result value * St.
Variable execute : string -> value -> St -> result value * St.
Variable str_of : value -> string.
Variable write_csv :
  string -> list string -> list (gmap string value) -> option exn.

Lemma find_channel_trace channel_name src channel_id src' tr :
  Scraper.find_channel search_list channel_name src = (channel_id, src', tr) ->
  searches tr = [Scraper.channel_kwargs channel_name] /\ collected tr = [].
Proof.
  unfold Scraper.find_channel.
  destruct (search_list _ src) as [[response|e] src1]; [|by intros [= <- <- <-]].
  pose proof (channel_of_response_silent channel_name response) as Hsilent.
  destruct (Scraper.channel_of_response channel_name response) as [lines [id|e]];
    apply silent_quiet in Hsilent as [Hs Hc]; simpl in Hs, Hc;
    intros [= <- <- <-];
    rewrite !searches_cons, !collected_cons, ?searches_app, ?collected_app, Hs, Hc;
    done.
Qed.

Lemma get_latest_video_trace channel_id src video_id src' tr :
  Scraper.get_latest_video search_list channel_id src = (video_id, src', tr) ->
  searches tr = [Scraper.video_kwargs channel_id] /\ collected tr = [].
Proof.
  unfold Scraper.get_latest_video.
  destruct (search_list _ src) as [[response|e] src1]; [|by intros [= <- <- <-]].
  pose proof (video_of_response_silent response) as Hsilent.
  destruct (Scraper.video_of_response response) as [lines [id|e]];
    apply silent_quiet in Hsilent as [Hs Hc]; simpl in Hs, Hc;
    intros [= <- <- <-];
    rewrite !searches_cons, !collected_cons, ?searches_app, ?collected_app, Hs, Hc;
    done.
Qed.

(** What the export of stage 1 leaves in the trace: the attempt, and the
    write if it completed *)
Lemma export_to_csv_attempt comments output_file r tr :
  Main.export_to_csv write_csv comments output_file = (r, tr) ->
  Main.requests tr = [] /\
  attempted tr = match comments with [] => [] | _ => [output_file] end /\
  (exported tr = [] \/
   exported tr = [(output_file, Main.fieldnames, comments)] /\ comments <> []) /\
  (forall e, r = Raise e ->
     write_csv output_file Main.fieldnames comments = Some e /\ exported tr = []) /\
  (forall u, r = Ok u -> comments <> [] ->
     write_csv output_file Main.fieldnames comments = None /\
     exported tr = [(output_file, Main.fieldnames, comments)]).
Proof.
  unfold Main.export_to_csv. destruct comments as [|c cs].
  - intros [= <- <-]. split; [done|]. split; [done|]. split; [by left|].
    split; [discriminate|]. by intros u _ Hnil.
  - destruct (write_csv output_file Main.fieldnames (c :: cs)) as [e|] eqn:Hw;
      intros [= <- <-]; (split; [done|]); (split; [done|]); split.
    + by left.
    + split; [by intros e' [= <-]|discriminate].
    + by right.
    + split; [discriminate|done].
Qed.

(** X13.  Whatever the services answer, a run that returns has sent the
    channel search and at most one video search after it, and has sent
    requests for comments only after both.  It has set out to write at
    most one file, the stage-1 table, and only when [fetch_comments]
    returned comments; a write that completed wrote exactly those comments
    under the four columns.  (A write that failed may leave the file
    truncated or partly written: the trace has the attempt, not the state
    of the file.) *)
Theorem run_exports_what_was_fetched (fuel : nat) (src : St) o :
  Scraper.run search_list execute str_of write_csv fuel src = Some o ->
  let tr := Scraper.trace_of o in
  (searches tr = [Scraper.channel_kwargs Scraper.CHANNEL_QUERY] \/
   exists channel_id,
     searches tr = [Scraper.channel_kwargs Scraper.CHANNEL_QUERY;
                    Scraper.video_kwargs channel_id]) /\
  (Main.requests (collected tr) <> [] ->
   exists channel_id,
     searches tr = [Scraper.channel_kwargs Scraper.CHANNEL_QUERY;
                    Scraper.video_kwargs channel_id]) /\
  (attempted (collected tr) = [] /\ exported (collected tr) = [] \/
   exists video_id src2 f,
     Main.fetch_comments execute fuel video_id src2 = Some f /\
     Main.returned f <> [] /\
     attempted (collected tr) = [Main.OUTPUT_CSV] /\
     (exported (collected tr) = [] \/
      exported (collected tr)
      = [(Main.OUTPUT_CSV, Main.fieldnames, Main.returned f)])).
Proof.
  unfold Scraper.run.
  destruct (Scraper.find_channel _ _ src) as [[channel_id src1] tr1] eqn:Hfind.
  apply find_channel_trace in Hfind as [Hs1 Hc1].
  destruct (truthy channel_id); cbn [negb].
  2:{ intros [= <-]. cbn [Scraper.trace_of]. split_trace.
      rewrite Hs1, Hc1. cbn [app].
      split; [by left|]. split; [done|]. by left. }
  destruct (Scraper.get_latest_video _ channel_id src1)
    as [[video_id src2] tr2] eqn:Hvideo.
  apply get_latest_video_trace in Hvideo as [Hs2 Hc2].
  destruct (truthy video_id); cbn [negb].
  2:{ intros [= <-]. cbn [Scraper.trace_of]. split_trace.
      rewrite Hs1, Hc1, Hs2, Hc2. cbn [app].
      split; [right; by exists channel_id|]. split; [done|]. by left. }
  destruct (Main.fetch_comments execute fuel _ src2) as [f|] eqn:Hfetch; [|done].
  pose proof (fetch_comments_attempted _ _ _ _ _ Hfetch) as Hatt.
  pose proof Hfetch as Hinv. apply fetch_loop_inv in Hinv
    as (more & sent & Hmore & _ & _ & _ & Hexp & _).
  simpl in Hexp, Hmore.
  destruct (Main.returned f) as [|c cs] eqn:Hreturned.
  { intros [= <-]. cbn [Scraper.trace_of]. split_trace.
    rewrite Hs1, Hc1, Hs2, Hc2. cbn [app]. rewrite !app_nil_r.
    split; [right; by exists channel_id|]. split; [by exists channel_id|].
    by left. }
  destruct (Main.export_to_csv write_csv (c :: cs) Main.OUTPUT_CSV)
    as [r tr3] eqn:Hexport.
  apply export_to_csv_attempt in Hexport as (_ & Hopened & Hwritten & _).
  assert (Hfiles :
    attempted (Main.trace f ++ tr3) = [] /\ exported (Main.trace f ++ tr3) = [] \/
    exists video_id src2 f0,
      Main.fetch_comments execute fuel video_id src2 = Some f0 /\
      Main.returned f0 <> [] /\
      attempted (Main.trace f ++ tr3) = [Main.OUTPUT_CSV] /\
      (exported (Main.trace f ++ tr3) = [] \/
       exported (Main.trace f ++ tr3)
       = [(Main.OUTPUT_CSV, Main.fieldnames, Main.returned f0)])).
  { right. exists (Scraper.render str_of video_id), src2, f.
    split; [done|]. rewrite Hreturned. split; [done|].
    rewrite attempted_app, exported_app, Hatt, Hexp, Hopened. cbn [app].
    split; [done|]. destruct Hwritten as [->|[-> _]]; [by left|by right]. }
  destruct r as [u|e].
  - pose proof (print_summary_silent (c :: cs)) as Hsummary.
    destruct (Scraper.print_summary (c :: cs)) as [[u'|e] tr4];
      cbn [snd] in Hsummary; apply silent_quiet in Hsummary as [Hs4 Hc4];
      intros [= <-]; cbn [Scraper.trace_of]; split_trace;
      rewrite Hs1, Hc1, Hs2, Hc2, Hs4, Hc4; cbn [app]; rewrite !app_nil_r;
      (split; [right; by exists channel_id|]);
      (split; [by exists channel_id|]); exact Hfiles.
  - intros [= <-]. cbn [Scraper.trace_of]. split_trace.
    rewrite Hs1, Hc1, Hs2, Hc2. cbn [app]. rewrite ?app_nil_r.
    split; [right; by exists channel_id|]. split; [by exists channel_id|].
    exact Hfiles.
Qed.

End WorkflowFacts.

Section WorkflowFailures.
Context {St : Type}.
Variable search_list : gmap string value -> St -> result value * St.
Variable execute : string -> value -> St -> result value * St.
Variable str_of : value -> string.
Variable write_csv :
  string -> list string -> list (gmap string value) -> option exn.

(** X14.  [run] raises only after it has fetched comments and set out to
    write the table: either the write failed, and then it did not complete
    (the file may be left truncated or partly written) and no summary was
    made; or the write completed and [print_summary] raised on the comments
    fetched.  Failures of the searches and of the page requests never
    reach the caller. *)
Theorem run_raises_from_export_or_summary (fuel : nat) (src : St) o e :
  Scraper.run search_list execute str_of write_csv fuel src = Some o ->
  Scraper.result_of o = Raise e ->
  exists video_id src2 f,
    Main.fetch_comments execute fuel video_id src2 = Some f /\
    Main.returned f <> [] /\
    attempted (collected (Scraper.trace_of o)) = [Main.OUTPUT_CSV] /\
    (write_csv Main.OUTPUT_CSV Main.fieldnames (Main.returned f) = Some e /\
     exported (collected (Scraper.trace_of o)) = [] /\
     last (Scraper.trace_of o) = Some (Scraper.Collector (Main.LogErrorWriting e))
     \/
     write_csv Main.OUTPUT_CSV Main.fieldnames (Main.returned f) = None /\
     (Scraper.print_summary (Main.returned f)).1 = Raise e /\
     exported (collected (Scraper.trace_of o))
     = [(Main.OUTPUT_CSV, Main.fieldnames, Main.returned f)]).
Proof.
  unfold Scraper.run.
  destruct (Scraper.find_channel _ _ src) as [[channel_id src1] tr1] eqn:Hfind.
  apply find_channel_trace in Hfind as [Hs1 Hc1].
  destruct (truthy channel_id); cbn [negb]; [|by intros [= <-]].
  destruct (Scraper.get_latest_video _ channel_id src1)
    as [[video_id src2] tr2] eqn:Hvideo.
  apply get_latest_video_trace in Hvideo as [Hs2 Hc2].
  destruct (truthy video_id); cbn [negb]; [|by intros [= <-]].
  destruct (Main.fetch_comments execute fuel _ src2) as [f|] eqn:Hfetch; [|done].
  pose proof (fetch_comments_attempted _ _ _ _ _ Hfetch) as Hatt.
  pose proof Hfetch as Hinv. apply fetch_loop_inv in Hinv
    as (more & sent & Hmore & _ & _ & _ & Hexp & _).
  simpl in Hexp.
  destruct (Main.returned f) as [|c cs] eqn:Hreturned; [by intros [= <-]|].
  destruct (Main.export_to_csv write_csv (c :: cs) Main.OUTPUT_CSV)
    as [r tr3] eqn:Hexport.
  pose proof Hexport as Hlast.
  apply export_to_csv_attempt in Hexport as (_ & Hopened & _ & Hfailed & Hwritten).
  destruct r as [u|e'].
  - destruct (Hwritten u eq_refl) as [Hwrite Hfile]; [done|].
    pose proof (print_summary_silent (c :: cs)) as Hsummary.
    destruct (Scraper.print_summary (c :: cs)) as [[u'|e'] tr4] eqn:Hprint;
      [by intros [= <-]|].
    cbn [snd] in Hsummary. apply silent_quiet in Hsummary as [Hs4 Hc4].
    intros [= <-] [= <-]. cbn [Scraper.trace_of].
    exists (Scraper.render str_of video_id), src2, f.
    split; [done|]. rewrite Hreturned. split; [done|]. split_trace.
    rewrite Hc1, Hc2, Hc4. cbn [app]. rewrite !app_nil_r.
    rewrite attempted_app, exported_app, Hatt, Hexp, Hopened, Hfile.
    split; [done|]. right.
    split; [done|]. split; [by rewrite Hprint|done].
  - destruct (Hfailed e' eq_refl) as [Hwrite Hnone].
    intros [= <-] [= <-]. cbn [Scraper.trace_of].
    exists (Scraper.render str_of video_id), src2, f.
    split; [done|]. rewrite Hreturned. split; [done|]. split_trace.
    rewrite Hc1, Hc2. cbn [app]. rewrite ?app_nil_r.
    rewrite attempted_app, exported_app, Hatt, Hexp, Hopened, Hnone.
    split; [done|]. left.
    split; [done|]. split; [done|].
    revert Hlast. unfold Main.export_to_csv. rewrite Hwrite.
    intros [= <-]. by rewrite app_comm_cons, last_app.
Qed.

End WorkflowFailures.

Section ProgramFacts.
Context {St : Type}.
Variable exists_file : string -> bool.
Variable read_file : string -> result string.
Variable build : string -> string -> string -> result St.
Variable search_list : gmap string value -> St -> result value * St.
Variable execute : string -> value -> St -> result value * St.
Variable str_of : value -> string.
Variable write_csv :
  string -> list string -> list (gmap string value) -> option exn.

(** X15.  Without the key file, [main] raises [FileNotFoundError] after
    logging the fatal error and nothing else: no service is built, no
    request is sent and nothing is written, whatever the fuel. *)
Theorem main_without_key_file (fuel : nat) :
  exists_file Scraper.API_KEY_FILE = false ->
  Scraper.main exists_file read_file build search_list execute str_of write_csv fuel
  = Some (Raise FileNotFoundError, [Scraper.LogFatal FileNotFoundError]).
Proof.
  intros Hmissing. unfold Scraper.main, Scraper.init, Scraper.load_api_key.
  by rewrite Hmissing.
Qed.

(** X16.  A run of [main] that sends a search has read a key from the key
    file and built the service with the key stripped, which is not empty;
    and when [main] raises, the last line it logs is the fatal error it
    raises. *)
Theorem main_searches_with_key (fuel : nat) r tr :
  Scraper.main exists_file read_file build search_list execute str_of write_csv fuel
  = Some (r, tr) ->
  (searches tr <> [] ->
   exists raw youtube,
     exists_file Scraper.API_KEY_FILE = true /\
     read_file Scraper.API_KEY_FILE = Ok raw /\
     Scraper.strip raw <> "" /\
     build Scraper.YOUTUBE_API_SERVICE_NAME Scraper.YOUTUBE_API_VERSION
           (Scraper.strip raw) = Ok youtube) /\
  (forall e, r = Raise e -> last tr = Some (Scraper.LogFatal e)).
Proof.
  unfold Scraper.main, Scraper.init, Scraper.load_api_key.
  destruct (exists_file Scraper.API_KEY_FILE); cbn [negb];
    [|intros [= <- <-]; split; [done|by intros e [= <-]]].
  destruct (read_file Scraper.API_KEY_FILE) as [raw|e0]; cbn [mbind result_bind bind];
    [|intros [= <- <-]; split; [done|by intros e [= <-]]].
  destruct (String.eqb (Scraper.strip raw) "") eqn:Hblank;
    [intros [= <- <-]; split; [done|by intros e [= <-]]|].
  apply String.eqb_neq in Hblank.
  destruct (build _ _ _) as [youtube|e0] eqn:Hbuild;
    [|intros [= <- <-]; split; [done|by intros e [= <-]]].
  destruct (Scraper.run _ _ _ _ fuel youtube) as [o|]; [|done].
  destruct (Scraper.result_of o) as [u|e0]; intros [= <- <-].
  - split; [|done]. intros _. by exists raw, youtube.
  - split; [intros _; by exists raw, youtube|].
    intros e [= <-]. by rewrite !app_comm_cons, last_snoc.
Qed.

End ProgramFacts.

(** ** The further properties of stage 1 on concrete services *)

Lemma find_channel_first_result_witness :
  Scraper.find_channel directory "Pop the Balloon" [] =
  (VStr "UCshow", [],
   [Scraper.LogSearchingChannel "Pop the Balloon";
    Scraper.Search (Scraper.channel_kwargs "Pop the Balloon");
    Scraper.LogFoundChannels]
   ++ imap (fun j e => Scraper.LogFoundChannel (S j) e.1 e.2)
        [(VStr "Pop the Balloon", VStr "UCshow");
         (VStr "Pop the Balloon Fans", VStr "UCfans")]
   ++ [Scraper.LogUsingChannel (VStr "Pop the Balloon")]).
Proof.
  apply (find_channel_first_result directory "Pop the Balloon" [] []
           channels_found [channel_show; channel_fans]).
  - vm_compute; reflexivity.
  - vm_compute; reflexivity.
  - repeat constructor; vm_compute; reflexivity.
Defined.

Lemma find_channel_found_inv_witness :
  exists response items title entries,
    directory (Scraper.channel_kwargs "Pop the Balloon") []
    = (Ok (VDict response), []) /\
    response !! "items" = Some (VList items) /\
    Forall2 (fun item e => channel_entry item = Some e) items
            ((title, VStr "UCshow") :: entries).
Proof.
  destruct (Scraper.find_channel directory "Pop the Balloon" [])
    as [[channel_id src'] tr] eqn:Hfind.
  assert (Hid : channel_id = VStr "UCshow" /\ src' = []).
  { vm_compute in Hfind. injection Hfind as <- <- _. split; reflexivity. }
  destruct Hid as [-> ->].
  apply (find_channel_found_inv directory "Pop the Balloon" [] [] _ tr Hfind).
  discriminate.
Defined.

Lemma get_latest_video_first_result_witness :
  Scraper.get_latest_video directory (VStr "UCshow") [] =
  (VStr "ep42", [],
   [Scraper.LogFetchingLatest (VStr "UCshow");
    Scraper.Search (Scraper.video_kwargs (VStr "UCshow"));
    Scraper.LogLatestVideo (VStr "Episode 42") (VStr "ep42")]) /\
  Scraper.video_kwargs (VStr "UCshow") !! "channelId" = Some (VStr "UCshow") /\
  Scraper.video_kwargs (VStr "UCshow") !! "order" = Some (VStr "date") /\
  Scraper.video_kwargs (VStr "UCshow") !! "maxResults" = Some (VInt 1).
Proof.
  apply (get_latest_video_first_result directory (VStr "UCshow") [] []
           videos_found video_latest [video_untitled]).
  - vm_compute; reflexivity.
  - vm_compute; reflexivity.
  - vm_compute; reflexivity.
Defined.

Lemma get_latest_video_found_inv_witness :
  exists response item rest title,
    directory (Scraper.video_kwargs (VStr "UCshow")) []
    = (Ok (VDict response), []) /\
    response !! "items" = Some (VList (item :: rest)) /\
    video_entry item = Some (title, VStr "ep42").
Proof.
  destruct (Scraper.get_latest_video directory (VStr "UCshow") [])
    as [[video_id src'] tr] eqn:Hvideo.
  assert (Hid : video_id = VStr "ep42" /\ src' = []).
  { vm_compute in Hvideo. injection Hvideo as <- <- _. split; reflexivity. }
  destruct Hid as [-> ->].
  apply (get_latest_video_found_inv directory (VStr "UCshow") [] [] _ tr Hvideo).
  discriminate.
Defined.


Lemma load_api_key_missing_or_blank_witness :
  Scraper.load_api_key key_file_missing key_file_padded = Raise FileNotFoundError /\
  Scraper.load_api_key key_file_there key_file_blank = Raise ValueError.
Proof.
  split.
  - apply (proj1 (load_api_key_missing_or_blank key_file_missing key_file_padded)).
    reflexivity.
  - apply (proj2 (load_api_key_missing_or_blank key_file_there key_file_blank)
             (String (ascii_of_nat 32) (String (ascii_of_nat 10) ""))).
    + reflexivity.
    + reflexivity.
    + repeat constructor.
Defined.


Lemma print_summary_likes_not_a_number_witness :
  Scraper.print_summary [comment_ana; comment_odd] = (Raise TypeError, []).
Proof.
  apply (print_summary_likes_not_a_number [comment_ana; comment_odd]).
  - repeat constructor; eexists; vm_compute; reflexivity.
  - apply Exists_cons_tl, Exists_cons_hd.
    exists (VStr "many"). split; [vm_compute; reflexivity|reflexivity].
Defined.

Lemma run_exports_what_was_fetched_witness :
  exists o,
    Scraper.run directory scripted no_text writable 5
                [Ok page_ana_more; Ok page_ben_last] = Some o /\
    let tr := Scraper.trace_of o in
    (searches tr = [Scraper.channel_kwargs Scraper.CHANNEL_QUERY] \/
     exists channel_id,
       searches tr = [Scraper.channel_kwargs Scraper.CHANNEL_QUERY;
                      Scraper.video_kwargs channel_id]) /\
    (Main.requests (collected tr) <> [] ->
     exists channel_id,
       searches tr = [Scraper.channel_kwargs Scraper.CHANNEL_QUERY;
                      Scraper.video_kwargs channel_id]) /\
    (attempted (collected tr) = [] /\ exported (collected tr) = [] \/
     exists video_id src2 f,
       Main.fetch_comments scripted 5 video_id src2 = Some f /\
       Main.returned f <> [] /\
       attempted (collected tr) = [Main.OUTPUT_CSV] /\
       (exported (collected tr) = [] \/
        exported (collected tr)
        = [(Main.OUTPUT_CSV, Main.fieldnames, Main.returned f)])).
Proof.
  destruct (Scraper.run directory scripted no_text writable 5
              [Ok page_ana_more; Ok page_ben_last]) as [o|] eqn:Hrun;
    [|vm_compute in Hrun; discriminate].
  exists o. split; [reflexivity|].
  exact (run_exports_what_was_fetched directory scripted no_text writable 5 _ o Hrun).
Defined.

Lemma run_raises_from_export_or_summary_witness :
  exists o,
    Scraper.run directory scripted no_text read_only 5 [Ok page_ana_only] = Some o /\
    Scraper.result_of o = Raise OSError /\
    exists video_id src2 f,
      Main.fetch_comments scripted 5 video_id src2 = Some f /\
      Main.returned f <> [] /\
      attempted (collected (Scraper.trace_of o)) = [Main.OUTPUT_CSV] /\
      (read_only Main.OUTPUT_CSV Main.fieldnames (Main.returned f) = Some OSError /\
       exported (collected (Scraper.trace_of o)) = [] /\
       last (Scraper.trace_of o)
       = Some (Scraper.Collector (Main.LogErrorWriting OSError))
       \/
       read_only Main.OUTPUT_CSV Main.fieldnames (Main.returned f) = None /\
       (Scraper.print_summary (Main.returned f)).1 = Raise OSError /\
       exported (collected (Scraper.trace_of o))
       = [(Main.OUTPUT_CSV, Main.fieldnames, Main.returned f)]).
Proof.
  destruct (Scraper.run directory scripted no_text read_only 5 [Ok page_ana_only])
    as [o|] eqn:Hrun; [|vm_compute in Hrun; discriminate].
  assert (Hraised : Scraper.result_of o = Raise OSError).
  { vm_compute in Hrun. injection Hrun as <-. reflexivity. }
  exists o. split; [reflexivity|]. split; [exact Hraised|].
  exact (run_raises_from_export_or_summary directory scripted no_text read_only 5 _ o
           OSError Hrun Hraised).
Defined.

Lemma main_without_key_file_witness :
  Scraper.main key_file_missing key_file_padded (built_with [Ok page_ana_only])
               directory scripted no_text writable 5
  = Some (Raise FileNotFoundError, [Scraper.LogFatal FileNotFoundError]).
Proof.
  apply (main_without_key_file key_file_missing key_file_padded
           (built_with [Ok page_ana_only]) directory scripted no_text writable 5).
  reflexivity.
Defined.

Lemma main_searches_with_key_witness :
  exists r tr,
    Scraper.main key_file_there key_file_padded (built_with [Ok page_odd_last])
                 directory scripted no_text writable 5 = Some (r, tr) /\
    (searches tr <> [] ->
     exists raw youtube,
       key_file_there Scraper.API_KEY_FILE = true /\
       key_file_padded Scraper.API_KEY_FILE = Ok raw /\
       Scraper.strip raw <> "" /\
       built_with [Ok page_odd_last] Scraper.YOUTUBE_API_SERVICE_NAME
                  Scraper.YOUTUBE_API_VERSION (Scraper.strip raw) = Ok youtube) /\
    (forall e, r = Raise e -> last tr = Some (Scraper.LogFatal e)).
Proof.
  destruct (Scraper.main key_file_there key_file_padded
              (built_with [Ok page_odd_last]) directory scripted no_text writable 5)
    as [[r tr]|] eqn:Hmain; [|vm_compute in Hmain; discriminate].
  exists r, tr. split; [reflexivity|].
  exact (main_searches_with_key key_file_there key_file_padded
           (built_with [Ok page_odd_last]) directory scripted no_text writable 5
           r tr Hmain).
Defined.

(** * Further properties of stage 2 *)

(** ** The analysis *)

Lemma scored_texts_log ev self :
  scored_texts (trace (log ev self)) =
  scored_texts (trace self) ++ match ev with Scored t => [t] | _ => [] end.
Proof. unfold scored_texts, log. simpl. rewrite omap_app. by destruct ev. Qed.

Lemma progress_log ev self :
  progress (trace (log ev self)) =
  progress (trace self) ++ match ev with LogProcessed i n => [(i, n)] | _ => [] end.
Proof. unfold progress, log. simpl. rewrite omap_app. by destruct ev. Qed.

Lemma written_tables_log ev self :
  written_tables (trace (log ev self)) =
  written_tables (trace self)
  ++ match ev with Wrote f fields rows => [(f, fields, rows)] | _ => [] end.
Proof. unfold written_tables, log. simpl. rewrite omap_app. by destruct ev. Qed.

Lemma attempted_tables_log ev self :
  attempted_tables (trace (log ev self)) =
  attempted_tables (trace self)
  ++ match ev with LogExporting _ f => [f] | _ => [] end.
Proof. unfold attempted_tables, log. simpl. rewrite omap_app. by destruct ev. Qed.

Section AnalysisTrace.

Variable polarity_scores : value -> result scores.

Lemma analyze_columns comment analyzed :
  analyze polarity_scores comment = Ok analyzed ->
  dom analyzed = list_to_set fieldnames.
Proof.
  unfold analyze. destruct (polarity_scores _) as [s|e]; [|done].
  cbn [mbind result_bind bind mret result_ret]. intros [= <-].
  rewrite !dom_insert_L, dom_empty_L. unfold fieldnames.
  cbn [list_to_set foldr]. set_solver.
Qed.

(** What the loop leaves in the trace when it returns *)
Lemma analyze_from_trace todo :
  forall i n self u self',
  analyze_from polarity_scores i n todo self = (Ok u, self') ->
  scored_texts (trace self') = scored_texts (trace self) ++ (text_of <$> todo) /\
  progress (trace self')
  = progress (trace self)
    ++ ((fun j => (j, n)) <$> filter (fun j => j mod 500 = 0) (seq i (length todo))) /\
  written_tables (trace self') = written_tables (trace self).
Proof.
  induction todo as [|c rest IH]; intros i n self u self'.
  - simpl. intros [= <- <-]. by rewrite !app_nil_r.
  - cbn [analyze_from].
    destruct (analyze polarity_scores c) as [a|e]; [|done].
    intros H. apply IH in H as (Hs & Hp & Hw).
    cbn [trace append_analyzed] in Hs, Hp, Hw.
    rewrite Hs, Hp, Hw, scored_texts_log, progress_log, written_tables_log.
    cbn [length seq]. rewrite filter_cons.
    destruct (i mod 500 =? 0)%nat eqn:Hi.
    + apply Nat.eqb_eq in Hi.
      rewrite scored_texts_log, progress_log, written_tables_log.
      rewrite decide_True by done.
      rewrite fmap_cons, !app_nil_r, <- !app_assoc. done.
    + apply Nat.eqb_neq in Hi. rewrite decide_False by done.
      rewrite fmap_cons, !app_nil_r, <- !app_assoc. done.
Qed.

(** What the loop leaves when the scorer raises on one comment *)
Lemma analyze_from_Raise before c after e :
  forall l, mapM (analyze polarity_scores) before = Ok l ->
  polarity_scores (text_of c) = Raise e ->
  forall i n self,
  exists self',
    analyze_from polarity_scores i n (before ++ c :: after) self = (Raise e, self') /\
    comments self' = comments self /\
    analyzed_comments self' = analyzed_comments self ++ l /\
    scored_texts (trace self')
    = scored_texts (trace self) ++ (text_of <$> before) ++ [text_of c] /\
    written_tables (trace self') = written_tables (trace self) /\
    last (trace self') = Some (Scored (text_of c)).
Proof.
  induction before as [|b before IH]; intros l Hl Hc i n self.
  - injection Hl as <-. cbn [app analyze_from].
    assert (Hraise : analyze polarity_scores c = Raise e).
    { unfold analyze. fold (text_of c). by rewrite Hc. }
    rewrite Hraise. eexists. split; [reflexivity|].
    fold (text_of c).
    destruct (i mod 500 =? 0)%nat;
      rewrite ?scored_texts_log, ?written_tables_log, ?app_nil_r;
      cbn [comments analyzed_comments trace log];
      rewrite ?app_nil_r, last_snoc; done.
  - apply mapM_cons_Ok in Hl as (a & l' & Ha & Hl' & ->).
    cbn [app analyze_from]. rewrite Ha.
    edestruct (IH l' Hl' Hc (S i) n) as (self' & -> & Hcs & Han & Hs & Hw & Hlast).
    exists self'. split; [reflexivity|].
    rewrite Hcs, Han, Hs, Hw, Hlast. fold (text_of b).
    cbn [comments analyzed_comments trace append_analyzed].
    destruct (i mod 500 =? 0)%nat;
      rewrite ?scored_texts_log, ?written_tables_log, ?app_nil_r;
      cbn [comments analyzed_comments trace log];
      rewrite fmap_cons, <- ?app_assoc; done.
Qed.

(** X17.  Every record [analyze_comments] appends has exactly the nine
    columns that [export_to_csv] writes, whatever the loaded comment
    holds. *)
Theorem analyze_comments_columns (self self' : analyzer) :
  analyze_comments polarity_scores self = (Ok (), self') ->
  exists l,
    analyzed_comments self' = analyzed_comments self ++ l /\
    length l = length (comments self) /\
    Forall (fun a => dom a = list_to_set fieldnames) l.
Proof.
  intros H. apply analyze_comments_Ok_inv in H as (l & Hl & ->).
  exists l. split; [done|]. apply mapM_Ok_Forall2 in Hl.
  split; [symmetry; by eapply Forall2_length|].
  induction Hl as [|c a cs l Ha _ IH]; constructor; [|done].
  by eapply analyze_columns.
Qed.

(** X19.  When the scorer raises on one comment, [analyze_comments]
    raises the same exception right after that call: the records of the
    comments before it have been appended, the comments after it are
    never scored, the completion is not logged and nothing is written. *)
Theorem analyze_comments_scorer_failure (self : analyzer)
    (before after : list (gmap string value)) (c : gmap string value) (e : exn) :
  comments self = before ++ c :: after ->
  Forall (fun b => exists s, polarity_scores (text_of b) = Ok s) before ->
  polarity_scores (text_of c) = Raise e ->
  exists self' l,
    analyze_comments polarity_scores self = (Raise e, self') /\
    comments self' = comments self /\
    analyzed_comments self' = analyzed_comments self ++ l /\
    length l = length before /\
    scored_texts (trace self')
    = scored_texts (trace self) ++ (text_of <$> before) ++ [text_of c] /\
    written_tables (trace self') = written_tables (trace self) /\
    last (trace self') = Some (Scored (text_of c)).
Proof.
  intros Hcomments Hbefore Hc.
  assert (Hl : exists l, mapM (analyze polarity_scores) before = Ok l).
  { clear Hcomments. induction Hbefore as [|b bs [s Hs] _ [l IH]]; [by exists []|].
    eexists. apply mapM_cons_Ok. do 2 eexists. split; [|split; [exact IH|done]].
    unfold analyze. fold (text_of b). by rewrite Hs. }
  destruct Hl as [l Hl].
  destruct (analyze_from_Raise before c after e l Hl Hc 1
              (length (comments self)) (log LogAnalyzing self))
    as (self' & Hrun & Hcs & Han & Hs & Hw & Hlast).
  exists self', l. unfold analyze_comments.
  change (comments (log LogAnalyzing self)) with (comments self) in *.
  rewrite Hcomments at 2. rewrite Hrun. split; [done|].
  rewrite Hcs, Han, Hs, Hw, Hlast, scored_texts_log, written_tables_log, !app_nil_r.
  repeat split; try done.
  apply mapM_Ok_Forall2 in Hl. symmetry. by eapply Forall2_length.
Qed.

(** X20.  A run of [analyze_comments] that returns has called the scorer
    once per loaded comment, in order, on the comment's text (the empty
    text for a comment without one); it has logged progress at the
    comments whose rank is a multiple of 500 and at no other, and its last
    line gives the number of analyzed records. *)
Theorem analyze_comments_scores_each_once (self self' : analyzer) :
  analyze_comments polarity_scores self = (Ok (), self') ->
  scored_texts (trace self')
  = scored_texts (trace self) ++ (text_of <$> comments self) /\
  progress (trace self')
  = progress (trace self)
    ++ ((fun j => (j, length (comments self)))
        <$> filter (fun j => j mod 500 = 0) (seq 1 (length (comments self)))) /\
  last (trace self') = Some (LogCompleted (length (analyzed_comments self'))).
Proof.
  unfold analyze_comments.
  destruct (analyze_from _ _ _ _ _) as [[u|e] self1] eqn:Hloop; [|done].
  intros [= <-]. apply analyze_from_trace in Hloop as (Hs & Hp & _).
  rewrite scored_texts_log, progress_log, Hs, Hp.
  rewrite scored_texts_log, progress_log, !app_nil_r.
  repeat split; try done. cbn [trace log]. by rewrite last_snoc.
Qed.

End AnalysisTrace.

(** ** The workflow of stage 2 *)

Section WorkflowTwo.

Variable polarity_scores : value -> result scores.
Variable int_of_str : string -> option Z.
Variable read_csv : string -> result (list (gmap string value)).
Variable write_csv :
  string -> list string -> list (gmap string value) -> option exn.

Lemma analyze_Raise_inv c e :
  analyze polarity_scores c = Raise e -> polarity_scores (text_of c) = Raise e.
Proof.
  unfold analyze. fold (text_of c).
  destruct (polarity_scores (text_of c)) as [s|e0];
    cbn [mbind result_bind bind mret result_ret]; [discriminate|].
  by intros [= ->].
Qed.

(** The loop touches no file, whether it returns or raises; when it raises,
    the scorer raised on one of the comments. *)
Lemma analyze_from_files todo :
  forall i n self r self',
  analyze_from polarity_scores i n todo self = (r, self') ->
  attempted_tables (trace self') = attempted_tables (trace self) /\
  written_tables (trace self') = written_tables (trace self) /\
  forall e, r = Raise e ->
    exists before c after,
      todo = before ++ c :: after /\ polarity_scores (text_of c) = Raise e.
Proof.
  induction todo as [|c rest IH]; intros i n self r self'.
  - intros [= <- <-]. by repeat split.
  - cbn [analyze_from].
    assert (Hsame :
      attempted_tables
        (trace (log (Scored (default (VStr "") (c !! "comment_text")))
                    (if (i mod 500 =? 0)%nat
                     then log (LogProcessed i n) self else self)))
      = attempted_tables (trace self) /\
      written_tables
        (trace (log (Scored (default (VStr "") (c !! "comment_text")))
                    (if (i mod 500 =? 0)%nat
                     then log (LogProcessed i n) self else self)))
      = written_tables (trace self)).
    { destruct (i mod 500 =? 0)%nat;
        by rewrite ?attempted_tables_log, ?written_tables_log, ?app_nil_r. }
    destruct Hsame as [Ha Hw].
    destruct (analyze polarity_scores c) as [a|e'] eqn:Hc.
    + intros H. apply IH in H as (-> & -> & Hraise).
      split; [exact Ha|]. split; [exact Hw|].
      intros e He. destruct (Hraise e He) as (before & c' & after & -> & Hc').
      by exists (c :: before), c', after.
    + intros [= <- <-]. split; [done|]. split; [done|].
      intros e [= <-]. exists [], c, rest. split; [done|].
      by apply analyze_Raise_inv.
Qed.

Lemma analyze_comments_files self r self' :
  analyze_comments polarity_scores self = (r, self') ->
  attempted_tables (trace self') = attempted_tables (trace self) /\
  written_tables (trace self') = written_tables (trace self) /\
  forall e, r = Raise e ->
    exists before c after,
      comments self = before ++ c :: after /\
      polarity_scores (text_of c) = Raise e.
Proof.
  unfold analyze_comments.
  destruct (analyze_from _ _ _ _ _) as [[u|e] self1] eqn:Hloop;
    apply analyze_from_files in Hloop as (Ha & Hw & Hraise); intros [= <- <-].
  - rewrite attempted_tables_log, written_tables_log, !app_nil_r, Ha, Hw.
    rewrite attempted_tables_log, written_tables_log, !app_nil_r.
    by repeat split.
  - rewrite Ha, Hw, attempted_tables_log, written_tables_log, !app_nil_r.
    split; [done|]. split; [done|]. intros e' [= <-]. by apply Hraise.
Qed.

Lemma load_comments_files input_file self b self' :
  load_comments read_csv input_file self = (b, self') ->
  attempted_tables (trace self') = attempted_tables (trace self) /\
  written_tables (trace self') = written_tables (trace self) /\
  analyzed_comments self' = analyzed_comments self /\
  (b = true -> exists rows, read_csv input_file = Ok rows /\ comments self' = rows).
Proof.
  unfold load_comments. destruct (read_csv input_file) as [rows|e].
  - intros [= <- <-]. rewrite attempted_tables_log, written_tables_log, !app_nil_r.
    change (trace (set_comments rows (log (LogLoading input_file) self)))
      with (trace (log (LogLoading input_file) self)).
    rewrite attempted_tables_log, written_tables_log, !app_nil_r.
    repeat split. intros _. by exists rows.
  - destruct e; intros [= <- <-];
      rewrite !attempted_tables_log, !written_tables_log, !app_nil_r;
      by repeat split.
Qed.

(** The export sets out to write when there is something to export, and
    records the write when it completed. *)
Lemma export_to_csv_files output_file self r self' :
  export_to_csv write_csv output_file self = (r, self') ->
  comments self' = comments self /\
  analyzed_comments self' = analyzed_comments self /\
  attempted_tables (trace self')
  = attempted_tables (trace self)
    ++ match analyzed_comments self with [] => [] | _ => [output_file] end /\
  match r with
  | Ok _ =>
      written_tables (trace self')
      = written_tables (trace self)
        ++ match analyzed_comments self with
           | [] => []
           | _ => [(output_file, fieldnames, analyzed_comments self)]
           end /\
      (analyzed_comments self <> [] ->
       write_csv output_file fieldnames (analyzed_comments self) = None)
  | Raise e =>
      analyzed_comments self <> [] /\
      write_csv output_file fieldnames (analyzed_comments self) = Some e /\
      written_tables (trace self') = written_tables (trace self) /\
      last (trace self') = Some (LogErrorWriting e)
  end.
Proof.
  unfold export_to_csv. destruct (analyzed_comments self) as [|a l] eqn:Han.
  - intros [= <- <-]. rewrite attempted_tables_log, written_tables_log.
    cbn [comments analyzed_comments log]. rewrite ?Han. by repeat split.
  - cbn [comments analyzed_comments log]. rewrite Han.
    destruct (write_csv output_file fieldnames (a :: l)) as [e|] eqn:Hw;
      intros [= <- <-]; cbn [comments analyzed_comments log];
      rewrite !attempted_tables_log, !written_tables_log, ?app_nil_r, ?Han;
      cbn [analyzed_comments log trace]; rewrite ?Han, ?last_snoc;
      by repeat split.
Qed.

Ltac bind_inv H :=
  repeat match type of H with
         | (?r ≫= _) = Ok _ =>
             let Hr := fresh "Hr" in
             destruct r eqn:Hr; cbn [mbind result_bind bind] in H; [|discriminate H]
         end.

Lemma distribution_line t n s line :
  distribution t n s = Ok line ->
  exists count percentage avg_likes avg_replies,
    line = LogDistribution s count percentage avg_likes avg_replies.
Proof.
  unfold distribution. intros H. bind_inv H. injection H as <-. eauto.
Qed.

Lemma totals_header cs t header :
  totals int_of_str cs = Ok (t, header) ->
  exists total_likes total_replies avg_compound,
    header = LogTotals (length cs) total_likes total_replies avg_compound.
Proof.
  unfold totals. intros H. bind_inv H. injection H as <- <-. eauto.
Qed.

Lemma distributions_files t n todo :
  forall self r self',
  distributions t n todo self = (r, self') ->
  comments self' = comments self /\
  analyzed_comments self' = analyzed_comments self /\
  attempted_tables (trace self') = attempted_tables (trace self) /\
  written_tables (trace self') = written_tables (trace self).
Proof.
  induction todo as [|s rest IH]; intros self r self'; cbn [distributions].
  - by intros [= <- <-].
  - destruct (distribution t n s) as [line|e] eqn:Hline; [|by intros [= <- <-]].
    apply distribution_line in Hline as (c & p & al & ar & ->).
    intros H. apply IH in H as (-> & -> & -> & ->).
    by rewrite attempted_tables_log, written_tables_log, !app_nil_r.
Qed.

Lemma print_summary_files self r self' :
  print_summary int_of_str self = (r, self') ->
  comments self' = comments self /\
  analyzed_comments self' = analyzed_comments self /\
  attempted_tables (trace self') = attempted_tables (trace self) /\
  written_tables (trace self') = written_tables (trace self).
Proof.
  unfold print_summary. destruct (analyzed_comments self) as [|a l] eqn:Han.
  - intros [= <- <-]. rewrite attempted_tables_log, written_tables_log, !app_nil_r.
    by rewrite <- Han.
  - destruct (totals int_of_str (a :: l)) as [[t header]|e] eqn:Htotals;
      [|intros [= <- <-]; by rewrite Han].
    apply totals_header in Htotals as (tl & tr & avg & ->).
    intros H. apply distributions_files in H as (-> & -> & -> & ->).
    rewrite attempted_tables_log, written_tables_log, !app_nil_r.
    cbn [comments analyzed_comments log]. by rewrite Han.
Qed.

(** X21.  Whatever the scorer and the files do, [run] sets out to write at
    most one file, the output table, and only after every row read was
    analyzed and when there is an analyzed record; a write that completed
    wrote all the analyzed records, the analyses of the rows read appended
    in order to those the analyzer had, under the nine columns.  (A write
    that failed may leave the file truncated or partly written: the trace
    has the attempt, not the state of the file.) *)
Theorem run_writes_what_was_analyzed (self : analyzer) r self' :
  run polarity_scores int_of_str read_csv write_csv self = (r, self') ->
  attempted_tables (trace self') = attempted_tables (trace self) /\
  written_tables (trace self') = written_tables (trace self) \/
  exists rows l,
    read_csv INPUT_CSV = Ok rows /\
    mapM (analyze polarity_scores) rows = Ok l /\
    analyzed_comments self' = analyzed_comments self ++ l /\
    analyzed_comments self' <> [] /\
    attempted_tables (trace self') = attempted_tables (trace self) ++ [OUTPUT_CSV] /\
    (written_tables (trace self') = written_tables (trace self) \/
     written_tables (trace self')
     = written_tables (trace self)
       ++ [(OUTPUT_CSV, fieldnames, analyzed_comments self')]).
Proof.
  unfold run.
  destruct (load_comments read_csv INPUT_CSV (log LogStarting self))
    as [b self1] eqn:Hload.
  apply load_comments_files in Hload as (Ha1 & Hw1 & Han1 & Hrows).
  rewrite attempted_tables_log, written_tables_log, !app_nil_r in *.
  cbn [analyzed_comments log] in Han1.
  destruct b; [|intros [= <- <-]; by left].
  destruct (Hrows eq_refl) as (rows & Hread & Hcomments).
  destruct (analyze_comments polarity_scores self1) as [[u|e] self2] eqn:Hanalyze.
  2:{ intros [= <- <-]. left.
      apply analyze_comments_files in Hanalyze as (-> & -> & _). by split. }
  pose proof (analyze_comments_files _ _ _ Hanalyze) as (Ha2 & Hw2 & _).
  apply analyze_comments_Ok_inv in Hanalyze as (l & Hl & Han2).
  rewrite Hcomments in Hl. rewrite Han1 in Han2.
  destruct (export_to_csv write_csv OUTPUT_CSV self2) as [r3 self3] eqn:Hexport.
  apply export_to_csv_files in Hexport as (_ & Han3 & Ha3 & Hexport).
  assert (Hfinal : forall self4,
    analyzed_comments self4 = analyzed_comments self3 ->
    attempted_tables (trace self4) = attempted_tables (trace self3) ->
    written_tables (trace self4) = written_tables (trace self3) ->
    attempted_tables (trace self4) = attempted_tables (trace self) /\
    written_tables (trace self4) = written_tables (trace self) \/
    exists rows0 l0,
      read_csv INPUT_CSV = Ok rows0 /\
      mapM (analyze polarity_scores) rows0 = Ok l0 /\
      analyzed_comments self4 = analyzed_comments self ++ l0 /\
      analyzed_comments self4 <> [] /\
      attempted_tables (trace self4)
      = attempted_tables (trace self) ++ [OUTPUT_CSV] /\
      (written_tables (trace self4) = written_tables (trace self) \/
       written_tables (trace self4)
       = written_tables (trace self)
         ++ [(OUTPUT_CSV, fieldnames, analyzed_comments self4)])).
  { intros self4 Han4 Ha4 Hw4. rewrite Ha4, Hw4, Han4, Ha3, Han3, Ha2, Ha1.
    destruct (analyzed_comments self2) as [|a l'] eqn:Hsome.
    - left. rewrite app_nil_r. split; [done|].
      destruct r3 as [u3|e]; [|by destruct Hexport].
      destruct Hexport as [-> _]. by rewrite app_nil_r, Hw2, Hw1.
    - right. exists rows, l. split; [done|]. split; [done|].
      split; [by rewrite <- Han2|]. split; [done|]. split; [done|].
      destruct r3 as [u3|e].
      + right. destruct Hexport as [-> _]. by rewrite Hw2, Hw1.
      + left. destruct Hexport as (_ & _ & -> & _). by rewrite Hw2, Hw1. }
  destruct r3 as [u3|e]; [|intros [= <- <-]; by apply Hfinal].
  destruct (print_summary int_of_str self3) as [[u4|e] self4] eqn:Hsummary;
    apply print_summary_files in Hsummary as (_ & Han4 & Ha4 & Hw4);
    intros [= <- <-]; apply Hfinal;
    rewrite ?attempted_tables_log, ?written_tables_log, ?app_nil_r; done.
Qed.

(** X22.  [run] raises in three cases only, each after the input was read:
    the scorer raised on a row, and then no file was touched; the write
    failed after [run] had set out to write the table, which did not
    complete (the file may be left truncated or partly written) and is
    logged last; or the write completed and the summary raised.  A failure
    to read the input is not among them. *)
Theorem run_raises_inv (self : analyzer) e self' :
  run polarity_scores int_of_str read_csv write_csv self = (Raise e, self') ->
  exists rows,
    read_csv INPUT_CSV = Ok rows /\
    ((exists before c after,
         rows = before ++ c :: after /\
         polarity_scores (text_of c) = Raise e /\
         attempted_tables (trace self') = attempted_tables (trace self) /\
         written_tables (trace self') = written_tables (trace self))
     \/
     (exists l,
         mapM (analyze polarity_scores) rows = Ok l /\
         analyzed_comments self ++ l <> [] /\
         write_csv OUTPUT_CSV fieldnames (analyzed_comments self ++ l) = Some e /\
         attempted_tables (trace self')
         = attempted_tables (trace self) ++ [OUTPUT_CSV] /\
         written_tables (trace self') = written_tables (trace self) /\
         last (trace self') = Some (LogErrorWriting e))
     \/
     (exists l self1,
         mapM (analyze polarity_scores) rows = Ok l /\
         analyzed_comments self ++ l <> [] /\
         write_csv OUTPUT_CSV fieldnames (analyzed_comments self ++ l) = None /\
         analyzed_comments self1 = analyzed_comments self ++ l /\
         (print_summary int_of_str self1).1 = Raise e /\
         attempted_tables (trace self')
         = attempted_tables (trace self) ++ [OUTPUT_CSV] /\
         written_tables (trace self')
         = written_tables (trace self)
           ++ [(OUTPUT_CSV, fieldnames, analyzed_comments self ++ l)])).
Proof.
  unfold run.
  destruct (load_comments read_csv INPUT_CSV (log LogStarting self))
    as [b self1] eqn:Hload.
  apply load_comments_files in Hload as (Ha1 & Hw1 & Han1 & Hrows).
  rewrite attempted_tables_log, written_tables_log, !app_nil_r in *.
  cbn [analyzed_comments log] in Han1.
  destruct b; [|done].
  destruct (Hrows eq_refl) as (rows & Hread & Hcomments).
  intros Hrun. exists rows. split; [done|]. revert Hrun.
  destruct (analyze_comments polarity_scores self1) as [[u|e0] self2] eqn:Hanalyze.
  2:{ intros [= <- <-]. left.
      apply analyze_comments_files in Hanalyze as (-> & -> & Hraise).
      destruct (Hraise e0 eq_refl) as (before & c & after & Hc & He).
      exists before, c, after. rewrite Hcomments in Hc. by repeat split. }
  pose proof (analyze_comments_files _ _ _ Hanalyze) as (Ha2 & Hw2 & _).
  apply analyze_comments_Ok_inv in Hanalyze as (l & Hl & Han2).
  rewrite Hcomments in Hl. rewrite Han1 in Han2.
  destruct (export_to_csv write_csv OUTPUT_CSV self2) as [r3 self3] eqn:Hexport.
  apply export_to_csv_files in Hexport as (_ & Han3 & Ha3 & Hexport).
  rewrite Han2 in *.
  destruct r3 as [u3|e0].
  2:{ intros [= <- <-]. right. left.
      destruct Hexport as (Hsome & Hwrite & Hw3 & Hlast).
      exists l. split; [done|]. split; [done|]. split; [done|].
      split; [|split; [congruence|done]].
      rewrite Ha3, Ha2, Ha1. by destruct (analyzed_comments self ++ l). }
  destruct Hexport as [Hw3 Hwrite].
  destruct (print_summary int_of_str self3) as [[u4|e0] self4] eqn:Hsummary; [done|].
  intros [= <- <-]. right. right.
  pose proof Hsummary as Hraised.
  apply print_summary_files in Hsummary as (_ & Han4 & Ha4 & Hw4).
  assert (Hsome : analyzed_comments self ++ l <> []).
  { intros Hnil. revert Hraised. unfold print_summary. by rewrite Han3, Hnil. }
  exists l, self3. split; [done|]. split; [done|].
  split; [by apply Hwrite|]. split; [done|]. split; [by rewrite Hraised|].
  rewrite Ha4, Hw4, Ha3, Hw3, Ha2, Hw2, Ha1, Hw1.
  by destruct (analyzed_comments self ++ l).
Qed.

(** X23.  An input file without rows: [main] scores nothing, writes
    nothing, logs that there is nothing to export and nothing to
    summarize, and still reports that the workflow completed. *)
Theorem main_empty_input :
  read_csv INPUT_CSV = Ok [] ->
  main polarity_scores int_of_str read_csv write_csv =
  (Ok (),
   {| comments := [];
      analyzed_comments := [];
      trace := [LogStarting; LogLoading INPUT_CSV; LogLoaded 0; LogAnalyzing;
                LogCompleted 0; LogNoAnalyzedToExport; LogNoCommentsToSummarize;
                LogWorkflowCompleted] |}).
Proof.
  intros Hread. unfold main, run, load_comments. rewrite Hread. reflexivity.
Qed.

End WorkflowTwo.

(** ** The sums of the summary *)

Section SummarySums.
Local Open Scope Q_scope.

Variable int_of_str : string -> option Z.

Lemma labelled_cons s a cs :
  labelled s (a :: cs)
  = if decide (label_of a = Some s) then a :: labelled s cs else labelled s cs.
Proof. unfold labelled. by rewrite filter_cons. Qed.

Lemma int_at_Ok k a n :
  item a k ≫= int int_of_str = Ok n -> int_at int_of_str k a = n.
Proof. unfold int_at. by intros ->. Qed.

Lemma sum_int_exact k cs :
  Forall (fun a => exists n, item a k ≫= int int_of_str = Ok n) cs ->
  forall acc, sum_int int_of_str k acc cs = Ok (acc + sum_at int_of_str k cs)%Z.
Proof.
  induction 1 as [|a cs [n Hn] _ IH]; intros acc; cbn [sum_int sum_at foldr].
  - by rewrite Z.add_0_r.
  - rewrite Hn. cbn [mbind result_bind bind]. rewrite IH.
    rewrite (int_at_Ok _ _ _ Hn). by rewrite Z.add_assoc.
Qed.

(** One scored comment adds its likes and replies under its own label *)
Lemma tally_comment_sums t a :
  keyed t -> scored int_of_str a ->
  exists t',
    tally_comment int_of_str t a = Ok t' /\
    forall s, s ∈ sentiments ->
      sentiment_likes t' !! s =
      (fun n => (n + sum_at int_of_str "likes" (labelled s [a]))%Z)
        <$> sentiment_likes t !! s /\
      sentiment_replies t' !! s =
      (fun n => (n + sum_at int_of_str "reply_count" (labelled s [a]))%Z)
        <$> sentiment_replies t !! s.
Proof.
  intros Hkeys ([s0 [Hs0 Hlabel]] & [n Hn] & [m Hm] & _).
  destruct (Hkeys s0 Hs0) as ([c Hc] & [l Hl] & [r Hr]).
  pose proof (int_at_Ok _ _ _ Hn) as Hn'. pose proof (int_at_Ok _ _ _ Hm) as Hm'.
  unfold tally_comment, item. rewrite Hlabel. simpl.
  rewrite Hc, Hl, Hr. simpl. unfold item in Hn, Hm. rewrite Hn, Hm. simpl.
  eexists. split; [reflexivity|].
  intros s Hs. simpl. rewrite labelled_cons.
  assert (Hlab : label_of a = Some s0) by (unfold label_of; by rewrite Hlabel).
  change (labelled s []) with (@nil (gmap string value)).
  destruct (decide (s0 = s)) as [->|Hne].
  - rewrite !lookup_insert_eq, Hl, Hr, decide_True by done.
    cbn [sum_at foldr fmap option_fmap option_map]. rewrite Hn', Hm'.
    by rewrite !Z.add_0_r.
  - rewrite !lookup_insert_ne, decide_False by congruence.
    destruct (Hkeys s Hs) as (_ & [l' ->] & [r' ->]).
    cbn [sum_at foldr fmap option_fmap option_map]. by rewrite !Z.add_0_r.
Qed.

Lemma tally_comments_sums cs :
  forall t, keyed t -> Forall (scored int_of_str) cs ->
  forall t', tally_comments int_of_str t cs = Ok t' ->
    forall s, s ∈ sentiments ->
      sentiment_likes t' !! s =
      (fun n => (n + sum_at int_of_str "likes" (labelled s cs))%Z)
        <$> sentiment_likes t !! s /\
      sentiment_replies t' !! s =
      (fun n => (n + sum_at int_of_str "reply_count" (labelled s cs))%Z)
        <$> sentiment_replies t !! s.
Proof.
  induction cs as [|a cs IH]; intros t Hkeys Hscored t' Ht' s Hs.
  - injection Ht' as <-. destruct (Hkeys s Hs) as (_ & [l ->] & [r ->]).
    cbn. by rewrite !Z.add_0_r.
  - apply Forall_cons in Hscored as [Ha Hcs].
    destruct (tally_comment_scored int_of_str t a Hkeys Ha) as (t1 & Ht1 & Hkeys1 & _).
    destruct (tally_comment_sums t a Hkeys Ha) as (t1' & Ht1' & Hsums1).
    assert (t1' = t1) as -> by congruence.
    cbn [tally_comments] in Ht'. rewrite Ht1 in Ht'.
    cbn [mbind result_bind bind] in Ht'.
    destruct (IH t1 Hkeys1 Hcs t' Ht' s Hs) as [-> ->].
    destruct (Hsums1 s Hs) as [-> ->].
    destruct (Hkeys s Hs) as (_ & [l ->] & [r ->]).
    cbn [fmap option_fmap option_map]. rewrite !labelled_cons.
    change (labelled s []) with (@nil (gmap string value)).
    destruct (decide (label_of a = Some s));
      unfold sum_at; cbn [foldr]; split; apply (f_equal (@Some Z)); lia.
Qed.

(** The records of the three labels are all the records *)
Lemma sum_at_partition k cs :
  Forall (scored int_of_str) cs ->
  (sum_at int_of_str k (labelled "Positive" cs)
   + sum_at int_of_str k (labelled "Negative" cs)
   + sum_at int_of_str k (labelled "Neutral" cs)
   = sum_at int_of_str k cs)%Z.
Proof.
  induction 1 as [|a cs ([s [Hs Hl]] & _) _ IH]; [reflexivity|].
  rewrite !labelled_cons.
  assert (label_of a = Some s) as -> by (unfold label_of; by rewrite Hl).
  unfold sentiments in Hs. rewrite !elem_of_cons in Hs.
  destruct Hs as [->|[->|[->|Hs]]]; [| | |by apply elem_of_nil in Hs];
    repeat (first [rewrite decide_True by done | rewrite decide_False by done]);
    unfold sum_at in *; cbn [foldr] in *; lia.
Qed.

(** X24.  On scored comments the counting loop of [print_summary] gives,
    for each label, the number of records with that label and the sums of
    their likes and of their reply counts, and the two totals are the sums
    over all records: so the three sums of likes add up to the total of
    likes, and the three sums of reply counts to the total of replies. *)
Theorem tally_comments_partition (cs : list (gmap string value)) :
  Forall (scored int_of_str) cs ->
  exists t,
    tally_comments int_of_str
      {| sentiment_counts := zeros; sentiment_likes := zeros;
         sentiment_replies := zeros |} cs = Ok t /\
    (forall s, s ∈ sentiments ->
       sentiment_counts t !! s = Some (Z.of_nat (count_label s cs)) /\
       sentiment_likes t !! s = Some (sum_at int_of_str "likes" (labelled s cs)) /\
       sentiment_replies t !! s
       = Some (sum_at int_of_str "reply_count" (labelled s cs))) /\
    sum_int int_of_str "likes" 0 cs = Ok (sum_at int_of_str "likes" cs) /\
    sum_int int_of_str "reply_count" 0 cs = Ok (sum_at int_of_str "reply_count" cs) /\
    (sum_at int_of_str "likes" (labelled "Positive" cs)
     + sum_at int_of_str "likes" (labelled "Negative" cs)
     + sum_at int_of_str "likes" (labelled "Neutral" cs)
     = sum_at int_of_str "likes" cs)%Z /\
    (sum_at int_of_str "reply_count" (labelled "Positive" cs)
     + sum_at int_of_str "reply_count" (labelled "Negative" cs)
     + sum_at int_of_str "reply_count" (labelled "Neutral" cs)
     = sum_at int_of_str "reply_count" cs)%Z.
Proof.
  intros Hscored.
  destruct (tally_comments_scored int_of_str cs _ keyed_zeros Hscored)
    as (t & Ht & Hkeys & Hcounts).
  pose proof (tally_comments_sums cs _ keyed_zeros Hscored t Ht) as Hsums.
  exists t. split; [done|]. split; [|split; [|split; [|split]]].
  - intros s Hs. destruct (Hsums s Hs) as [Hl Hr].
    rewrite (Hcounts s Hs), Hl, Hr. cbn [sentiment_counts sentiment_likes sentiment_replies].
    rewrite (zeros_lookup s Hs). by repeat split.
  - rewrite sum_int_exact; [done|].
    eapply Forall_impl; [exact Hscored|]. by intros a (_ & ? & _).
  - rewrite sum_int_exact; [done|].
    eapply Forall_impl; [exact Hscored|]. by intros a (_ & _ & ? & _).
  - by apply sum_at_partition.
  - by apply sum_at_partition.
Qed.

(** X25.  The classification is monotone in the score, Negative below
    Neutral below Positive, and the label of the opposite score is the
    opposite label. *)
Theorem classify_sentiment_monotone (x y : Q) :
  x <= y ->
  (rank (classify_sentiment x) <= rank (classify_sentiment y))%Z /\
  classify_sentiment (- x) = mirror (classify_sentiment x).
Proof.
  intros Hxy. unfold classify_sentiment, POSITIVE_THRESHOLD, NEGATIVE_THRESHOLD.
  split.
  - destruct (Qlt_le_dec 0.05 x), (Qlt_le_dec 0.05 y); try (vm_compute; discriminate);
      try lra;
      destruct (Qlt_le_dec x (-0.05)), (Qlt_le_dec y (-0.05));
      try (vm_compute; discriminate); lra.
  - destruct (Qlt_le_dec 0.05 (- x)), (Qlt_le_dec 0.05 x); try lra;
      destruct (Qlt_le_dec (- x) (-0.05)), (Qlt_le_dec x (-0.05));
      try reflexivity; lra.
Qed.

End SummarySums.

(** ** The further properties of stage 2 on concrete inputs *)

Lemma analyze_comments_columns_witness :
  exists self' l,
    analyze_comments lexicon_scorer (loaded [row_ana; row_ben]) = (Ok (), self') /\
    analyzed_comments self' = [] ++ l /\
    length l = 2 /\
    Forall (fun a => dom a = list_to_set fieldnames) l.
Proof.
  destruct (analyze_comments lexicon_scorer (loaded [row_ana; row_ben]))
    as [r self'] eqn:Hrun.
  assert (Hr : r = Ok ()) by (vm_compute in Hrun; by injection Hrun as <- _).
  subst r.
  destruct (analyze_comments_columns lexicon_scorer _ self' Hrun) as (l & Hl & Hn & Hcols).
  by exists self', l.
Defined.

Lemma analyze_comments_scorer_failure_witness :
  exists self' l,
    analyze_comments lexicon_scorer (loaded [row_ana; row_short; row_ben])
    = (Raise AttributeError, self') /\
    comments self' = [row_ana; row_short; row_ben] /\
    analyzed_comments self' = [] ++ l /\
    length l = 1 /\
    scored_texts (trace self') = [] ++ (text_of <$> [row_ana]) ++ [text_of row_short] /\
    written_tables (trace self') = [] /\
    last (trace self') = Some (Scored (text_of row_short)).
Proof.
  apply (analyze_comments_scorer_failure lexicon_scorer
           (loaded [row_ana; row_short; row_ben]) [row_ana] [row_ben] row_short
           AttributeError).
  - reflexivity.
  - repeat constructor. eexists. vm_compute; reflexivity.
  - vm_compute; reflexivity.
Defined.

Lemma analyze_comments_scores_each_once_witness :
  exists self',
    analyze_comments lexicon_scorer (loaded [row_ana; row_ben]) = (Ok (), self') /\
    scored_texts (trace self') = [] ++ (text_of <$> [row_ana; row_ben]) /\
    progress (trace self')
    = [] ++ ((fun j => (j, 2)) <$> filter (fun j => j mod 500 = 0) (seq 1 2)) /\
    last (trace self') = Some (LogCompleted (length (analyzed_comments self'))).
Proof.
  destruct (analyze_comments lexicon_scorer (loaded [row_ana; row_ben]))
    as [r self'] eqn:Hrun.
  assert (Hr : r = Ok ()) by (vm_compute in Hrun; by injection Hrun as <- _).
  subst r. exists self'. split; [reflexivity|].
  exact (analyze_comments_scores_each_once lexicon_scorer _ self' Hrun).
Defined.

Lemma run_writes_what_was_analyzed_witness :
  exists r self',
    run lexicon_scorer decimal input_pair writable init = (r, self') /\
    (attempted_tables (trace self') = attempted_tables (trace init) /\
     written_tables (trace self') = written_tables (trace init) \/
     exists rows l,
       input_pair INPUT_CSV = Ok rows /\
       mapM (analyze lexicon_scorer) rows = Ok l /\
       analyzed_comments self' = analyzed_comments init ++ l /\
       analyzed_comments self' <> [] /\
       attempted_tables (trace self') = attempted_tables (trace init) ++ [OUTPUT_CSV] /\
       (written_tables (trace self') = written_tables (trace init) \/
        written_tables (trace self')
        = written_tables (trace init)
          ++ [(OUTPUT_CSV, fieldnames, analyzed_comments self')])).
Proof.
  destruct (run lexicon_scorer decimal input_pair writable init)
    as [r self'] eqn:Hrun.
  exists r, self'. split; [reflexivity|].
  exact (run_writes_what_was_analyzed lexicon_scorer decimal input_pair writable
           init r self' Hrun).
Defined.

Lemma run_raises_inv_witness :
  exists self',
    run lexicon_scorer decimal input_pair read_only init = (Raise OSError, self') /\
    exists rows,
      input_pair INPUT_CSV = Ok rows /\
      ((exists before c after,
           rows = before ++ c :: after /\
           lexicon_scorer (text_of c) = Raise OSError /\
           attempted_tables (trace self') = attempted_tables (trace init) /\
           written_tables (trace self') = written_tables (trace init))
       \/
       (exists l,
           mapM (analyze lexicon_scorer) rows = Ok l /\
           analyzed_comments init ++ l <> [] /\
           read_only OUTPUT_CSV fieldnames (analyzed_comments init ++ l)
           = Some OSError /\
           attempted_tables (trace self')
           = attempted_tables (trace init) ++ [OUTPUT_CSV] /\
           written_tables (trace self') = written_tables (trace init) /\
           last (trace self') = Some (LogErrorWriting OSError))
       \/
       (exists l self1,
           mapM (analyze lexicon_scorer) rows = Ok l /\
           analyzed_comments init ++ l <> [] /\
           read_only OUTPUT_CSV fieldnames (analyzed_comments init ++ l) = None /\
           analyzed_comments self1 = analyzed_comments init ++ l /\
           (print_summary decimal self1).1 = Raise OSError /\
           attempted_tables (trace self')
           = attempted_tables (trace init) ++ [OUTPUT_CSV] /\
           written_tables (trace self')
           = written_tables (trace init)
             ++ [(OUTPUT_CSV, fieldnames, analyzed_comments init ++ l)])).
Proof.
  destruct (run lexicon_scorer decimal input_pair read_only init)
    as [r self'] eqn:Hrun.
  assert (Hr : r = Raise OSError)
    by (vm_compute in Hrun; by injection Hrun as <- _).
  subst r. exists self'. split; [reflexivity|].
  exact (run_raises_inv lexicon_scorer decimal input_pair read_only
           init OSError self' Hrun).
Defined.

Lemma main_empty_input_witness :
  main lexicon_scorer decimal input_empty writable =
  (Ok (),
   {| comments := [];
      analyzed_comments := [];
      trace := [LogStarting; LogLoading INPUT_CSV; LogLoaded 0; LogAnalyzing;
                LogCompleted 0; LogNoAnalyzedToExport; LogNoCommentsToSummarize;
                LogWorkflowCompleted] |}).
Proof.
  apply (main_empty_input lexicon_scorer decimal input_empty writable).
  reflexivity.
Defined.

Lemma tally_comments_partition_witness :
  exists t,
    tally_comments decimal
      {| sentiment_counts := zeros; sentiment_likes := zeros;
         sentiment_replies := zeros |} [analyzed_ana; analyzed_ben] = Ok t /\
    (forall s, s ∈ sentiments ->
       sentiment_counts t !! s
       = Some (Z.of_nat (count_label s [analyzed_ana; analyzed_ben])) /\
       sentiment_likes t !! s
       = Some (sum_at decimal "likes" (labelled s [analyzed_ana; analyzed_ben])) /\
       sentiment_replies t !! s
       = Some (sum_at decimal "reply_count"
                 (labelled s [analyzed_ana; analyzed_ben]))) /\
    sum_int decimal "likes" 0 [analyzed_ana; analyzed_ben]
    = Ok (sum_at decimal "likes" [analyzed_ana; analyzed_ben]) /\
    sum_int decimal "reply_count" 0 [analyzed_ana; analyzed_ben]
    = Ok (sum_at decimal "reply_count" [analyzed_ana; analyzed_ben]) /\
    (sum_at decimal "likes" (labelled "Positive" [analyzed_ana; analyzed_ben])
     + sum_at decimal "likes" (labelled "Negative" [analyzed_ana; analyzed_ben])
     + sum_at decimal "likes" (labelled "Neutral" [analyzed_ana; analyzed_ben])
     = sum_at decimal "likes" [analyzed_ana; analyzed_ben])%Z /\
    (sum_at decimal "reply_count" (labelled "Positive" [analyzed_ana; analyzed_ben])
     + sum_at decimal "reply_count" (labelled "Negative" [analyzed_ana; analyzed_ben])
     + sum_at decimal "reply_count" (labelled "Neutral" [analyzed_ana; analyzed_ben])
     = sum_at decimal "reply_count" [analyzed_ana; analyzed_ben])%Z.
Proof.
  apply (tally_comments_partition decimal [analyzed_ana; analyzed_ben]).
  exact analyzed_pair_scored.
Defined.

Lemma classify_sentiment_monotone_witness :
  (rank (classify_sentiment (-0.4767)%Q) <= rank (classify_sentiment 0.6696%Q))%Z /\
  classify_sentiment (- (-0.4767))%Q = mirror (classify_sentiment (-0.4767)%Q).
Proof.
  apply (classify_sentiment_monotone (-0.4767)%Q 0.6696%Q).
  vm_compute. discriminate.
Defined.
